(** * Brand checker: the trademark pipeline of [backend/checkers.py]

    A shallow embedding of the trademark check of the brand-checker
    backend ([backend/checkers.py], [backend/nice_classes.py]) and the
    properties of its natural-language specification.

    Modelling conventions.
    - A Python [str] is a [string] whose characters are the code points
      0..255 (Latin-1); the interpreter's character tables (whitespace,
      digits, lower-casing) are restricted to that range.  Strings that
      hold other characters (such as the decimal digits of other
      scripts, which [isdigit] accepts and [int] reads) are outside the
      model.
    - A decoded JSON value is a [json]; numbers are integers, of a size
      that [str] prints (the decoder reads no integer beyond the limit
      of [int]).  [None] is [JNull], a [dict] is an association list
      read by first match.
    - Exceptions are values of [exn]; every one of them is an instance of
      Python's [Exception].  Code that can raise returns [exn + A].
    - The network, the process environment and the clock are explicit
      ([Env]); the module global [_cached_token] and the log of requests
      sent are the state [World] threaded by the monad [M].
    - What the model leaves open of the interpreter is a parameter
      ([Runtime]): [repr] of a list, a dict or a string, the order in
      which a [set] of strings is iterated (string hashes are salted per
      process), and the limit of [int] on the length of a literal. *)

From Stdlib Require Import String Ascii List ZArith NArith Bool Lia.
From Stdlib Require Import Permutation Sorted DecimalString.
Import ListNotations.
Local Open Scope string_scope.
Local Open Scope Z_scope.

(** ** Characters and strings *)

Module PyStr.

Definition code (c : ascii) : Z := Z.of_N (N_of_ascii c).

(** [str.isspace] on one character (also the class [\s] of [re] on [str]
    patterns): 0x09-0x0D, 0x1C-0x20, 0x85, 0xA0. *)
Definition is_space (c : ascii) : bool :=
  let n := code c in
  ((9 <=? n) && (n <=? 13)) || ((28 <=? n) && (n <=? 32))
  || (n =? 133) || (n =? 160).

(** The characters of Latin-1 with the decimal property, 0-9: the only
    characters of Latin-1 that [int()] reads as digits. *)
Definition is_decimal (c : ascii) : bool :=
  let n := code c in (48 <=? n) && (n <=? 57).

(** [str.isdigit] on one character of Latin-1: the decimal digits and
    the superscripts U+00B2, U+00B3, U+00B9. *)
Definition is_digit (c : ascii) : bool :=
  let n := code c in
  is_decimal c || (n =? 178) || (n =? 179) || (n =? 185).

(** [str.lower] on one character: A-Z and the upper-case letters
    U+00C0-U+00DE (U+00D7, the multiplication sign, excepted). *)
Definition lower_char (c : ascii) : ascii :=
  let n := code c in
  if ((65 <=? n) && (n <=? 90))
     || ((192 <=? n) && (n <=? 222) && negb (n =? 215))
  then ascii_of_N (Z.to_N (n + 32)) else c.

Fixpoint lower (s : string) : string :=
  match s with
  | EmptyString => EmptyString
  | String c r => String (lower_char c) (lower r)
  end.

Definition is_empty (s : string) : bool :=
  match s with EmptyString => true | String _ _ => false end.

Fixpoint all_chars (p : ascii -> bool) (s : string) : bool :=
  match s with
  | EmptyString => true
  | String c r => p c && all_chars p r
  end.

(** [s.isdigit()]: at least one character, all of them digits. *)
Definition isdigit (s : string) : bool :=
  negb (is_empty s) && all_chars is_digit s.

Fixpoint lstrip_with (p : ascii -> bool) (s : string) : string :=
  match s with
  | EmptyString => EmptyString
  | String c r => if p c then lstrip_with p r else s
  end.

Fixpoint rstrip_with (p : ascii -> bool) (s : string) : string :=
  match s with
  | EmptyString => EmptyString
  | String c r =>
      let r' := rstrip_with p r in
      if p c && is_empty r' then EmptyString else String c r'
  end.

Definition strip_with (p : ascii -> bool) (s : string) : string :=
  lstrip_with p (rstrip_with p s).

(** [s.strip()] *)
Definition strip (s : string) : string := strip_with is_space s.

(** [s.rstrip('/')] *)
Definition rstrip_slash (s : string) : string :=
  rstrip_with (fun c => code c =? 47) s.

(** [s[:n]] *)
Fixpoint prefix (n : nat) (s : string) : string :=
  match n, s with
  | O, _ => EmptyString
  | _, EmptyString => EmptyString
  | S k, String c r => String c (prefix k r)
  end.

(** [sep.join(l)] on a list of strings. *)
Fixpoint join (sep : string) (l : list string) : string :=
  match l with
  | [] => EmptyString
  | [x] => x
  | x :: r => x ++ sep ++ join sep r
  end.

(** [re.sub(r"\s+", " ", s)]: every maximal run of whitespace becomes one
    blank.  [in_run] tells that the previous character was whitespace. *)
Fixpoint sub_ws (in_run : bool) (s : string) : string :=
  match s with
  | EmptyString => EmptyString
  | String c r =>
      if is_space c
      then if in_run then sub_ws true r else String " " (sub_ws true r)
      else String c (sub_ws false r)
  end.

(** Value of a string of decimal digits, most significant first. *)
Fixpoint digits_value (acc : Z) (s : string) : Z :=
  match s with
  | EmptyString => acc
  | String c r => digits_value (10 * acc + (code c - 48)) r
  end.

(** The run of digits and underscores at the head of a literal, as
    [int()] scans it: the digits read (without the underscores) and what
    follows the run; [None] when two underscores meet or the run ends
    in one.  [prev_underscore] tells that the previous character was an
    underscore. *)
Fixpoint scan_digits (prev_underscore : bool) (s : string)
  : option (string * string) :=
  match s with
  | EmptyString =>
      if prev_underscore then None else Some (EmptyString, EmptyString)
  | String c r =>
      if is_decimal c
      then match scan_digits false r with
           | Some (digits, rest) => Some (String c digits, rest)
           | None => None
           end
      else if code c =? 95
           then if prev_underscore then None else scan_digits true r
           else if prev_underscore then None else Some (EmptyString, s)
  end.

(** The whitespace [int()] skips around a literal: the ASCII characters
    of C's [isspace] (the separators 0x1C-0x1F are not among them) and
    the whitespace beyond ASCII. *)
Definition is_int_space (c : ascii) : bool :=
  let n := code c in
  ((9 <=? n) && (n <=? 13)) || (n =? 32) || (n =? 133) || (n =? 160).

(** The limit on the number of digits that [int()] converts:
    [limit] is [sys.get_int_max_str_digits()], where 0 stands for no
    limit; runs of 640 digits or less are always converted. *)
Definition over_limit (limit digits : nat) : bool :=
  ((640 <? digits) && (0 <? limit) && (limit <? digits))%nat.

(** Why [int(s)] raises its [ValueError]. *)
Inductive int_error : Type :=
| InvalidLiteral
| ExceedsLimit (digits : nat).

(** [int(s)] in base 10: leading whitespace, an optional sign, the run
    of digits (it may not start with an underscore, and is refused when
    longer than the limit), trailing whitespace, and nothing else. *)
Definition parse_int (limit : nat) (s : string) : int_error + Z :=
  let unsigned (negative : bool) (body : string) : int_error + Z :=
    match body with
    | EmptyString => inl InvalidLiteral
    | String c _ =>
        if code c =? 95 then inl InvalidLiteral
        else
          match scan_digits false body with
          | None => inl InvalidLiteral
          | Some (digits, rest) =>
              if over_limit limit (String.length digits)
              then inl (ExceedsLimit (String.length digits))
              else if is_empty digits then inl InvalidLiteral
              else if is_empty (lstrip_with is_int_space rest)
                   then inr (if negative then - digits_value 0 digits
                             else digits_value 0 digits)
                   else inl InvalidLiteral
          end
    end in
  match lstrip_with is_int_space s with
  | EmptyString => inl InvalidLiteral
  | String c r =>
      if code c =? 45 then unsigned true r
      else if code c =? 43 then unsigned false r
      else unsigned false (String c r)
  end.

(** [str(n)] for an integer. *)
Definition of_Z (n : Z) : string := NilZero.string_of_int (Z.to_int n).

End PyStr.

(** ** JSON values and the interpreter's built-ins *)

Set Warnings "-register-all".

Inductive json : Type :=
| JNull
| JBool (b : bool)
| JNum (n : Z)
| JStr (s : string)
| JArr (items : list json)
| JObj (fields : list (string * json)).

(** What the model leaves open of the interpreter. *)
Record Runtime : Type := {
  (** [repr] of a list or a dict *)
  repr_container : json -> string;
  (** [repr] of a string (used in the messages of the interpreter) *)
  repr_str : string -> string;
  (** position of a string in the iteration of a set: any order of the
      distinct elements can occur, and ties keep the insertion order *)
  set_slot : string -> nat;
  (** [sys.get_int_max_str_digits()]: 4300 unless configured otherwise,
      0 for an interpreter without the limit *)
  int_max_str_digits : nat
}.

(** Exceptions; each is an instance of [Exception]. *)
Inductive exn : Type :=
| ValueError (msg : string)
| NameError (msg : string)
| TypeError (msg : string)
| AttributeError (msg : string)
| PyException (msg : string)      (* [raise Exception(...)] in the code *)
| TransportError (msg : string)   (* raised by the HTTP client *)
| DecodeError (msg : string).     (* raised by [response.json()] *)

(** [str(err)] *)
Definition exn_str (e : exn) : string :=
  match e with
  | ValueError m | NameError m | TypeError m | AttributeError m
  | PyException m | TransportError m | DecodeError m => m
  end.

Module Py.

(** [type(v).__name__] *)
Definition type_name (v : json) : string :=
  match v with
  | JNull => "NoneType"
  | JBool _ => "bool"
  | JNum _ => "int"
  | JStr _ => "str"
  | JArr _ => "list"
  | JObj _ => "dict"
  end.

(** [bool(v)] *)
Definition truthy (v : json) : bool :=
  match v with
  | JNull => false
  | JBool b => b
  | JNum n => negb (n =? 0)
  | JStr s => negb (PyStr.is_empty s)
  | JArr l => match l with [] => false | _ => true end
  | JObj l => match l with [] => false | _ => true end
  end.

(** [a or b] *)
Definition or_ (a b : json) : json := if truthy a then a else b.

(** [str(v)], also what an f-string field prints. *)
Definition str (rt : Runtime) (v : json) : string :=
  match v with
  | JNull => "None"
  | JBool true => "True"
  | JBool false => "False"
  | JNum n => PyStr.of_Z n
  | JStr s => s
  | JArr _ | JObj _ => repr_container rt v
  end.

(** [d.get(k)] on a dict. *)
Fixpoint dict_get (k : string) (d : list (string * json)) : json :=
  match d with
  | [] => JNull
  | (k', v) :: r => if String.eqb k k' then v else dict_get k r
  end.

(** [d.get(k, default)] on a dict. *)
Fixpoint dict_get_default (k : string) (dflt : json)
    (d : list (string * json)) : json :=
  match d with
  | [] => dflt
  | (k', v) :: r => if String.eqb k k' then v else dict_get_default k dflt r
  end.

Definition no_attribute (v : json) (attr : string) : exn :=
  AttributeError ("'" ++ type_name v ++ "' object has no attribute '"
                  ++ attr ++ "'").

(** [v.get(k)] on any value: only a dict has the method. *)
Definition get (v : json) (k : string) : exn + json :=
  match v with
  | JObj d => inr (dict_get k d)
  | _ => inl (no_attribute v "get")
  end.

(** [v.get(k, default)] on any value. *)
Definition get_default (v : json) (k : string) (dflt : json) : exn + json :=
  match v with
  | JObj d => inr (dict_get_default k dflt d)
  | _ => inl (no_attribute v "get")
  end.

(** [str(err)] for the [ValueError] of [int(s)]; the [repr] of the
    string is cut to 200 characters.  The text of the limit error is the
    one of CPython 3.12 and later (earlier versions print the limit
    without the word digits). *)
Definition int_error_message (rt : Runtime) (s : string)
    (err : PyStr.int_error) : string :=
  match err with
  | PyStr.InvalidLiteral =>
      "invalid literal for int() with base 10: "
      ++ PyStr.prefix 200 (repr_str rt s)
  | PyStr.ExceedsLimit digits =>
      "Exceeds the limit ("
      ++ PyStr.of_Z (Z.of_nat (int_max_str_digits rt))
      ++ " digits) for integer string conversion: value has "
      ++ PyStr.of_Z (Z.of_nat digits)
      ++ " digits; use sys.set_int_max_str_digits() to increase the limit"
  end.

(** [int(v)]; the message of the [TypeError] is the one of CPython 3.10
    and later. *)
Definition int (rt : Runtime) (v : json) : exn + Z :=
  match v with
  | JNum n => inr n
  | JBool b => inr (if b then 1 else 0)
  | JStr s =>
      match PyStr.parse_int (int_max_str_digits rt) s with
      | inr n => inr n
      | inl err => inl (ValueError (int_error_message rt s err))
      end
  | _ => inl (TypeError
        ("int() argument must be a string, a bytes-like object or a real number, not '"
         ++ type_name v ++ "'"))
  end.

(** The key of both [sorted] calls: [int(x) if x.isdigit() else 999]. *)
Definition class_key (rt : Runtime) (x : string) : exn + Z :=
  if PyStr.isdigit x then int rt (JStr x) else inr 999.

End Py.

(** ** The Nice class table ([backend/nice_classes.py]) *)

Definition NICE_CLASS_MAP : list (string * string) :=
  [
    ("1", "Chemicals");
    ("2", "Paints, varnishes & coatings");
    ("3", "Cosmetics & cleaning preparations");
    ("4", "Industrial oils, greases & fuels");
    ("5", "Pharmaceuticals & medical preparations");
    ("6", "Common metals & metal goods");
    ("7", "Machines & machine tools");
    ("8", "Hand tools");
    ("9", "Scientific & electronic apparatus, software");
    ("10", "Medical apparatus");
    ("11", "Lighting, heating & cooling");
    ("12", "Vehicles");
    ("13", "Firearms");
    ("14", "Jewellery, clocks & watches");
    ("15", "Musical instruments");
    ("16", "Paper goods & printed matter");
    ("17", "Rubber, plastics & insulation materials");
    ("18", "Leather goods & bags");
    ("19", "Building materials");
    ("20", "Furniture");
    ("21", "Household utensils & glassware");
    ("22", "Ropes, nets & sacks");
    ("23", "Yarns & threads");
    ("24", "Textiles & textile goods");
    ("25", "Clothing, footwear & headgear");
    ("26", "Lace, buttons & haberdashery");
    ("27", "Floor coverings");
    ("28", "Games, toys & sporting goods");
    ("29", "Meat, fish & processed foods");
    ("30", "Coffee, tea, flour & bakery goods");
    ("31", "Agriculture & fresh foods");
    ("32", "Beers & non-alcoholic beverages");
    ("33", "Alcoholic beverages");
    ("34", "Tobacco & smokers' articles");
    ("35", "Advertising, business & retail services");
    ("36", "Financial, insurance & real estate services");
    ("37", "Construction & repair services");
    ("38", "Telecommunications");
    ("39", "Transport, packaging & travel services");
    ("40", "Material treatment");
    ("41", "Education, entertainment & sporting services");
    ("42", "Scientific & technology services; software");
    ("43", "Food, drink & accommodation services");
    ("44", "Medical, beauty & agriculture services");
    ("45", "Legal & security services")
  ].

Fixpoint table_find (k : string) (t : list (string * string)) : option string :=
  match t with
  | [] => None
  | (k', v) :: r => if String.eqb k k' then Some v else table_find k r
  end.

Definition label_nice_class (n : string) : string :=
  let key := PyStr.strip n in
  match table_find key NICE_CLASS_MAP with
  | Some description => key ++ " (" ++ description ++ ")"
  | None => key
  end.

(** ** The data model ([backend/checkers.py]) *)

Inductive AvailabilityStatus : Type := available | taken | unknown | similar.

Record TrademarkMatch : Type := {
  tm_id : json;
  tm_words : option string;
  tm_status : option string;
  tm_classes : list string;
  tm_class_labels : list string
}.

(** [TrademarkMatch.__init__]: [classes or []], [class_labels or []]. *)
Definition new_match (id : json) (words status : option string)
    (classes class_labels : option (list string)) : TrademarkMatch :=
  {| tm_id := id;
     tm_words := words;
     tm_status := status;
     tm_classes := match classes with Some l => l | None => [] end;
     tm_class_labels := match class_labels with Some l => l | None => [] end |}.

Record CheckResult : Type := {
  cr_label : string;
  cr_status : AvailabilityStatus;
  cr_summary : option string;
  cr_why_this_matters : option string;
  cr_details : option string;
  cr_exact_matches : list TrademarkMatch;
  cr_similar_matches : list TrademarkMatch
}.

Definition normalize_query (name : string) : string :=
  PyStr.sub_ws false (PyStr.strip name).

(** ** Sets and [sorted] *)

Section StableSort.
Context {A : Type} (key : A -> Z).

(** Insertion in front of the first element with a key that is not
    smaller: the new element comes from the left of the others. *)
Fixpoint insert_by (x : A) (l : list A) : list A :=
  match l with
  | [] => [x]
  | y :: r => if key x <=? key y then x :: l else y :: insert_by x r
  end.

(** A stable sort by [key], as [sorted] is. *)
Fixpoint stable_sort (l : list A) : list A :=
  match l with
  | [] => []
  | x :: r => insert_by x (stable_sort r)
  end.
End StableSort.

(** The elements of [set(l)] in the order the interpreter iterates them. *)
Definition set_iter (rt : Runtime) (l : list string) : list string :=
  stable_sort (fun x => Z.of_nat (set_slot rt x)) (nodup string_dec l).

(** The keys of the elements, computed in order; the first exception of
    the key function is the one [sorted] raises. *)
Fixpoint decorate (rt : Runtime) (l : list string) : exn + list (Z * string) :=
  match l with
  | [] => inr []
  | x :: r =>
      match Py.class_key rt x with
      | inl e => inl e
      | inr k =>
          match decorate rt r with
          | inl e => inl e
          | inr kr => inr ((k, x) :: kr)
          end
      end
  end.

(** [sorted(set(l), key=lambda x: int(x) if x.isdigit() else 999)] *)
Definition sorted_classes (rt : Runtime) (l : list string) : exn + list string :=
  match decorate rt (set_iter rt l) with
  | inl e => inl e
  | inr kl => inr (map snd (stable_sort fst kl))
  end.

(** ** The record normalizer: [extract_nice_classes] *)

(** [a or b or ... or z] *)
Fixpoint or_chain (l : list json) : json :=
  match l with
  | [] => JNull
  | [x] => x
  | x :: r => Py.or_ x (or_chain r)
  end.

(** [d[k]] when [isinstance(d.get(k), list)], nothing otherwise. *)
Definition list_field (d : list (string * json)) (k : string) : list json :=
  match Py.dict_get k d with
  | JArr l => l
  | _ => []
  end.

(** The candidates, in the order the code collects them. *)
Definition class_candidates (tm : list (string * json)) : list json :=
  let goods_and_services := Py.dict_get "goodsAndServices" tm in
  list_field tm "classes"
  ++ list_field tm "niceClasses"
  ++ list_field tm "classifications"
  ++ match goods_and_services with
     | JObj g => list_field g "classes" ++ list_field g "niceClasses"
     | _ => []
     end
  ++ match goods_and_services with
     | JArr l => l
     | _ => []
     end
  ++ list_field tm "classificationList".

(** The class number of one candidate. *)
Definition candidate_number (c : json) : json :=
  match c with
  | JObj d =>
      or_chain [Py.dict_get "number" d; Py.dict_get "classNumber" d;
                Py.dict_get "niceClass" d; Py.dict_get "class" d;
                Py.dict_get "classId" d]
  | _ => c
  end.

(** Lines 211-214: what one class number adds to [numbers]. *)
Definition number_string (rt : Runtime) (num : json) : option string :=
  match num with
  | JNull => None
  | _ =>
      let num_str := PyStr.strip (Py.str rt num) in
      if PyStr.is_empty num_str then None else Some num_str
  end.

(** The loop over the candidates: [numbers]. *)
Fixpoint class_numbers (rt : Runtime) (candidates : list json) : list string :=
  match candidates with
  | [] => []
  | c :: r =>
      match number_string rt (candidate_number c) with
      | Some num_str => num_str :: class_numbers rt r
      | None => class_numbers rt r
      end
  end.

Definition extract_nice_classes (rt : Runtime) (tm : list (string * json))
  : exn + list string :=
  sorted_classes rt (class_numbers rt (class_candidates tm)).

(** ** The environment, the state and the monad of effects *)

Inductive Request : Type :=
| TokenPost (url client_id client_secret : string)
| SearchPost (url authorization : string) (payload : json)
| DetailGet (url authorization : string).

Record Response : Type := {
  status_code : Z;
  text : string;
  (** the outcome of [response.json()] *)
  decoded : exn + json
}.

(** [response.is_success]: a 2xx status. *)
Definition is_success (r : Response) : bool :=
  (200 <=? status_code r) && (status_code r <? 300).

Record Env : Type := {
  (** [os.getenv] *)
  getenv : string -> option string;
  (** the answer to a request, given how many were sent before it: a
      response, or the exception the HTTP client raises *)
  network : nat -> Request -> exn + Response;
  (** [time.time() * 1000] rounded down, given how many requests were
      sent so far *)
  clock_ms : nat -> Z
}.

Record CachedToken : Type := {
  token : json;
  expiresAt : Z
}.

Record World : Type := {
  (** the module global [_cached_token] *)
  cached_token : option CachedToken;
  (** the requests sent so far, oldest first *)
  sent : list Request
}.

Definition M (A : Type) : Type := World -> World * (exn + A).

Definition ret {A} (a : A) : M A := fun w => (w, inr a).

Definition raise {A} (e : exn) : M A := fun w => (w, inl e).

Definition bind {A B} (c : M A) (k : A -> M B) : M B :=
  fun w =>
    match c w with
    | (w', inl e) => (w', inl e)
    | (w', inr a) => k a w'
    end.

(** A pure computation that can raise. *)
Definition lift {A} (r : exn + A) : M A := fun w => (w, r).

(** [try: c  except Exception as err: h(err)] *)
Definition try_except {A} (c : M A) (h : exn -> M A) : M A :=
  fun w =>
    match c w with
    | (w', inl e) => h e w'
    | (w', inr a) => (w', inr a)
    end.

Notation "x <- c ;; k" := (bind c (fun x => k))
  (at level 61, c at next level, right associativity).

(** The state once [req] is sent. *)
Definition log (w : World) (req : Request) : World :=
  {| cached_token := cached_token w; sent := sent w ++ [req] |}.

(** One HTTP request: it is logged, then answered by the network. *)
Definition send (E : Env) (req : Request) : M Response :=
  fun w => (log w req, network E (length (sent w)) req).

(** [time.time() * 1000], rounded down. *)
Definition now_ms (E : Env) : M Z :=
  fun w => (w, inr (clock_ms E (length (sent w)))).

Definition read_cache : M (option CachedToken) :=
  fun w => (w, inr (cached_token w)).

(** [os.getenv(k, default)] *)
Definition getenv_default (E : Env) (k dflt : string) : string :=
  match getenv E k with Some v => v | None => dflt end.

(** [not v] for the result of [os.getenv]. *)
Definition unset (v : option string) : bool :=
  match v with
  | None => true
  | Some s => PyStr.is_empty s
  end.

Definition env_value (v : option string) : string :=
  match v with Some s => s | None => EmptyString end.

(** ** The token cache *)

(** The module namespace of [checkers.py] as [request_new_token] reads
    it.  The module binds its imports, its classes and functions,
    [AvailabilityStatus], [_cached_token] and [_token_lock]; it binds none
    of [token_url], [client_id] and [client_secret], which are locals of
    [get_ipau_access_token], and no built-in has these names. *)
Definition module_globals : string -> option string := fun _ => None.

(** Reading a name that is not local to the function. *)
Definition load_global (globals : string -> option string) (name : string)
  : M string :=
  match globals name with
  | Some v => ret v
  | None => raise (NameError ("name '" ++ name ++ "' is not defined"))
  end.

(** [request_new_token], lines 132-167.  The function has no parameter
    and no [global] statement: [token_url], [client_id] and
    [client_secret] are read from the module namespace [globals], and the
    assignment to [_cached_token] binds a local of the function. *)
Definition request_new_token (E : Env) (rt : Runtime)
    (globals : string -> option string) : M json :=
  token_url <- load_global globals "token_url" ;;
  client_id <- load_global globals "client_id" ;;
  client_secret <- load_global globals "client_secret" ;;
  response <- send E (TokenPost token_url client_id client_secret) ;;
  if negb (is_success response)
  then raise (PyException ("Token request failed "
                           ++ PyStr.of_Z (status_code response) ++ ": "
                           ++ PyStr.prefix 250 (text response)))
  else
    data <- lift (decoded response) ;;
    access_token <- lift (Py.get data "access_token") ;;
    expires_raw <- lift (Py.get_default data "expires_in" (JNum 3600)) ;;
    expires_in <- lift (Py.int rt expires_raw) ;;
    if negb (Py.truthy access_token)
    then raise (PyException ("Token response missing access_token: "
                             ++ PyStr.prefix 250 (text response)))
    else
      now <- now_ms E ;;
      let _cached_token :=    (* a local of [request_new_token] *)
        {| token := access_token;
           expiresAt := now + (expires_in - 60) * 1000 |} in
      ret access_token.

(** [get_ipau_access_token], lines 102-130. *)
Definition get_ipau_access_token (E : Env) (rt : Runtime) : M json :=
  let env := getenv_default E "IPAU_ENV" "test" in
  let token_url :=
    if String.eqb env "production"
    then getenv E "IPAU_TOKEN_URL_PROD"
    else getenv E "IPAU_TOKEN_URL_TEST" in
  let client_id := getenv E "IPAU_CLIENT_ID" in
  let client_secret := getenv E "IPAU_CLIENT_SECRET" in
  if unset token_url
  then raise (ValueError "Missing IPAU_TOKEN_URL_TEST/PROD in environment")
  else if unset client_id
  then raise (ValueError "Missing IPAU_CLIENT_ID in environment")
  else if unset client_secret
  then raise (ValueError "Missing IPAU_CLIENT_SECRET in environment")
  else
    cache <- read_cache ;;
    match cache with
    | Some c =>
        now <- now_ms E ;;
        if now <? expiresAt c then ret (token c)
        else request_new_token E rt module_globals
    | None => request_new_token E rt module_globals
    end.

(** ** Detail fetches *)

(** The dict a detail fetch returns: [{id, data}] or [{id, error}]. *)
Inductive DetailResult : Type :=
| DetailData (id : json) (data : json)
| DetailError (id : json) (error : string).

Definition detail_id (d : DetailResult) : json :=
  match d with
  | DetailData id _ | DetailError id _ => id
  end.

Definition bearer (rt : Runtime) (token : json) : string :=
  "Bearer " ++ Py.str rt token.

(** The request of one detail fetch, lines 226-235. *)
Definition detail_request (rt : Runtime) (id token : json)
    (base_url : string) : Request :=
  let url := PyStr.rstrip_slash base_url ++ "/trade-mark/" ++ Py.str rt id in
  DetailGet url (bearer rt token).

(** [fetch_trademark_details], lines 222-249. *)
Definition fetch_trademark_details (E : Env) (rt : Runtime)
    (id token : json) (base_url : string) : M DetailResult :=
  response <- send E (detail_request rt id token base_url) ;;
  if negb (is_success response)
  then ret (DetailError id ("Detail fetch failed "
                            ++ PyStr.of_Z (status_code response) ++ ": "
                            ++ PyStr.prefix 120 (text response)))
  else
    match decoded response with
    | inr data => ret (DetailData id data)
    | inl _ => ret (DetailError id ("Detail fetch returned non-JSON: "
                                    ++ PyStr.prefix 120 (text response)))
    end.

(** [asyncio.gather] over [f(x) for x in l]: every coroutine is started, in
    the order of the list; the results come back in that order; when some
    raise, one of their exceptions is raised (here, the one of the
    leftmost failing item). *)
Fixpoint gather {A B} (f : A -> M B) (l : list A) : M (list B) :=
  match l with
  | [] => ret []
  | x :: r =>
      fun w =>
        match f x w with
        | (w1, inl e) => (fst (gather f r w1), inl e)
        | (w1, inr b) =>
            match gather f r w1 with
            | (w2, inl e) => (w2, inl e)
            | (w2, inr bs) => (w2, inr (b :: bs))
            end
        end
  end.

(** ** The trademark checker *)

Definition LABEL : string := "Trademark (IP Australia)".

(** Lines 378-385: the classes of a detail record. *)
Fixpoint goods_classes (rt : Runtime) (goods : list json) : exn + list string :=
  match goods with
  | [] => inr []
  | gs :: r =>
      match Py.get gs "class" with
      | inl e => inl e
      | inr cls =>
          match goods_classes rt r with
          | inl e => inl e
          | inr added =>
              inr (if Py.truthy cls then Py.str rt cls :: added else added)
          end
      end
  end.

(** Lines 352-360: the words of a detail record. *)
Definition record_words (f : list (string * json)) : json :=
  or_chain [Py.dict_get "words" f; Py.dict_get "tradeMarkWords" f;
            Py.dict_get "markText" f; Py.dict_get "text" f;
            Py.dict_get "name" f; Py.dict_get "tradeMarkName" f;
            JStr EmptyString].

(** Lines 363-372: the status of a detail record. *)
Definition record_status (f : list (string * json)) : json :=
  or_chain [Py.dict_get "statusGroup" f; Py.dict_get "statusCode" f;
            Py.dict_get "statusDetail" f; Py.dict_get "status" f;
            Py.dict_get "tradeMarkStatus" f; Py.dict_get "state" f;
            Py.dict_get "ipRightStatus" f; JStr EmptyString].

(** Lines 336-396: one iteration of the loop that builds [parsed]. *)
Definition parse_detail (rt : Runtime) (d : DetailResult)
  : exn + TrademarkMatch :=
  match d with
  | DetailError id _ =>
      inr (new_match id (Some EmptyString) (Some EmptyString)
                     (Some []) (Some []))
  | DetailData id tm =>
      match tm with
      | JObj f =>
          let words := record_words f in
          let status := record_status f in
          let goods_and_services := Py.dict_get "goodsAndServices" f in
          match match goods_and_services with
                | JArr l => goods_classes rt l
                | _ => inr []
                end with
          | inl e => inl e
          | inr classes_set =>
              match sorted_classes rt classes_set with
              | inl e => inl e
              | inr classes =>
                  let class_labels := map label_nice_class classes in
                  inr (new_match id (Some (Py.str rt words))
                                 (Some (Py.str rt status))
                                 (Some classes) (Some class_labels))
              end
          end
      | _ => inl (Py.no_attribute tm "get")
      end
  end.

(** The loop over [detail_results]: the first exception ends it. *)
Fixpoint parse_details (rt : Runtime) (ds : list DetailResult)
  : exn + list TrademarkMatch :=
  match ds with
  | [] => inr []
  | d :: r =>
      match parse_detail rt d with
      | inl e => inl e
      | inr p =>
          match parse_details rt r with
          | inl e => inl e
          | inr ps => inr (p :: ps)
          end
      end
  end.

(** [CheckResult.__init__]: [exact_matches or []], [similar_matches or []]. *)
Definition new_result (status : AvailabilityStatus)
    (summary why_this_matters details : string)
    (exact_matches similar_matches : option (list TrademarkMatch))
  : CheckResult :=
  {| cr_label := LABEL;
     cr_status := status;
     cr_summary := Some summary;
     cr_why_this_matters := Some why_this_matters;
     cr_details := Some details;
     cr_exact_matches := match exact_matches with Some l => l | None => [] end;
     cr_similar_matches :=
       match similar_matches with Some l => l | None => [] end |}.

(** [p.words] as a condition. *)
Definition has_words (p : TrademarkMatch) : bool :=
  match tm_words p with
  | Some s => negb (PyStr.is_empty s)
  | None => false
  end.

(** [p.words.lower() == q_lower] *)
Definition words_equal (q_lower : string) (p : TrademarkMatch) : bool :=
  match tm_words p with
  | Some s => String.eqb (PyStr.lower s) q_lower
  | None => false
  end.

(** The conditions of the two comprehensions, lines 408 and 420. *)
Definition is_exact (q_lower : string) (p : TrademarkMatch) : bool :=
  has_words p && words_equal q_lower p.

Definition is_similar (q_lower : string) (p : TrademarkMatch) : bool :=
  has_words p && negb (words_equal q_lower p).

(** The match each comprehension builds from [p]. *)
Definition copy_match (p : TrademarkMatch) : TrademarkMatch :=
  new_match (tm_id p) (tm_words p) (tm_status p)
            (Some (tm_classes p)) (Some (tm_class_labels p)).

(** [TrademarkMatch(id=id)] *)
Definition bare_match (id : json) : TrademarkMatch :=
  new_match id None None None None.

(** The items of [', '.join(ids)]: each must be a [str]. *)
Fixpoint str_items (i : nat) (ids : list json) : exn + list string :=
  match ids with
  | [] => inr []
  | JStr s :: r =>
      match str_items (S i) r with
      | inl e => inl e
      | inr l => inr (s :: l)
      end
  | v :: _ =>
      inl (TypeError ("sequence item " ++ PyStr.of_Z (Z.of_nat i)
                      ++ ": expected str instance, " ++ Py.type_name v
                      ++ " found"))
  end.

Definition join_ids (ids : list json) : exn + string :=
  match str_items 0 ids with
  | inl e => inl e
  | inr l => inr (PyStr.join ", " l)
  end.

(** Lines 398-452: the split into exact and similar matches and the
    result built from it. *)
Definition classify (q : string) (count : Z) (trademark_ids top_ids : list json)
    (parsed : list TrademarkMatch) : exn + CheckResult :=
  let q_lower := PyStr.lower q in
  let exact_matches := map copy_match (filter (is_exact q_lower) parsed) in
  let similar_matches := map copy_match (filter (is_similar q_lower) parsed) in
  let any_parsed :=
    (0 <? length exact_matches + length similar_matches)%nat in
  if negb any_parsed
  then
    match join_ids (firstn 5 trademark_ids) with
    | inl e => inl e
    | inr joined =>
        inr (new_result similar
               "Registered trademarks exist with this name or something similar."
               "Even if names aren't identical, similar marks in related categories can increase legal and branding risk."
               ("Found " ++ PyStr.of_Z count ++ " registered match(es). IDs: "
                ++ joined)
               None
               (Some (map bare_match (firstn 5 trademark_ids))))
    end
  else
    let is_taken := (0 <? length exact_matches)%nat in
    inr (new_result
           (if is_taken then taken else similar)
           (if is_taken
            then "An identical registered trademark exists in Australia."
            else "Similar registered trademarks exist in Australia.")
           (if is_taken
            then "Using the same name can create a high risk of trademark conflict, especially in related industries."
            else "Even if names aren't identical, similar marks in related categories can still cause legal and branding risk.")
           ("Found " ++ PyStr.of_Z count
            ++ " registered match(es). Showing the top "
            ++ PyStr.of_Z (Z.of_nat (length top_ids)) ++ ".")
           (Some exact_matches) (Some similar_matches)).

(** The body of the quick-search request. *)
Definition search_payload (q : string) : json :=
  JObj [("query", JStr q);
        ("sort", JObj [("field", JStr "NUMBER");
                       ("direction", JStr "ASCENDING")]);
        ("filters", JObj [("quickSearchType", JArr [JStr "WORD"]);
                          ("status", JArr [JStr "REGISTERED"])])].

Definition search_failed (response : Response) : CheckResult :=
  new_result unknown
    "We couldn't complete the trademark check right now."
    "Trademark results help you avoid choosing a name that could conflict with an existing brand."
    ("IP Australia error " ++ PyStr.of_Z (status_code response) ++ ": "
     ++ PyStr.prefix 250 (text response))
    None None.

Definition no_results : CheckResult :=
  new_result available
    "No registered word trademarks were found in Australia."
    "This lowers risk, but it's not a guarantee. Similar marks, pending applications, or other rights may still exist."
    "0 registered results returned by IP Australia quick search."
    None None.

Definition missing_base_url : CheckResult :=
  new_result unknown
    "We couldn't run the trademark check right now."
    "Trademark results help you avoid picking a name that could conflict with an existing brand."
    "Missing IPAU_TM_BASE_URL_TEST/PROD in environment"
    None None.

Definition request_failed (err : exn) : CheckResult :=
  new_result unknown
    "We couldn't run the trademark check right now."
    "Trademark results help you avoid choosing a name that could conflict with an existing brand."
    ("Request failed: " ++ exn_str err)
    None None.

(** What the quick search leaves to do. *)
Inductive SearchOutcome : Type :=
| Finished (result : CheckResult)
| Candidates (token : json) (count : Z) (trademark_ids : list json).

(** Lines 314-315: [trademarkIds] when it is a list, [[]] otherwise. *)
Definition id_list (v : json) : list json :=
  match v with
  | JArr l => l
  | _ => []
  end.

(** The request of the quick search, lines 272-297. *)
Definition search_request (rt : Runtime) (token : json) (base_url q : string)
  : Request :=
  let url := PyStr.rstrip_slash base_url ++ "/search/quick" in
  SearchPost url (bearer rt token) (search_payload q).

(** Lines 285-324: the token, the quick search and its parsing. *)
Definition quick_search (E : Env) (rt : Runtime) (base_url q : string)
  : M SearchOutcome :=
  token <- get_ipau_access_token E rt ;;
  response <- send E (search_request rt token base_url q) ;;
  if negb (is_success response)
  then ret (Finished (search_failed response))
  else
    data <- lift (decoded response) ;;
    count_raw <- lift (Py.get_default data "count" (JNum 0)) ;;
    count <- lift (Py.int rt count_raw) ;;
    ids_raw <- lift (Py.get_default data "trademarkIds" (JArr [])) ;;
    let trademark_ids := id_list ids_raw in
    if (count =? 0) || (length trademark_ids =? 0)%nat
    then ret (Finished no_results)
    else ret (Candidates token count trademark_ids).

(** Lines 327-396: the fan-out over the top ids and the parsed matches. *)
Definition fetch_and_parse (E : Env) (rt : Runtime) (token : json)
    (base_url : string) (top_ids : list json) : M (list TrademarkMatch) :=
  detail_results <-
    gather (fun id => fetch_trademark_details E rt id token base_url)
           top_ids ;;
  lift (parse_details rt detail_results).

(** The [try] block, lines 285-452. *)
Definition checked_steps (E : Env) (rt : Runtime) (q base_url : string)
  : M CheckResult :=
  outcome <- quick_search E rt base_url q ;;
  match outcome with
  | Finished result => ret result
  | Candidates token count trademark_ids =>
      let top_ids := firstn 5 trademark_ids in
      parsed <- fetch_and_parse E rt token base_url top_ids ;;
      lift (classify q count trademark_ids top_ids parsed)
  end.

(** Lines 256-261: the base URL of the selected environment. *)
Definition tm_base_url (E : Env) : option string :=
  let env := getenv_default E "IPAU_ENV" "test" in
  if String.eqb env "production"
  then getenv E "IPAU_TM_BASE_URL_PROD"
  else getenv E "IPAU_TM_BASE_URL_TEST".

(** [check_ip_australia_trademark], lines 252-461. *)
Definition check_ip_australia_trademark (E : Env) (rt : Runtime)
    (name : string) : M CheckResult :=
  let q := normalize_query name in
  let base_url := tm_base_url E in
  if unset base_url
  then ret missing_base_url
  else
    try_except (checked_steps E rt q (env_value base_url))
               (fun err => ret (request_failed err)).

(** ** Vocabulary of the properties *)

(** The key by which the class strings are ordered: the value of a
    string of decimal digits, 999 for a string that is not all digits. *)
Definition sort_key (x : string) : Z :=
  if PyStr.isdigit x then PyStr.digits_value 0 x else 999.

(** The strings on which the key function of [sorted] does not raise:
    those that [isdigit] accepts hold decimal digits only, and no more of
    them than [int] converts. *)
Definition key_defined (rt : Runtime) (x : string) : bool :=
  implb (PyStr.isdigit x)
        (PyStr.all_chars PyStr.is_decimal x
         && negb (PyStr.over_limit (int_max_str_digits rt) (String.length x))).

(** [ends_ok prev s]: [s], read after a character that was whitespace or
    not ([prev]), does not end in whitespace. *)
Fixpoint ends_ok (prev : bool) (s : string) : bool :=
  match s with
  | EmptyString => negb prev
  | String c r => ends_ok (PyStr.is_space c) r
  end.

(** [norm_from prev s]: in [s], read after a character that was
    whitespace or not, every whitespace character is one blank between
    two characters that are not whitespace. *)
Fixpoint norm_from (prev : bool) (s : string) : bool :=
  match s with
  | EmptyString => negb prev
  | String c r =>
      if PyStr.is_space c
      then negb prev && (PyStr.code c =? 32) && norm_from true r
      else norm_from false r
  end.

(** The strings that are their own normal form. *)
Definition normalized (s : string) : bool :=
  match s with
  | EmptyString => true
  | String _ _ => norm_from true s
  end.

(** What every match built from a detail result satisfies. *)
Definition well_parsed (d : DetailResult) (p : TrademarkMatch) : Prop :=
  tm_id p = detail_id d
  /\ tm_words p <> None
  /\ tm_class_labels p = map label_nice_class (tm_classes p).

(** The ids the registry documents: strings. *)
Definition is_str (v : json) : bool :=
  match v with JStr _ => true | _ => false end.

(** A match whose labels run parallel to its classes. *)
Definition labelled (m : TrademarkMatch) : Prop :=
  length (tm_class_labels m) = length (tm_classes m)
  /\ tm_class_labels m = map label_nice_class (tm_classes m).

(** The network answers each of [reqs], sent from position [n] on, with
    a response. *)
Fixpoint answered (E : Env) (n : nat) (reqs : list Request) : bool :=
  match reqs with
  | [] => true
  | req :: rest =>
      match network E n req with
      | inr _ => answered E (S n) rest
      | inl _ => false
      end
  end.

(** The value a detail fetch returns for a response. *)
Definition detail_of_response (id : json) (response : Response)
  : DetailResult :=
  if is_success response
  then match decoded response with
       | inr data => DetailData id data
       | inl _ =>
           DetailError id ("Detail fetch returned non-JSON: "
                           ++ PyStr.prefix 120 (text response))
       end
  else DetailError id ("Detail fetch failed "
                       ++ PyStr.of_Z (status_code response) ++ ": "
                       ++ PyStr.prefix 120 (text response)).


(** ** Sample environments, used to run the model on concrete inputs *)

(** A runtime for the examples: [repr] of a string that holds no quote,
    backslash or control character; no list or dict is printed in them;
    sets are iterated by length, then insertion; the limit of [int] is
    the default one. *)
Definition sample_runtime : Runtime :=
  {| repr_container := fun _ => "[...]";
     repr_str := fun s => "'" ++ s ++ "'";
     set_slot := String.length;
     int_max_str_digits := 4300 |}.

(** ['1' * 4301]: one digit more than [int] converts by default. *)
Definition over_long_number : string :=
  string_of_list_ascii (repeat "1"%char 4301).

Definition ok_response (body : json) : Response :=
  {| status_code := 200; text := "{...}"; decoded := inr body |}.

(** The test environment fully configured. *)
Definition sample_getenv (k : string) : option string :=
  if String.eqb k "IPAU_TM_BASE_URL_TEST" then Some "https://tm.example/api/"
  else if String.eqb k "IPAU_TOKEN_URL_TEST" then Some "https://auth.example/token"
  else if String.eqb k "IPAU_CLIENT_ID" then Some "client"
  else if String.eqb k "IPAU_CLIENT_SECRET" then Some "secret"
  else None.

(** A registry that grants tokens, answers every quick search with
    [search] and the detail request for [url] with [detail url]. *)
Definition registry (search : exn + Response)
    (detail : string -> exn + Response) (n : nat) (req : Request)
  : exn + Response :=
  match req with
  | TokenPost _ _ _ =>
      inr (ok_response (JObj [("access_token", JStr "T1");
                              ("expires_in", JNum 3600)]))
  | SearchPost _ _ _ => search
  | DetailGet url _ => detail url
  end.

Definition env_with (net : nat -> Request -> exn + Response) : Env :=
  {| getenv := sample_getenv;
     network := net;
     clock_ms := fun n => 1000 + Z.of_nat n |}.

Definition two_found : exn + Response :=
  inr (ok_response (JObj [("count", JNum 2);
                          ("trademarkIds", JArr [JStr "101"; JStr "102"])])).

Definition detail_101 : json :=
  JObj [("words", JStr "ACME Brew");
        ("statusGroup", JStr "REGISTERED");
        ("goodsAndServices",
         JArr [JObj [("class", JStr "35")]; JObj [("class", JStr "9")]])].

(** The words of mark 102 hold two blanks in a row. *)
Definition detail_102 : json :=
  JObj [("words", JStr "Acme  Brew"); ("status", JStr "REGISTERED")].

Definition sample_details (url : string) : exn + Response :=
  if String.eqb url "https://tm.example/api/trade-mark/101"
  then inr (ok_response detail_101)
  else inr (ok_response detail_102).

(** Two marks are found and the details of both are known. *)
Definition sample_env : Env := env_with (registry two_found sample_details).

(** The connection breaks while the details of mark 102 are fetched. *)
Definition flaky_details (url : string) : exn + Response :=
  if String.eqb url "https://tm.example/api/trade-mark/101"
  then inr (ok_response detail_101)
  else inl (TransportError "connection reset").

Definition flaky_env : Env := env_with (registry two_found flaky_details).

(** The registry answers the request for the details of mark 102 with
    an HTTP error. *)
Definition unavailable_details (url : string) : exn + Response :=
  if String.eqb url "https://tm.example/api/trade-mark/101"
  then inr (ok_response detail_101)
  else inr {| status_code := 503; text := "Service Unavailable";
              decoded := inl (DecodeError "Expecting value") |}.

Definition partial_env : Env :=
  env_with (registry two_found unavailable_details).

(** The registry finds two marks and knows the details of none. *)
Definition not_found (url : string) : exn + Response :=
  inr {| status_code := 404; text := "Not Found";
         decoded := inl (DecodeError "Expecting value") |}.

Definition wordless_env : Env := env_with (registry two_found not_found).



(** No setting is present. *)
Definition no_base_url_env : Env :=
  {| getenv := fun _ => None;
     network := registry two_found sample_details;
     clock_ms := fun _ => 0 |}.

(** The state of a process that has just been started. *)
Definition fresh_world : World := {| cached_token := None; sent := [] |}.

(** A state in which a token that is still valid is cached. *)
Definition primed_world : World :=
  {| cached_token := Some {| token := JStr "T0"; expiresAt := 3541000 |};
     sent := [] |}.

Definition sample_base : string := "https://tm.example/api/".

(** The state after the quick search for [name], then after the two
    detail fetches, starting from [primed_world]. *)
Definition searched (name : string) : World :=
  log primed_world
      (search_request sample_runtime (JStr "T0") sample_base
                      (normalize_query name)).

Definition fetched (name : string) : World :=
  log (log (searched name)
           (detail_request sample_runtime (JStr "101") (JStr "T0") sample_base))
      (detail_request sample_runtime (JStr "102") (JStr "T0") sample_base).

(** The matches parsed from the details of the two marks. *)
Definition match_101 : TrademarkMatch :=
  new_match (JStr "101") (Some "ACME Brew") (Some "REGISTERED")
    (Some ["9"; "35"])
    (Some ["9 (Scientific & electronic apparatus, software)";
           "35 (Advertising, business & retail services)"]).

Definition match_102 : TrademarkMatch :=
  new_match (JStr "102") (Some "Acme  Brew") (Some "REGISTERED")
    (Some []) (Some []).

(** The match built for a detail fetch that returned an error. *)
Definition undescribed (id : json) : TrademarkMatch :=
  new_match id (Some EmptyString) (Some EmptyString) (Some []) (Some []).

(** ** Serialization: the [to_dict] methods *)

(** The value of the [AvailabilityStatus] literal. *)
Definition status_name (s : AvailabilityStatus) : string :=
  match s with
  | available => "available"
  | taken => "taken"
  | unknown => "unknown"
  | similar => "similar"
  end.

(** An [Optional[str]] attribute as a JSON value. *)
Definition optional_str (o : option string) : json :=
  match o with
  | Some s => JStr s
  | None => JNull
  end.

(** [TrademarkMatch.to_dict], lines 30-37. *)
Definition match_to_dict (m : TrademarkMatch) : json :=
  JObj [("id", tm_id m);
        ("words", optional_str (tm_words m));
        ("status", optional_str (tm_status m));
        ("classes", JArr (map JStr (tm_classes m)));
        ("classLabels", JArr (map JStr (tm_class_labels m)))].

(** [CheckResult.to_dict], lines 59-68. *)
Definition result_to_dict (r : CheckResult) : json :=
  JObj [("label", JStr (cr_label r));
        ("status", JStr (status_name (cr_status r)));
        ("summary", optional_str (cr_summary r));
        ("whyThisMatters", optional_str (cr_why_this_matters r));
        ("details", optional_str (cr_details r));
        ("exactMatches", JArr (map match_to_dict (cr_exact_matches r)));
        ("similarMatches", JArr (map match_to_dict (cr_similar_matches r)))].

Record AggregatedResults : Type := {
  business_name : CheckResult;
  trademark : CheckResult;
  domains : list CheckResult;
  socials : list CheckResult
}.

(** [AggregatedResults.to_dict], lines 84-90. *)
Definition aggregated_to_dict (a : AggregatedResults) : json :=
  JObj [("businessName", result_to_dict (business_name a));
        ("trademark", result_to_dict (trademark a));
        ("domains", JArr (map result_to_dict (domains a)));
        ("socials", JArr (map result_to_dict (socials a)))].

(** ** The aggregator: [get_demo_results] *)

Module PyStr2.

(** [s.startswith(p)] *)
Fixpoint starts_with (p s : string) : bool :=
  match p, s with
  | EmptyString, _ => true
  | String _ _, EmptyString => false
  | String a p', String b s' => Ascii.eqb a b && starts_with p' s'
  end.

(** [needle in s] *)
Fixpoint contains (needle s : string) : bool :=
  starts_with needle s
  || match s with
     | EmptyString => false
     | String _ r => contains needle r
     end.

(** [s.replace(" ", "")]: every blank is dropped. *)
Fixpoint remove_blanks (s : string) : string :=
  match s with
  | EmptyString => EmptyString
  | String c r =>
      if PyStr.code c =? 32 then remove_blanks r
      else String c (remove_blanks r)
  end.

End PyStr2.

(** [CheckResult(label=..., status=..., details=...)]: the other
    attributes take their defaults. *)
Definition demo_result (label : string) (status : AvailabilityStatus)
    (details : string) : CheckResult :=
  {| cr_label := label;
     cr_status := status;
     cr_summary := None;
     cr_why_this_matters := None;
     cr_details := Some details;
     cr_exact_matches := [];
     cr_similar_matches := [] |}.

(** Lines 466-471: what the demo checks read of the name. *)
Definition demo_normalized (name : string) : string :=
  PyStr.strip (PyStr.lower name).

Definition demo_compact (name : string) : string :=
  PyStr2.remove_blanks (demo_normalized name).

Definition is_probably_taken (name : string) : bool :=
  PyStr2.contains "koala" (demo_normalized name)
  || PyStr2.contains "australia" (demo_normalized name).

Definition has_similar (name : string) : bool :=
  PyStr2.contains "brew" (demo_normalized name)
  || PyStr2.contains "coffee" (demo_normalized name).

(** [get_demo_results], lines 464-515. *)
Definition get_demo_results (E : Env) (rt : Runtime) (name : string)
  : M AggregatedResults :=
  let compact := demo_compact name in
  let is_probably_taken := is_probably_taken name in
  let has_similar := has_similar name in
  trademark <- check_ip_australia_trademark E rt name ;;
  ret {| business_name :=
           demo_result "ASIC business name (AU)"
             (if is_probably_taken then taken else available)
             (if is_probably_taken
              then "A similar or identical business name appears to exist (demo)."
              else "No exact match found (demo).");
         trademark := trademark;
         domains :=
           [demo_result (compact ++ ".com")
              (if is_probably_taken then taken else available)
              (if is_probably_taken
               then "Likely registered already (demo)."
               else "Appears free (demo).");
            demo_result (compact ++ ".com.au")
              (if has_similar then similar else available)
              (if has_similar
               then "Similar domains may exist (demo)."
               else "Appears free (demo).")];
         socials :=
           [demo_result ("@" ++ compact ++ " (Instagram)")
              (if is_probably_taken then taken else available)
              (if is_probably_taken
               then "Handle looks popular (demo)."
               else "Appears free (demo).");
            demo_result ("@" ++ compact ++ " (TikTok)")
              available
              "Appears free (demo)."] |}.

(** ** The endpoint: [check_brand] ([backend/main.py]) *)

(** What the web framework contributes and the model leaves open:
    the [AggregatedResults] model built from the keys of
    [results_dict], that is the validation of the dict by the response
    models of [main.py], which gives the validated results or raises. *)
Record Framework : Type := {
  validate_results : json -> exn + json
}.

(** How a request ends: with the [CheckResponse] the handler returns, or
    with the [HTTPException] it raises. *)
Inductive HttpOutcome : Type :=
| Responded (body : json)
| HttpError (code : Z) (detail : string).

(** [CheckResponse(success=True, results=...)]; [error] keeps its
    default. *)
Definition success_response (results : json) : json :=
  JObj [("success", JBool true); ("results", results); ("error", JNull)].

(** The part of the [try] block after the name is known to be there,
    lines 86-94. *)
Definition run_check (E : Env) (rt : Runtime) (fw : Framework)
    (name : string) : M json :=
  results <- get_demo_results E rt name ;;
  let results_dict := aggregated_to_dict results in
  validated <- lift (validate_results fw results_dict) ;;
  ret (success_response validated).

(** [check_brand], lines 73-101.  The result holds the state, the lines
    printed and the outcome. *)
Definition check_brand (E : Env) (rt : Runtime) (fw : Framework)
    (request_name : string) (w : World)
  : World * (list string * HttpOutcome) :=
  let name := PyStr.strip request_name in
  if PyStr.is_empty name
  then (w, ([], HttpError 400 "No name provided."))
  else
    match run_check E rt fw name w with
    | (w', inr body) => (w', ([], Responded body))
    | (w', inl e) =>
        (w', (["Error in /api/check: " ++ exn_str e],
              HttpError 500 "Internal server error"))
    end.

(** ** Vocabulary of the further properties *)

(** Lines 108-112: the token URL of the selected environment. *)
Definition token_url_setting (E : Env) : option string :=
  if String.eqb (getenv_default E "IPAU_ENV" "test") "production"
  then getenv E "IPAU_TOKEN_URL_PROD"
  else getenv E "IPAU_TOKEN_URL_TEST".

(** The three settings of the token request are there. *)
Definition settings_present (E : Env) : bool :=
  negb (unset (token_url_setting E))
  && negb (unset (getenv E "IPAU_CLIENT_ID"))
  && negb (unset (getenv E "IPAU_CLIENT_SECRET")).

(** The cache holds a token that has not expired at the time of [w]. *)
Definition valid_cache (E : Env) (w : World) : bool :=
  match cached_token w with
  | Some c => clock_ms E (length (sent w)) <? expiresAt c
  | None => false
  end.

Definition is_token_post (req : Request) : bool :=
  match req with
  | TokenPost _ _ _ => true
  | _ => false
  end.

(** The conventions between the status of a result and its matches. *)
Definition consistent (r : CheckResult) : Prop :=
  cr_label r = LABEL
  /\ cr_summary r <> None
  /\ cr_why_this_matters r <> None
  /\ cr_details r <> None
  /\ (cr_status r = taken <-> cr_exact_matches r <> [])
  /\ (cr_status r = similar -> cr_similar_matches r <> [])
  /\ (cr_status r = available \/ cr_status r = unknown ->
      cr_exact_matches r = [] /\ cr_similar_matches r = [])
  /\ (length (cr_exact_matches r) + length (cr_similar_matches r) <= 5)%nat.

(** A token cached in [primed_world] whose time is over. *)
Definition stale_world : World :=
  {| cached_token := Some {| token := JStr "T0"; expiresAt := 1000 |};
     sent := [] |}.

(** The registry refuses the quick search. *)
Definition refused : exn + Response :=
  inr {| status_code := 503; text := "Service Unavailable";
         decoded := inl (DecodeError "Expecting value") |}.

Definition refusing_env : Env := env_with (registry refused sample_details).

(** The connection breaks during the quick search. *)
Definition offline_env : Env :=
  env_with (registry (inl (TransportError "connection refused"))
                     sample_details).

(** The client secret is missing. *)
Definition no_secret_env : Env :=
  {| getenv := fun k => if String.eqb k "IPAU_CLIENT_SECRET" then None
                        else sample_getenv k;
     network := registry two_found sample_details;
     clock_ms := fun n => 1000 + Z.of_nat n |}.

(** An aggregate to run the serialization on. *)
Definition sample_aggregate : AggregatedResults :=
  {| business_name := demo_result "ASIC business name (AU)" available
                        "No exact match found (demo).";
     trademark := no_results;
     domains := [demo_result "acme.com" available "Appears free (demo)."];
     socials := [] |}.

(** A framework whose validation accepts every dict as it is, and one
    whose validation refuses every dict. *)
Definition lenient_framework : Framework :=
  {| validate_results := fun d => inr d |}.

Definition strict_framework : Framework :=
  {| validate_results := fun _ => inl (ValueError "validation error") |}.

(** A runtime that iterates sets in another order than
    [sample_runtime]. *)
Definition other_runtime : Runtime :=
  {| repr_container := fun _ => "{...}";
     repr_str := fun s => "'" ++ s ++ "'";
     set_slot := fun s => (100 - String.length s)%nat;
     int_max_str_digits := 4300 |}.

(** The classes of a match are without duplicates and in ascending
    order of their sort key. *)
Definition ordered_classes (m : TrademarkMatch) : Prop :=
  NoDup (tm_classes m)
  /\ StronglySorted (fun a b => sort_key a <= sort_key b) (tm_classes m).

(** The registry answers with numbers for ids, and knows no details. *)
Definition numeric_ids : exn + Response :=
  inr (ok_response (JObj [("count", JNum 2);
                          ("trademarkIds", JArr [JNum 101; JNum 102])])).

Definition numeric_env : Env := env_with (registry numeric_ids not_found).

(** * Properties *)

(** ** The monad *)

Lemma bind_inr {A B} (c : M A) (k : A -> M B) w w' a :
  c w = (w', inr a) -> bind c k w = k a w'.
Proof. intros H. unfold bind. now rewrite H. Qed.

Lemma bind_inl {A B} (c : M A) (k : A -> M B) w w' e :
  c w = (w', inl e) -> bind c k w = (w', inl e).
Proof. intros H. unfold bind. now rewrite H. Qed.

Lemma lift_run {A} (r : exn + A) w : lift r w = (w, r).
Proof. reflexivity. Qed.

(** ** The token cache *)

(** No run of [request_new_token] changes the module global: its
    assignment is to a local. *)
Lemma request_new_token_keeps_cache E rt globals w :
  cached_token (fst (request_new_token E rt globals w)) = cached_token w.
Proof.
  unfold request_new_token, load_global, bind, send, lift, now_ms, raise, ret.
  destruct (globals "token_url"); [|reflexivity].
  destruct (globals "client_id"); [|reflexivity].
  destruct (globals "client_secret"); [|reflexivity].
  cbn.
  destruct (network E _ _) as [e|response]; [reflexivity|].
  destruct (negb (is_success response)); [reflexivity|].
  destruct (decoded response) as [e|data]; [reflexivity|].
  destruct (Py.get data "access_token") as [e|tok]; [reflexivity|].
  destruct (Py.get_default data "expires_in" (JNum 3600)) as [e|raw];
    [reflexivity|].
  destruct (Py.int rt raw) as [e|n]; [reflexivity|].
  destruct (negb (Py.truthy tok)); reflexivity.
Qed.

(** In the module as it is, the refresh stops at the first free name. *)
Lemma request_new_token_raises E rt w :
  request_new_token E rt module_globals w
  = (w, inl (NameError "name 'token_url' is not defined")).
Proof. reflexivity. Qed.

(** The cached-read path: a token that has not expired is returned
    without any request. *)
Lemma cached_token_reused E rt w c :
  unset (if String.eqb (getenv_default E "IPAU_ENV" "test") "production"
         then getenv E "IPAU_TOKEN_URL_PROD"
         else getenv E "IPAU_TOKEN_URL_TEST") = false ->
  unset (getenv E "IPAU_CLIENT_ID") = false ->
  unset (getenv E "IPAU_CLIENT_SECRET") = false ->
  cached_token w = Some c ->
  clock_ms E (length (sent w)) < expiresAt c ->
  get_ipau_access_token E rt w = (w, inr (token c)).
Proof.
  intros H1 H2 H3 Hc Hlt. unfold get_ipau_access_token.
  cbv zeta. rewrite H1, H2, H3.
  unfold bind, read_cache, now_ms, ret. rewrite Hc.
  apply Z.ltb_lt in Hlt. now rewrite Hlt.
Qed.

(** Token acquisition never sends a request and never writes the cache:
    either it answers from the cache or it raises. *)
Lemma get_ipau_access_token_inert E rt w :
  fst (get_ipau_access_token E rt w) = w.
Proof.
  unfold get_ipau_access_token. cbv zeta.
  repeat match goal with |- context [if ?b then _ else _] =>
    destruct b; [reflexivity|] end.
  unfold bind, read_cache, now_ms, ret.
  destruct (cached_token w) as [c|]; [|reflexivity].
  destruct (_ <? _); reflexivity.
Qed.

Lemma get_ipau_access_token_result E rt w tok :
  snd (get_ipau_access_token E rt w) = inr tok ->
  exists c, cached_token w = Some c /\ token c = tok
            /\ clock_ms E (length (sent w)) < expiresAt c.
Proof.
  unfold get_ipau_access_token. cbv zeta.
  repeat match goal with |- context [if ?b then _ else _] =>
    destruct b; [discriminate|] end.
  unfold bind, read_cache, now_ms, ret.
  destruct (cached_token w) as [c|]; [|discriminate].
  destruct (_ <? _) eqn:Hlt; [|discriminate].
  cbn. intros [= <-]. exists c. repeat split. now apply Z.ltb_lt.
Qed.

(** C1 (code defect): with every setting present, an empty cache and a
    registry that would grant the token [T1] for 3600 seconds, the call
    raises [NameError] before any request is sent, and the cache stays
    empty. *)
Theorem token_refresh_fails_on_fresh_process :
  get_ipau_access_token sample_env sample_runtime fresh_world
  = (fresh_world, inl (NameError "name 'token_url' is not defined")).
Proof. reflexivity. Qed.

(** ** The external contract of the checker *)

(** C7: when the base URL of the selected environment is unset, the
    checker returns a result with status [unknown] whose details name the
    missing setting; the state is unchanged, so that no request (token,
    search or detail) was sent. *)
Theorem missing_base_url_is_unknown E rt name w :
  unset (tm_base_url E) = true ->
  check_ip_australia_trademark E rt name w = (w, inr missing_base_url)
  /\ cr_status missing_base_url = unknown
  /\ cr_details missing_base_url
     = Some "Missing IPAU_TM_BASE_URL_TEST/PROD in environment".
Proof.
  intros H. unfold check_ip_australia_trademark. cbv zeta. rewrite H.
  repeat split.
Qed.

Lemma missing_base_url_is_unknown_witness :
  unset (tm_base_url no_base_url_env) = true
  /\ check_ip_australia_trademark no_base_url_env sample_runtime "Acme"
       fresh_world = (fresh_world, inr missing_base_url).
Proof.
  split; [reflexivity|].
  apply (missing_base_url_is_unknown no_base_url_env sample_runtime "Acme"
           fresh_world).
  reflexivity.
Defined.

(** C2: for every name, environment, network behaviour and state, the
    checker returns a result; and whenever the guarded steps raise an
    exception [e], that result has status [unknown] and its details are
    the text [Request failed: ] followed by [str(e)]. *)
Theorem check_never_raises E rt name w :
  exists r,
    snd (check_ip_australia_trademark E rt name w) = inr r
    /\ forall e,
         unset (tm_base_url E) = false ->
         snd (checked_steps E rt (normalize_query name)
                (env_value (tm_base_url E)) w) = inl e ->
         r = request_failed e
         /\ cr_status r = unknown
         /\ cr_details r = Some ("Request failed: " ++ exn_str e).
Proof.
  unfold check_ip_australia_trademark. cbv zeta.
  destruct (unset (tm_base_url E)) eqn:Hu.
  - exists missing_base_url. split; [reflexivity|]. intros e Hf. discriminate.
  - unfold try_except.
    destruct (checked_steps E rt _ _ w) as [w' [e|r]] eqn:Hs.
    + exists (request_failed e). split; [reflexivity|].
      intros e' _ He. cbn in He. injection He as <-. repeat split.
    + exists r. split; [reflexivity|]. intros e _ He. discriminate.
Qed.

(** ** Characters *)

Ltac char_arith :=
  unfold PyStr.is_space, PyStr.is_decimal, PyStr.is_digit in *; cbv zeta in *;
  repeat match goal with
         | H : _ && _ = true |- _ => apply andb_true_iff in H; destruct H
         | H : _ || _ = true |- _ => apply orb_true_iff in H; destruct H
         | H : _ || _ = false |- _ => apply orb_false_iff in H; destruct H
         | H : (_ <=? _) = true |- _ => apply Z.leb_le in H
         | H : (_ <=? _) = false |- _ => apply Z.leb_gt in H
         | H : (_ =? _) = true |- _ => apply Z.eqb_eq in H
         | H : (_ =? _) = false |- _ => apply Z.eqb_neq in H
         end.

Lemma decimal_not_int_space c :
  PyStr.is_decimal c = true -> PyStr.is_int_space c = false.
Proof.
  intros H. destruct (PyStr.is_int_space c) eqn:Hs; [|reflexivity].
  unfold PyStr.is_int_space in Hs. char_arith; lia.
Qed.

Lemma lstrip_with_id p s :
  PyStr.all_chars (fun c => negb (p c)) s = true -> PyStr.lstrip_with p s = s.
Proof.
  destruct s as [|c r]; [reflexivity|]. cbn.
  intros H. apply andb_true_iff in H. destruct H as [H _].
  destruct (p c); [discriminate|reflexivity].
Qed.

Lemma rstrip_with_id p s :
  PyStr.all_chars (fun c => negb (p c)) s = true -> PyStr.rstrip_with p s = s.
Proof.
  induction s as [|c r IH]; [reflexivity|]. cbn.
  intros H. apply andb_true_iff in H. destruct H as [Hc Hr].
  rewrite (IH Hr). destruct (p c); [discriminate|reflexivity].
Qed.

Lemma all_chars_impl (p q : ascii -> bool) s :
  (forall c, p c = true -> q c = true) ->
  PyStr.all_chars p s = true -> PyStr.all_chars q s = true.
Proof.
  intros Hpq. induction s as [|c r IH]; [reflexivity|]. cbn.
  intros H. apply andb_true_iff in H. destruct H as [Hc Hr].
  now rewrite (Hpq _ Hc), (IH Hr).
Qed.


Lemma scan_digits_decimal s :
  PyStr.all_chars PyStr.is_decimal s = true ->
  PyStr.scan_digits false s = Some (s, EmptyString).
Proof.
  induction s as [|c r IH]; [reflexivity|]. cbn.
  intros H. apply andb_true_iff in H. destruct H as [Hc Hr].
  now rewrite Hc, (IH Hr).
Qed.

(** What [int] does with a non-empty string of decimal digits: the
    digits are counted against the limit, and read when within it. *)
Lemma parse_int_digits limit s :
  PyStr.is_empty s = false ->
  PyStr.all_chars PyStr.is_decimal s = true ->
  PyStr.parse_int limit s
  = if PyStr.over_limit limit (String.length s)
    then inl (PyStr.ExceedsLimit (String.length s))
    else inr (PyStr.digits_value 0 s).
Proof.
  intros Hne Hd. unfold PyStr.parse_int.
  assert (Hn : PyStr.all_chars (fun c => negb (PyStr.is_int_space c)) s = true).
  { revert Hd. apply all_chars_impl. intros c Hc.
    now rewrite (decimal_not_int_space c Hc). }
  rewrite (lstrip_with_id _ _ Hn).
  destruct s as [|c r]; [discriminate|].
  pose proof Hd as Hcr. cbn in Hcr. apply andb_true_iff in Hcr.
  destruct Hcr as [Hc _].
  assert (H45 : (PyStr.code c =? 45) = false)
    by (apply Z.eqb_neq; char_arith; lia).
  assert (H43 : (PyStr.code c =? 43) = false)
    by (apply Z.eqb_neq; char_arith; lia).
  assert (H95 : (PyStr.code c =? 95) = false)
    by (apply Z.eqb_neq; char_arith; lia).
  rewrite H45, H43, H95, (scan_digits_decimal _ Hd).
  destruct (PyStr.over_limit limit (String.length (String c r)));
    reflexivity.
Qed.

(** [int] reads a non-empty string of decimal digits, no longer than the
    limit, as its value. *)
Lemma parse_int_decimal limit s :
  PyStr.is_empty s = false ->
  PyStr.all_chars PyStr.is_decimal s = true ->
  PyStr.over_limit limit (String.length s) = false ->
  PyStr.parse_int limit s = inr (PyStr.digits_value 0 s).
Proof.
  intros Hne Hd Hl. now rewrite (parse_int_digits limit s Hne Hd), Hl.
Qed.

(** ** Sorting *)

Lemma class_key_defined rt x :
  key_defined rt x = true -> Py.class_key rt x = inr (sort_key x).
Proof.
  unfold key_defined, Py.class_key, sort_key.
  destruct (PyStr.isdigit x) eqn:Hd; [|reflexivity].
  cbn [implb]. intros Hdec. apply andb_true_iff in Hdec.
  destruct Hdec as [Hdec Hl]. apply negb_true_iff in Hl.
  unfold PyStr.isdigit in Hd.
  apply andb_true_iff in Hd. destruct Hd as [Hne _].
  apply negb_true_iff in Hne. cbn [Py.int].
  now rewrite (parse_int_decimal _ x Hne Hdec Hl).
Qed.

Section StableSortFacts.
Context {A : Type} (key : A -> Z).

Lemma insert_by_perm x l : Permutation (insert_by key x l) (x :: l).
Proof.
  induction l as [|y r IH]; [reflexivity|]. cbn.
  destruct (key x <=? key y); [reflexivity|].
  rewrite IH. apply perm_swap.
Qed.

Lemma stable_sort_perm l : Permutation (stable_sort key l) l.
Proof.
  induction l as [|x r IH]; [reflexivity|]. cbn.
  rewrite insert_by_perm. now constructor.
Qed.

Lemma insert_by_sorted x l :
  StronglySorted (fun a b => key a <= key b) l -> StronglySorted (fun a b => key a <= key b) (insert_by key x l).
Proof.
  induction 1 as [|y r Hs IH Hall]; cbn.
  - repeat constructor.
  - destruct (key x <=? key y) eqn:Hxy.
    + apply Z.leb_le in Hxy. constructor.
      * now constructor.
      * constructor; [exact Hxy|].
        revert Hall. apply Forall_impl. intros a Ha. lia.
    + apply Z.leb_gt in Hxy. constructor; [exact IH|].
      apply (Permutation_Forall (Permutation_sym (insert_by_perm x r))).
      constructor; [lia|exact Hall].
Qed.

Lemma stable_sort_sorted l : StronglySorted (fun a b => key a <= key b) (stable_sort key l).
Proof.
  induction l as [|x r IH]; cbn; [constructor|].
  now apply insert_by_sorted.
Qed.


End StableSortFacts.

Lemma insert_by_decorated (f : string -> Z) x l :
  insert_by fst (f x, x) (map (fun y => (f y, y)) l)
  = map (fun y => (f y, y)) (insert_by f x l).
Proof.
  induction l as [|y r IH]; [reflexivity|]. cbn.
  destruct (f x <=? f y); [reflexivity|]. cbn. now rewrite IH.
Qed.

Lemma stable_sort_decorated (f : string -> Z) l :
  map snd (stable_sort fst (map (fun y => (f y, y)) l)) = stable_sort f l.
Proof.
  assert (H : stable_sort fst (map (fun y => (f y, y)) l)
              = map (fun y => (f y, y)) (stable_sort f l)).
  { induction l as [|x r IH]; [reflexivity|]. cbn.
    now rewrite IH, insert_by_decorated. }
  rewrite H, map_map. cbn. apply map_id.
Qed.

Lemma decorate_defined rt l :
  forallb (key_defined rt) l = true ->
  decorate rt l = inr (map (fun x => (sort_key x, x)) l).
Proof.
  induction l as [|x r IH]; [reflexivity|]. cbn.
  intros H. apply andb_true_iff in H. destruct H as [Hx Hr].
  now rewrite (class_key_defined rt x Hx), (IH Hr).
Qed.

Lemma set_iter_perm rt l : Permutation (set_iter rt l) (nodup string_dec l).
Proof. apply stable_sort_perm. Qed.

Lemma set_iter_In rt l x : In x (set_iter rt l) <-> In x l.
Proof.
  rewrite <- (nodup_In string_dec l x). split; apply Permutation_in.
  - apply set_iter_perm.
  - apply Permutation_sym, set_iter_perm.
Qed.

Lemma set_iter_NoDup rt l : NoDup (set_iter rt l).
Proof.
  apply (Permutation_NoDup (Permutation_sym (set_iter_perm rt l))).
  apply NoDup_nodup.
Qed.

Lemma forallb_set_iter rt p l :
  forallb p l = true -> forallb p (set_iter rt l) = true.
Proof.
  rewrite !forallb_forall. intros H x Hx. apply H.
  now apply (set_iter_In rt).
Qed.

(** Where no key raises, [sorted] is the stable sort by [sort_key] of the
    set's elements. *)
Lemma sorted_classes_defined rt l :
  forallb (key_defined rt) l = true ->
  sorted_classes rt l = inr (stable_sort sort_key (set_iter rt l)).
Proof.
  intros H. unfold sorted_classes.
  rewrite (decorate_defined rt _ (forallb_set_iter rt _ _ H)).
  now rewrite stable_sort_decorated.
Qed.



(** ** The record normalizer *)





(** A numeric value of 1000 or more is placed after the values that are
    not numeric, whatever the order in which the set is iterated. *)
Lemma sorted_classes_large_number rt :
  sorted_classes rt ["1000"; "abc"] = inr ["abc"; "1000"].
Proof.
  rewrite sorted_classes_defined by reflexivity.
  unfold set_iter.
  change (nodup string_dec ["1000"; "abc"]) with ["1000"; "abc"].
  cbn [stable_sort insert_by].
  destruct (_ <=? _); reflexivity.
Qed.


(** A value that [isdigit] accepts and [int] rejects makes the function
    raise: here the superscript two, U+00B2. *)
Lemma extract_nice_classes_superscript_raises :
  extract_nice_classes sample_runtime
    [("classes", JArr [JStr (String (ascii_of_nat 178) EmptyString)])]
  = inl (ValueError ("invalid literal for int() with base 10: '"
                     ++ String (ascii_of_nat 178) EmptyString ++ "'")).
Proof. reflexivity. Qed.

(** A string of 4301 digits 0-9 is longer than [int] converts by
    default: the function raises on a record that holds one. *)
Lemma extract_nice_classes_over_limit_raises :
  extract_nice_classes sample_runtime
    [("classes", JArr [JStr over_long_number; JStr "2"])]
  = inl (ValueError
           ("Exceeds the limit (4300 digits) for integer string conversion: "
            ++ "value has 4301 digits; "
            ++ "use sys.set_int_max_str_digits() to increase the limit")).
Proof. vm_compute. reflexivity. Qed.



(** ** Query normalization *)

Lemma ends_ok_weaken s : ends_ok true s = true -> ends_ok false s = true.
Proof. destruct s; [discriminate|trivial]. Qed.

Lemma ends_ok_any b s : ends_ok b s = true -> ends_ok false s = true.
Proof. destruct b; [apply ends_ok_weaken|trivial]. Qed.

Lemma ends_ok_rstrip s b :
  ends_ok b (PyStr.rstrip_with PyStr.is_space s)
  = negb b || negb (PyStr.is_empty (PyStr.rstrip_with PyStr.is_space s)).
Proof.
  revert b. induction s as [|c r IH]; intros b.
  - cbn. now rewrite orb_false_r.
  - cbn [PyStr.rstrip_with]. cbv zeta.
    destruct (PyStr.is_space c && PyStr.is_empty _) eqn:Hce.
    + cbn. now rewrite orb_false_r.
    + cbn [ends_ok PyStr.is_empty]. rewrite IH, orb_true_r.
      apply andb_false_iff in Hce.
      destruct Hce as [-> | ->]; cbn; now rewrite ?orb_true_r.
Qed.

Lemma ends_ok_lstrip s :
  ends_ok false s = true ->
  ends_ok false (PyStr.lstrip_with PyStr.is_space s) = true.
Proof.
  induction s as [|c r IH]; [trivial|]. cbn.
  destruct (PyStr.is_space c) eqn:Hc; intros H.
  - apply IH. now apply ends_ok_weaken.
  - cbn. now rewrite Hc.
Qed.

Lemma ends_ok_strip s : ends_ok false (PyStr.strip s) = true.
Proof.
  unfold PyStr.strip, PyStr.strip_with.
  apply ends_ok_lstrip. now rewrite ends_ok_rstrip.
Qed.

Lemma lstrip_head s :
  match PyStr.lstrip_with PyStr.is_space s with
  | EmptyString => True
  | String c _ => PyStr.is_space c = false
  end.
Proof.
  induction s as [|c r IH]; [exact I|]. cbn.
  destruct (PyStr.is_space c) eqn:Hc; [exact IH|exact Hc].
Qed.

Lemma sub_ws_norm s prev :
  ends_ok prev s = true -> norm_from prev (PyStr.sub_ws prev s) = true.
Proof.
  revert prev. induction s as [|c r IH]; intros prev; [trivial|]. cbn.
  destruct (PyStr.is_space c) eqn:Hc; intros H.
  - destruct prev.
    + now apply IH.
    + cbn. now apply IH.
  - cbn. rewrite Hc. now apply IH.
Qed.

(** The normal form of a name is normalized. *)
Lemma normalize_query_normalized name :
  normalized (normalize_query name) = true.
Proof.
  unfold normalize_query.
  pose proof (ends_ok_strip name) as He.
  pose proof (lstrip_head (PyStr.rstrip_with PyStr.is_space name)) as Hh.
  change (PyStr.lstrip_with PyStr.is_space
            (PyStr.rstrip_with PyStr.is_space name))
    with (PyStr.strip name) in Hh.
  destruct (PyStr.strip name) as [|c r]; [reflexivity|].
  cbn in *. rewrite Hh in *. cbn. rewrite Hh. now apply sub_ws_norm.
Qed.

Lemma code_blank c : PyStr.code c = 32 -> c = " "%char.
Proof.
  unfold PyStr.code. intros H.
  rewrite <- (ascii_N_embedding c).
  replace (N_of_ascii c) with 32%N by lia. reflexivity.
Qed.

Lemma norm_from_ends_ok s prev :
  norm_from prev s = true -> ends_ok prev s = true.
Proof.
  revert prev. induction s as [|c r IH]; intros prev; [trivial|]. cbn.
  destruct (PyStr.is_space c); intros H.
  - apply IH. apply andb_true_iff in H. tauto.
  - now apply IH.
Qed.

Lemma norm_from_sub_ws s prev :
  norm_from prev s = true -> PyStr.sub_ws prev s = s.
Proof.
  revert prev. induction s as [|c r IH]; intros prev; [trivial|]. cbn.
  destruct (PyStr.is_space c); intros H.
  - apply andb_true_iff in H. destruct H as [H Hr].
    apply andb_true_iff in H. destruct H as [Hp Hc].
    apply negb_true_iff in Hp. subst prev.
    apply Z.eqb_eq, code_blank in Hc. subst c.
    now rewrite (IH _ Hr).
  - now rewrite (IH _ H).
Qed.

Lemma ends_ok_rstrip_id s :
  ends_ok false s = true -> PyStr.rstrip_with PyStr.is_space s = s.
Proof.
  induction s as [|c r IH]; [trivial|]. cbn. intros H.
  rewrite (IH (ends_ok_any _ _ H)).
  destruct (PyStr.is_space c); [|reflexivity].
  destruct r; [discriminate|reflexivity].
Qed.

(** A normalized string is its own normal form. *)
Lemma normalized_fixed s : normalized s = true -> normalize_query s = s.
Proof.
  destruct s as [|c r]; [reflexivity|]. unfold normalized. intros H.
  pose proof (norm_from_ends_ok _ _ H) as He.
  cbn in H, He. unfold normalize_query, PyStr.strip, PyStr.strip_with.
  destruct (PyStr.is_space c) eqn:Hc; [discriminate|].
  rewrite ends_ok_rstrip_id by (cbn; now rewrite Hc).
  cbn [PyStr.lstrip_with]. rewrite Hc. cbn [PyStr.sub_ws]. rewrite Hc.
  now rewrite (norm_from_sub_ws _ _ H).
Qed.

Lemma lower_char_space c :
  PyStr.is_space (PyStr.lower_char c) = PyStr.is_space c.
Proof. destruct c as [[] [] [] [] [] [] [] []]; reflexivity. Qed.

Lemma lower_char_blank c :
  (PyStr.code (PyStr.lower_char c) =? 32) = (PyStr.code c =? 32).
Proof. destruct c as [[] [] [] [] [] [] [] []]; reflexivity. Qed.

Lemma norm_from_lower s prev :
  norm_from prev (PyStr.lower s) = norm_from prev s.
Proof.
  revert prev. induction s as [|c r IH]; intros prev; [reflexivity|]. cbn.
  now rewrite lower_char_space, lower_char_blank, !IH.
Qed.

Lemma normalized_lower s : normalized (PyStr.lower s) = normalized s.
Proof.
  destruct s as [|c r]; [reflexivity|].
  exact (norm_from_lower (String c r) true).
Qed.

(** Lower-casing does not touch whitespace: a string that equals a
    normalized query up to case is itself normalized. *)
Lemma lower_eq_normalized name w :
  PyStr.lower w = PyStr.lower (normalize_query name) ->
  normalize_query w = w.
Proof.
  intros H. apply normalized_fixed.
  rewrite <- normalized_lower, H, normalized_lower.
  apply normalize_query_normalized.
Qed.

(** The first testable property of the specification. *)
Example normalize_query_example : normalize_query "  Acme   Brew  " = "Acme Brew".
Proof. reflexivity. Qed.

Lemma normalize_query_idempotent name :
  normalize_query (normalize_query name) = normalize_query name.
Proof. apply normalized_fixed, normalize_query_normalized. Qed.

(** ** The steps of the checker *)

Lemma send_run E req w :
  send E req w = (log w req, network E (length (sent w)) req).
Proof. reflexivity. Qed.

Lemma get_ipau_access_token_run E rt w w0 tok :
  get_ipau_access_token E rt w = (w0, inr tok) -> w0 = w.
Proof.
  intros H. rewrite <- (get_ipau_access_token_inert E rt w). now rewrite H.
Qed.


(** What a run of [quick_search] that leaves candidates went through. *)
Lemma quick_search_candidates E rt base q w w1 tok count ids :
  quick_search E rt base q w = (w1, inr (Candidates tok count ids)) ->
  get_ipau_access_token E rt w = (w, inr tok)
  /\ w1 = log w (search_request rt tok base q)
  /\ count <> 0 /\ ids <> [].
Proof.
  unfold quick_search. unfold bind at 1.
  destruct (get_ipau_access_token E rt w) as [w0 [e|tok0]] eqn:Ht;
    [discriminate|].
  pose proof (get_ipau_access_token_run _ _ _ _ _ Ht) as ->.
  unfold bind at 1. rewrite send_run.
  destruct (network E _ _) as [e|response]; [discriminate|].
  destruct (negb (is_success response)); [discriminate|].
  unfold bind, lift.
  destruct (decoded response) as [e|data]; [discriminate|].
  destruct (Py.get_default data "count" (JNum 0)) as [e|craw]; [discriminate|].
  destruct (Py.int rt craw) as [e|c]; [discriminate|].
  destruct (Py.get_default data "trademarkIds" (JArr [])) as [e|iraw];
    [discriminate|].
  cbv zeta. destruct (_ || _) eqn:Hz; [discriminate|].
  unfold ret. intros [= <- <- <- <-].
  apply orb_false_iff in Hz. destruct Hz as [Hc Hl].
  apply Z.eqb_neq in Hc. apply Nat.eqb_neq in Hl.
  repeat split; try assumption.
  intros Hnil. now rewrite Hnil in Hl.
Qed.

(** The checker, once the base URL is set: the guarded steps, with any
    exception turned into a result. *)
Lemma check_guarded E rt name w :
  unset (tm_base_url E) = false ->
  check_ip_australia_trademark E rt name w
  = match checked_steps E rt (normalize_query name)
            (env_value (tm_base_url E)) w with
    | (w', inl e) => (w', inr (request_failed e))
    | (w', inr r) => (w', inr r)
    end.
Proof.
  intros H. unfold check_ip_australia_trademark. cbv zeta. now rewrite H.
Qed.

(** The checker on a run that reaches the split into exact and similar
    matches. *)
Lemma check_classifies E rt name w w1 w2 tok count ids parsed :
  unset (tm_base_url E) = false ->
  quick_search E rt (env_value (tm_base_url E)) (normalize_query name) w
  = (w1, inr (Candidates tok count ids)) ->
  fetch_and_parse E rt tok (env_value (tm_base_url E)) (firstn 5 ids) w1
  = (w2, inr parsed) ->
  check_ip_australia_trademark E rt name w
  = (w2, inr match classify (normalize_query name) count ids
                     (firstn 5 ids) parsed with
             | inl e => request_failed e
             | inr r => r
             end).
Proof.
  intros Hu Hq Hf. rewrite (check_guarded _ _ _ _ Hu).
  unfold checked_steps. rewrite (bind_inr _ _ _ _ _ Hq). cbv zeta.
  rewrite (bind_inr _ _ _ _ _ Hf). rewrite lift_run.
  now destruct (classify _ _ _ _ _).
Qed.

(** ** Parsed matches *)

Lemma copy_match_id p : copy_match p = p.
Proof. now destruct p. Qed.

Lemma map_copy_match l : map copy_match l = l.
Proof.
  induction l as [|p r IH]; [reflexivity|]. cbn [map].
  now rewrite IH, copy_match_id.
Qed.

Lemma parse_detail_well_parsed rt d p :
  parse_detail rt d = inr p -> well_parsed d p.
Proof.
  unfold parse_detail. destruct d as [id tm|id msg].
  - destruct tm; try discriminate.
    destruct (match Py.dict_get "goodsAndServices" fields with
              | JArr l => goods_classes rt l
              | _ => inr []
              end) as [e|added]; [discriminate|].
    destruct (sorted_classes rt added) as [e|classes]; [discriminate|].
    intros [= <-]. repeat split. discriminate.
  - intros [= <-]. repeat split. discriminate.
Qed.

Lemma parse_details_well_parsed rt ds ps :
  parse_details rt ds = inr ps -> Forall2 well_parsed ds ps.
Proof.
  revert ps. induction ds as [|d r IH]; intros ps; cbn.
  - intros [= <-]. constructor.
  - destruct (parse_detail rt d) as [e|p] eqn:Hp; [discriminate|].
    destruct (parse_details rt r) as [e|ps'] eqn:Hr; [discriminate|].
    intros [= <-]. constructor.
    + now apply (parse_detail_well_parsed rt).
    + now apply IH.
Qed.

Lemma fetch_and_parse_inv E rt tok base ids w w' parsed :
  fetch_and_parse E rt tok base ids w = (w', inr parsed) ->
  exists ds,
    gather (fun id => fetch_trademark_details E rt id tok base) ids w
    = (w', inr ds)
    /\ parse_details rt ds = inr parsed.
Proof.
  unfold fetch_and_parse, bind, lift.
  destruct (gather _ ids w) as [w1 [e|ds]]; [discriminate|].
  intros [= <- H]. now exists ds.
Qed.

Lemma parsed_have_words E rt tok base ids w w' parsed p :
  fetch_and_parse E rt tok base ids w = (w', inr parsed) ->
  In p parsed -> tm_words p <> None.
Proof.
  intros H Hin. apply fetch_and_parse_inv in H. destruct H as (ds & _ & Hp).
  apply parse_details_well_parsed in Hp.
  induction Hp as [|d q ds' ps' Hw _ IH]; [contradiction|].
  destruct Hin as [<-|Hin]; [apply Hw|now apply IH].
Qed.

(** ** The split into exact and similar matches *)

Lemma is_exact_spec q_lower p :
  is_exact q_lower p = true <->
  exists s, tm_words p = Some s /\ s <> EmptyString
            /\ PyStr.lower s = q_lower.
Proof.
  unfold is_exact, has_words, words_equal.
  destruct (tm_words p) as [s|].
  - rewrite andb_true_iff, negb_true_iff, String.eqb_eq. split.
    + intros [Hne Heq]. exists s. repeat split; [|exact Heq].
      intros ->. discriminate.
    + intros (s' & [= <-] & Hne & Heq). split; [|exact Heq].
      destruct s; [now elim Hne|reflexivity].
  - split; [discriminate|]. intros (s & H & _). discriminate.
Qed.

Lemma is_similar_spec q_lower p :
  is_similar q_lower p = true <->
  exists s, tm_words p = Some s /\ s <> EmptyString
            /\ PyStr.lower s <> q_lower.
Proof.
  unfold is_similar, has_words, words_equal.
  destruct (tm_words p) as [s|].
  - rewrite andb_true_iff, !negb_true_iff, String.eqb_neq. split.
    + intros [Hne Heq]. exists s. repeat split; [|exact Heq].
      intros ->. discriminate.
    + intros (s' & [= <-] & Hne & Heq). split; [|exact Heq].
      destruct s; [now elim Hne|reflexivity].
  - split; [discriminate|]. intros (s & H & _). discriminate.
Qed.

Lemma has_words_split q_lower p :
  has_words p = is_exact q_lower p || is_similar q_lower p.
Proof.
  unfold is_exact, is_similar.
  destruct (has_words p), (words_equal q_lower p); reflexivity.
Qed.

Lemma filter_nil_iff {A} (f : A -> bool) l :
  filter f l = [] <-> existsb f l = false.
Proof.
  induction l as [|x r IH]; cbn; [tauto|].
  destruct (f x); cbn; [split; discriminate|exact IH].
Qed.

(** Whether some parsed match has words decides which branch of
    [classify] is taken. *)
Lemma any_parsed_iff q_lower parsed :
  (0 <? length (map copy_match (filter (is_exact q_lower) parsed))
        + length (map copy_match (filter (is_similar q_lower) parsed)))%nat
  = existsb has_words parsed.
Proof.
  rewrite !length_map.
  induction parsed as [|p r IH]; [reflexivity|]. cbn [filter existsb].
  rewrite (has_words_split q_lower p).
  destruct (is_exact q_lower p) eqn:He, (is_similar q_lower p) eqn:Hs;
    cbn [length orb]; try exact IH.
  - reflexivity.
  - reflexivity.
  - rewrite Nat.add_succ_r. reflexivity.
Qed.

Lemma classify_with_words q count ids top parsed :
  existsb has_words parsed = true ->
  exists r,
    classify q count ids top parsed = inr r
    /\ cr_exact_matches r = filter (is_exact (PyStr.lower q)) parsed
    /\ cr_similar_matches r = filter (is_similar (PyStr.lower q)) parsed
    /\ cr_status r = match cr_exact_matches r with
                     | [] => similar
                     | _ :: _ => taken
                     end
    /\ cr_details r
       = Some ("Found " ++ PyStr.of_Z count
               ++ " registered match(es). Showing the top "
               ++ PyStr.of_Z (Z.of_nat (length top)) ++ ".").
Proof.
  intros Hw. unfold classify. cbv zeta.
  rewrite any_parsed_iff, Hw. cbn [negb]. rewrite !map_copy_match.
  eexists. split; [reflexivity|]. cbn.
  repeat split. now destruct (filter (is_exact _) parsed).
Qed.

Lemma str_items_strings rt i ids :
  forallb is_str ids = true -> str_items i ids = inr (map (Py.str rt) ids).
Proof.
  revert i. induction ids as [|v r IH]; intros i; [reflexivity|]. cbn.
  destruct v; try discriminate. cbn. intros H. now rewrite (IH _ H).
Qed.

Lemma classify_without_words q count ids top parsed :
  existsb has_words parsed = false ->
  classify q count ids top parsed
  = match join_ids (firstn 5 ids) with
    | inl e => inl e
    | inr joined =>
        inr (new_result similar
               "Registered trademarks exist with this name or something similar."
               "Even if names aren't identical, similar marks in related categories can increase legal and branding risk."
               ("Found " ++ PyStr.of_Z count ++ " registered match(es). IDs: "
                ++ joined)
               None
               (Some (map bare_match (firstn 5 ids))))
    end.
Proof.
  intros Hw. unfold classify. cbv zeta.
  now rewrite any_parsed_iff, Hw.
Qed.

Lemma existsb_false_In {A} (f : A -> bool) l x :
  existsb f l = false -> In x l -> f x = false.
Proof.
  intros H Hin. destruct (f x) eqn:Hf; [|reflexivity].
  assert (existsb f l = true) by (apply existsb_exists; now exists x).
  congruence.
Qed.

Lemma bare_match_words_in p ids :
  In p (map bare_match ids) -> tm_words p = None.
Proof.
  intros H. apply in_map_iff in H. now destruct H as (id & <- & _).
Qed.

(** C3: on every run that reaches the split, with [parsed] the matches
    built from the fetched details: a parsed match is among the exact
    matches of the result iff its words are non-empty and equal, after
    lower-casing, to the lower-cased normalized query; it is among the
    similar matches iff its words are non-empty and not equal; a match
    with empty words is in neither; and when some parsed match has
    words, the two lists are the two selections of [parsed], in order,
    and the status is [taken] if there is an exact match and [similar]
    otherwise. *)
Theorem exact_similar_partition E rt name w w1 w2 tok count ids parsed :
  unset (tm_base_url E) = false ->
  quick_search E rt (env_value (tm_base_url E)) (normalize_query name) w
  = (w1, inr (Candidates tok count ids)) ->
  fetch_and_parse E rt tok (env_value (tm_base_url E)) (firstn 5 ids) w1
  = (w2, inr parsed) ->
  exists r,
    check_ip_australia_trademark E rt name w = (w2, inr r)
    /\ (forall p, In p parsed ->
          (In p (cr_exact_matches r) <->
           exists s, tm_words p = Some s /\ s <> EmptyString
                     /\ PyStr.lower s = PyStr.lower (normalize_query name))
          /\ (In p (cr_similar_matches r) <->
              exists s, tm_words p = Some s /\ s <> EmptyString
                        /\ PyStr.lower s
                           <> PyStr.lower (normalize_query name)))
    /\ (existsb has_words parsed = true ->
        cr_exact_matches r
        = filter (is_exact (PyStr.lower (normalize_query name))) parsed
        /\ cr_similar_matches r
           = filter (is_similar (PyStr.lower (normalize_query name))) parsed
        /\ cr_status r = match cr_exact_matches r with
                         | [] => similar
                         | _ :: _ => taken
                         end).
Proof.
  intros Hu Hq Hf. rewrite (check_classifies _ _ _ _ _ _ _ _ _ _ Hu Hq Hf).
  set (q := normalize_query name).
  destruct (existsb has_words parsed) eqn:Hw.
  - destruct (classify_with_words q count ids (firstn 5 ids) parsed Hw)
      as (r & -> & Hex & Hsim & Hst & _).
    exists r. split; [reflexivity|]. split.
    + intros p Hin. rewrite Hex, Hsim, !filter_In.
      rewrite <- is_exact_spec, <- is_similar_spec. tauto.
    + intros _. now rewrite <- Hex.
  - assert (Hnone : forall p, In p parsed ->
              is_exact (PyStr.lower q) p = false
              /\ is_similar (PyStr.lower q) p = false).
    { intros p Hin. pose proof (existsb_false_In _ _ _ Hw Hin) as Hp.
      rewrite (has_words_split (PyStr.lower q)) in Hp.
      now apply orb_false_iff in Hp. }
    rewrite (classify_without_words q count ids _ parsed Hw).
    destruct (join_ids (firstn 5 ids)) as [e|joined].
    + exists (request_failed e). split; [reflexivity|]. split.
      * intros p Hin. destruct (Hnone p Hin) as [He Hs].
        rewrite <- is_exact_spec, <- is_similar_spec, He, Hs. cbn.
        split; split; try contradiction; discriminate.
      * discriminate.
    + eexists. split; [reflexivity|]. split.
      * intros p Hin. destruct (Hnone p Hin) as [He Hs].
        rewrite <- is_exact_spec, <- is_similar_spec, He, Hs. cbn.
        split; split; try contradiction; try discriminate.
        intros Hb. apply bare_match_words_in in Hb.
        now elim (parsed_have_words _ _ _ _ _ _ _ _ p Hf Hin).
      * discriminate.
Qed.

(** C5: on a run in which the quick search left candidates (so that the
    count is not zero and the id list not empty), the details were
    fetched and no parsed match has words, and the first five ids are
    strings, the checker returns a result of status [similar] without
    exact matches, whose similar matches are the bare matches of the
    first at most five ids: one match for each of these ids, in their
    order, carrying the id and nothing else (no words, no status, no
    classes, no labels); its details name these ids. *)
Theorem unparsed_details_fall_back E rt name w w1 w2 tok count ids parsed :
  unset (tm_base_url E) = false ->
  quick_search E rt (env_value (tm_base_url E)) (normalize_query name) w
  = (w1, inr (Candidates tok count ids)) ->
  fetch_and_parse E rt tok (env_value (tm_base_url E)) (firstn 5 ids) w1
  = (w2, inr parsed) ->
  existsb has_words parsed = false ->
  forallb is_str (firstn 5 ids) = true ->
  exists r,
    check_ip_australia_trademark E rt name w = (w2, inr r)
    /\ count <> 0 /\ ids <> []
    /\ cr_status r = similar
    /\ cr_exact_matches r = []
    /\ cr_similar_matches r = map bare_match (firstn 5 ids)
    /\ map tm_id (cr_similar_matches r) = firstn 5 ids
    /\ (length (cr_similar_matches r) <= 5)%nat
    /\ Forall (fun m => tm_words m = None /\ tm_status m = None
                        /\ tm_classes m = [] /\ tm_class_labels m = [])
              (cr_similar_matches r)
    /\ cr_details r
       = Some ("Found " ++ PyStr.of_Z count ++ " registered match(es). IDs: "
               ++ PyStr.join ", " (map (Py.str rt) (firstn 5 ids))).
Proof.
  intros Hu Hq Hf Hw Hstr.
  rewrite (check_classifies _ _ _ _ _ _ _ _ _ _ Hu Hq Hf).
  rewrite (classify_without_words _ count ids _ parsed Hw).
  unfold join_ids. rewrite (str_items_strings rt 0 _ Hstr).
  apply quick_search_candidates in Hq. destruct Hq as (_ & _ & Hc & Hi).
  eexists. split; [reflexivity|].
  unfold new_result.
  cbn [cr_status cr_exact_matches cr_similar_matches cr_details].
  repeat split; try assumption.
  - rewrite map_map. apply map_id.
  - rewrite length_map. apply firstn_le_length.
  - apply Forall_forall. intros m Hm. apply in_map_iff in Hm.
    destruct Hm as (id & <- & _). repeat split.
Qed.


(** ** Class labels *)

Lemma labelled_of_map m :
  tm_class_labels m = map label_nice_class (tm_classes m) -> labelled m.
Proof. intros H. split; [|exact H]. now rewrite H, length_map. Qed.

Lemma table_find_In k v t :
  NoDup (map fst t) -> In (k, v) t -> table_find k t = Some v.
Proof.
  induction t as [|[k' v'] r IH]; [contradiction|]. cbn.
  intros Hnd Hin. inversion Hnd as [|? ? Hnotin Hnd']; subst.
  destruct Hin as [[= -> ->]|Hin].
  - now rewrite String.eqb_refl.
  - destruct (String.eqb k k') eqn:Hk.
    + apply String.eqb_eq in Hk. subst k'. elim Hnotin.
      apply in_map_iff. now exists (k, v).
    + now apply IH.
Qed.

Lemma table_find_None k t :
  (forall v, ~ In (k, v) t) -> table_find k t = None.
Proof.
  induction t as [|[k' v'] r IH]; [reflexivity|]. cbn. intros H.
  destruct (String.eqb k k') eqn:Hk.
  - apply String.eqb_eq in Hk. subst k'. elim (H v'). now left.
  - apply IH. intros v Hin. apply (H v). now right.
Qed.

Lemma NICE_CLASS_MAP_keys : NoDup (map fst NICE_CLASS_MAP).
Proof.
  apply (NoDup_nodup string_dec (map fst NICE_CLASS_MAP)).
Qed.

Lemma quick_search_finished E rt base q w w1 r :
  quick_search E rt base q w = (w1, inr (Finished r)) ->
  cr_exact_matches r = [] /\ cr_similar_matches r = [].
Proof.
  unfold quick_search. unfold bind at 1.
  destruct (get_ipau_access_token E rt w) as [w0 [e|tok0]]; [discriminate|].
  unfold bind at 1. rewrite send_run.
  destruct (network E _ _) as [e|response]; [discriminate|].
  destruct (negb (is_success response)).
  { unfold ret. intros [= _ <-]. split; reflexivity. }
  unfold bind, lift.
  destruct (decoded response) as [e|data]; [discriminate|].
  destruct (Py.get_default data "count" (JNum 0)) as [e|craw]; [discriminate|].
  destruct (Py.int rt craw) as [e|c]; [discriminate|].
  destruct (Py.get_default data "trademarkIds" (JArr [])) as [e|iraw];
    [discriminate|].
  cbv zeta. destruct (_ || _); [|discriminate].
  unfold ret. intros [= _ <-]. split; reflexivity.
Qed.

Lemma Forall_filter {A} (P : A -> Prop) f l :
  Forall P l -> Forall P (filter f l).
Proof.
  intros H. apply Forall_forall. intros x Hx. apply filter_In in Hx.
  destruct Hx as [Hx _]. revert x Hx. now apply Forall_forall.
Qed.

Lemma classify_labelled q count ids top parsed r :
  Forall labelled parsed ->
  classify q count ids top parsed = inr r ->
  Forall labelled (cr_exact_matches r ++ cr_similar_matches r).
Proof.
  intros Hl. destruct (existsb has_words parsed) eqn:Hw.
  - destruct (classify_with_words q count ids top parsed Hw)
      as (r' & -> & Hex & Hsim & _).
    intros [= <-]. rewrite Hex, Hsim.
    apply Forall_app. split; now apply Forall_filter.
  - rewrite (classify_without_words q count ids top parsed Hw).
    destruct (join_ids (firstn 5 ids)); [discriminate|].
    intros [= <-]. unfold new_result.
    cbn [cr_exact_matches cr_similar_matches app].
    apply Forall_forall. intros m Hm. apply in_map_iff in Hm.
    destruct Hm as (id & <- & _). split; reflexivity.
Qed.

Lemma parsed_labelled rt ds parsed :
  parse_details rt ds = inr parsed -> Forall labelled parsed.
Proof.
  intros H. apply parse_details_well_parsed in H.
  induction H as [|d p ds' ps' Hw _ IH]; constructor; [|exact IH].
  apply labelled_of_map, Hw.
Qed.

Lemma checked_steps_labelled E rt q base w w' r :
  checked_steps E rt q base w = (w', inr r) ->
  Forall labelled (cr_exact_matches r ++ cr_similar_matches r).
Proof.
  unfold checked_steps. unfold bind at 1.
  destruct (quick_search E rt base q w) as [w1 [e|[res|tok count ids]]] eqn:Hq;
    [discriminate| |].
  - unfold ret. intros [= _ <-]. apply quick_search_finished in Hq.
    destruct Hq as [-> ->]. constructor.
  - cbv zeta. unfold bind.
    destruct (fetch_and_parse E rt tok base (firstn 5 ids) w1)
      as [w2 [e|parsed]] eqn:Hf; [discriminate|].
    rewrite lift_run. intros [= _ Hc].
    apply fetch_and_parse_inv in Hf. destruct Hf as (ds & _ & Hp).
    apply (classify_labelled _ _ _ _ _ _ (parsed_labelled _ _ _ Hp) Hc).
Qed.

(** C8: every match of every result of the checker has as many class
    labels as classes, the label at each position being the class at
    that position rendered by [label_nice_class]; so have the matches
    built from the details and the bare matches; the label of a code is
    the trimmed code followed by its description in parentheses when the
    trimmed code is one of the 45 keys of the table, and the trimmed
    code alone otherwise; the label of 35 and the label of 999 are the
    ones the specification gives. *)
Theorem class_labels_parallel E rt name w :
  exists r,
    snd (check_ip_australia_trademark E rt name w) = inr r
    /\ Forall labelled (cr_exact_matches r ++ cr_similar_matches r)
    /\ (forall d p, parse_detail rt d = inr p -> labelled p)
    /\ (forall p, labelled p -> labelled (copy_match p))
    /\ (forall id, labelled (bare_match id))
    /\ (forall n description,
          In (PyStr.strip n, description) NICE_CLASS_MAP ->
          label_nice_class n = PyStr.strip n ++ " (" ++ description ++ ")")
    /\ (forall n,
          (forall description,
             ~ In (PyStr.strip n, description) NICE_CLASS_MAP) ->
          label_nice_class n = PyStr.strip n)
    /\ length NICE_CLASS_MAP = 45%nat
    /\ NoDup (map fst NICE_CLASS_MAP)
    /\ label_nice_class "35" = "35 (Advertising, business & retail services)"
    /\ label_nice_class "999" = "999".
Proof.
  assert (Hres : exists r,
            snd (check_ip_australia_trademark E rt name w) = inr r
            /\ Forall labelled (cr_exact_matches r ++ cr_similar_matches r)).
  { unfold check_ip_australia_trademark. cbv zeta.
    destruct (unset (tm_base_url E)).
    - exists missing_base_url. split; [reflexivity|constructor].
    - unfold try_except.
      destruct (checked_steps E rt _ _ w) as [w' [e|r]] eqn:Hs.
      + exists (request_failed e). split; [reflexivity|constructor].
      + exists r. split; [reflexivity|].
        now apply (checked_steps_labelled _ _ _ _ _ _ _ Hs). }
  destruct Hres as (r & Hr & Hl). exists r.
  split; [exact Hr|]. split; [exact Hl|].
  split; [|split; [|split; [|split; [|split; [|split; [|split; [|split]]]]]]].
  - intros d p Hp. apply labelled_of_map.
    apply (parse_detail_well_parsed rt d p Hp).
  - intros p Hp. now rewrite copy_match_id.
  - intros id. split; reflexivity.
  - intros n description Hin. unfold label_nice_class. cbv zeta.
    now rewrite (table_find_In _ _ _ NICE_CLASS_MAP_keys Hin).
  - intros n Hnot. unfold label_nice_class. cbv zeta.
    now rewrite (table_find_None _ _ Hnot).
  - reflexivity.
  - exact NICE_CLASS_MAP_keys.
  - reflexivity.
  - reflexivity.
Qed.

(** ** The fan-out of detail fetches *)

Lemma fetch_answered E rt id tok base w response :
  network E (length (sent w)) (detail_request rt id tok base) = inr response ->
  fetch_trademark_details E rt id tok base w
  = (log w (detail_request rt id tok base),
     inr (detail_of_response id response)).
Proof.
  intros Hn. unfold fetch_trademark_details, bind.
  rewrite send_run, Hn. unfold detail_of_response.
  destruct (is_success response); cbn [negb]; [|reflexivity].
  destruct (decoded response); reflexivity.
Qed.

Lemma fetch_unanswered E rt id tok base w e :
  network E (length (sent w)) (detail_request rt id tok base) = inl e ->
  fetch_trademark_details E rt id tok base w
  = (log w (detail_request rt id tok base), inl e).
Proof.
  intros Hn. unfold fetch_trademark_details, bind. now rewrite send_run, Hn.
Qed.

Lemma detail_of_response_id id response :
  detail_id (detail_of_response id response) = id.
Proof.
  unfold detail_of_response.
  destruct (is_success response); [|reflexivity].
  destruct (decoded response); reflexivity.
Qed.

Lemma gather_answered E rt tok base ids w :
  answered E (length (sent w))
    (map (fun id => detail_request rt id tok base) ids) = true ->
  exists ds w',
    gather (fun id => fetch_trademark_details E rt id tok base) ids w
    = (w', inr ds)
    /\ cached_token w' = cached_token w
    /\ sent w'
       = (sent w ++ map (fun id => detail_request rt id tok base) ids)%list
    /\ map detail_id ds = ids.
Proof.
  revert w. induction ids as [|id r IH]; intros w.
  - intros _. exists [], w. cbn. now rewrite app_nil_r.
  - cbn [map answered gather].
    destruct (network E (length (sent w)) (detail_request rt id tok base))
      as [e|response] eqn:Hn; [discriminate|].
    intros Ha. rewrite (fetch_answered _ _ _ _ _ _ _ Hn).
    destruct (IH (log w (detail_request rt id tok base))) as
      (ds & w' & Hg & Hc & Hs & Hi).
    { cbn [log sent]. rewrite length_app. cbn [length].
      now rewrite Nat.add_1_r. }
    rewrite Hg. exists (detail_of_response id response :: ds), w'.
    split; [reflexivity|]. split; [exact Hc|]. split.
    + rewrite Hs. cbn [log sent]. now rewrite <- app_assoc.
    + cbn [map]. now rewrite detail_of_response_id, Hi.
Qed.

Lemma parsed_ids rt ds parsed :
  parse_details rt ds = inr parsed -> map tm_id parsed = map detail_id ds.
Proof.
  intros H. apply parse_details_well_parsed in H.
  induction H as [|d p ds' ps' Hw _ IH]; [reflexivity|]. cbn [map].
  destruct Hw as [-> _]. now rewrite IH.
Qed.

(** C9 (code defect): with the connection breaking during the fetch
    for mark 102, that fetch raises instead of returning a value for its
    id, and the whole check ends with status [unknown] and without
    matches, although the fetch for mark 101 returned the data of an
    exact match.  Had the registry answered the request for mark 102
    with an HTTP error, the fetch would have returned an error value for
    the id and the check would have reported the exact match 101. *)
Lemma failed_fetch_aborts_the_check :
  snd (fetch_trademark_details flaky_env sample_runtime (JStr "102")
         (JStr "T0") "https://tm.example/api/" primed_world)
  = inl (TransportError "connection reset")
  /\ snd (fetch_trademark_details flaky_env sample_runtime (JStr "101")
            (JStr "T0") "https://tm.example/api/" primed_world)
     = inr (DetailData (JStr "101") detail_101)
  /\ snd (check_ip_australia_trademark flaky_env sample_runtime "acme brew"
            primed_world)
     = inr (request_failed (TransportError "connection reset"))
  /\ cr_status (request_failed (TransportError "connection reset")) = unknown
  /\ cr_exact_matches (request_failed (TransportError "connection reset"))
     = []
  /\ cr_similar_matches (request_failed (TransportError "connection reset"))
     = []
  /\ cr_details (request_failed (TransportError "connection reset"))
     = Some "Request failed: connection reset"
  /\ snd (fetch_trademark_details partial_env sample_runtime (JStr "102")
            (JStr "T0") "https://tm.example/api/" primed_world)
     = inr (DetailError (JStr "102")
              "Detail fetch failed 503: Service Unavailable")
  /\ exists r,
       snd (check_ip_australia_trademark partial_env sample_runtime
              "acme brew" primed_world) = inr r
       /\ cr_status r = taken
       /\ cr_exact_matches r = [match_101]
       /\ cr_similar_matches r = [].
Proof.
  repeat split. eexists. split; [reflexivity|]. repeat split.
Qed.

(** Each value of the fan-out is the one built from the response to the
    request for its own id. *)
Lemma gather_answered_values E rt tok base ids w ds w' :
  gather (fun id => fetch_trademark_details E rt id tok base) ids w
  = (w', inr ds) ->
  Forall2 (fun id d =>
             exists n response,
               network E n (detail_request rt id tok base) = inr response
               /\ d = detail_of_response id response)
          ids ds.
Proof.
  revert w ds w'. induction ids as [|id r IH]; intros w ds w'.
  - cbn. intros [= _ <-]. constructor.
  - cbn [gather].
    destruct (network E (length (sent w)) (detail_request rt id tok base))
      as [e|response] eqn:Hn.
    + rewrite (fetch_unanswered _ _ _ _ _ _ _ Hn). discriminate.
    + rewrite (fetch_answered _ _ _ _ _ _ _ Hn).
      destruct (gather _ r (log w (detail_request rt id tok base)))
        as [w2 [e|bs]] eqn:Hg; [discriminate|].
      intros [= _ <-]. constructor; [|exact (IH _ _ _ Hg)].
      now exists (length (sent w)), response.
Qed.

(** When the network fails one of the requests, the fan-out raises the
    exception of a failed request. *)
Lemma gather_unanswered E rt tok base ids w :
  answered E (length (sent w))
    (map (fun id => detail_request rt id tok base) ids) = false ->
  exists w' e i id,
    gather (fun id => fetch_trademark_details E rt id tok base) ids w
    = (w', inl e)
    /\ nth_error ids i = Some id
    /\ network E (length (sent w) + i) (detail_request rt id tok base)
       = inl e.
Proof.
  revert w. induction ids as [|id r IH]; intros w; [discriminate|].
  cbn [map answered gather].
  destruct (network E (length (sent w)) (detail_request rt id tok base))
    as [e|response] eqn:Hn.
  - intros _. rewrite (fetch_unanswered _ _ _ _ _ _ _ Hn).
    eexists _, e, 0%nat, id. split; [reflexivity|]. split; [reflexivity|].
    now rewrite Nat.add_0_r.
  - intros Ha. rewrite (fetch_answered _ _ _ _ _ _ _ Hn).
    destruct (IH (log w (detail_request rt id tok base)))
      as (w' & e & i & x & Hg & Hi & He).
    { cbn [log sent]. rewrite length_app. cbn [length].
      now rewrite Nat.add_1_r. }
    rewrite Hg. exists w', e, (S i), x.
    split; [reflexivity|]. split; [exact Hi|].
    cbn [log sent] in He. rewrite length_app in He. cbn [length] in He.
    now rewrite <- Nat.add_assoc in He.
Qed.

(** X29: once the quick search has left candidates, a request for the
    details of one of the first five ids that the network fails makes
    the whole check end with status [unknown], without matches, its
    details being the text of the exception of a failed request: the
    values that other fetches returned are lost. *)
Theorem transport_failure_discards_details E rt name w w1 tok count ids :
  unset (tm_base_url E) = false ->
  quick_search E rt (env_value (tm_base_url E)) (normalize_query name) w
  = (w1, inr (Candidates tok count ids)) ->
  answered E (length (sent w1))
    (map (fun id => detail_request rt id tok (env_value (tm_base_url E)))
         (firstn 5 ids)) = false ->
  exists e i id,
    nth_error (firstn 5 ids) i = Some id
    /\ network E (length (sent w1) + i)
         (detail_request rt id tok (env_value (tm_base_url E))) = inl e
    /\ snd (check_ip_australia_trademark E rt name w)
       = inr (request_failed e)
    /\ cr_status (request_failed e) = unknown
    /\ cr_exact_matches (request_failed e) = []
    /\ cr_similar_matches (request_failed e) = []
    /\ cr_details (request_failed e)
       = Some ("Request failed: " ++ exn_str e).
Proof.
  intros Hu Hq Ha.
  destruct (gather_unanswered _ _ _ _ _ _ Ha) as (w' & e & i & id & Hg & Hi & He).
  exists e, i, id. split; [exact Hi|]. split; [exact He|].
  split; [|repeat split].
  rewrite (check_guarded _ _ _ _ Hu). unfold checked_steps.
  rewrite (bind_inr _ _ _ _ _ Hq). cbv zeta.
  unfold fetch_and_parse.
  rewrite (bind_inl _ _ _ _ _ (bind_inl _ _ _ _ _ Hg)). reflexivity.
Qed.

Lemma transport_failure_discards_details_witness :
  unset (tm_base_url flaky_env) = false
  /\ quick_search flaky_env sample_runtime (env_value (tm_base_url flaky_env))
       (normalize_query "Acme Brew") primed_world
     = (searched "Acme Brew",
        inr (Candidates (JStr "T0") 2 [JStr "101"; JStr "102"]))
  /\ answered flaky_env (length (sent (searched "Acme Brew")))
       (map (fun id => detail_request sample_runtime id (JStr "T0")
                         (env_value (tm_base_url flaky_env)))
            (firstn 5 [JStr "101"; JStr "102"])) = false
  /\ exists e,
       snd (check_ip_australia_trademark flaky_env sample_runtime "Acme Brew"
              primed_world) = inr (request_failed e).
Proof.
  split; [reflexivity|]. split; [reflexivity|]. split; [reflexivity|].
  destruct (transport_failure_discards_details flaky_env sample_runtime
              "Acme Brew" primed_world (searched "Acme Brew") (JStr "T0") 2
              [JStr "101"; JStr "102"] eq_refl eq_refl eq_refl)
    as (e & _ & _ & _ & _ & Hr & _).
  now exists e.
Defined.

(** X30: once the quick search has left candidates and the network
    answers the requests for the details of the first five ids at most,
    the checker sends exactly these requests, in the order of the id
    list; every fetch returns the value built from the response to the
    request for its own id, [{id, data}] for a success that decodes and
    [{id, error}] otherwise; the values are in the order of the ids, and
    so are the matches parsed from them, on which the result of the
    check is computed. *)
Theorem detail_fan_out E rt name w w1 tok count ids :
  unset (tm_base_url E) = false ->
  quick_search E rt (env_value (tm_base_url E)) (normalize_query name) w
  = (w1, inr (Candidates tok count ids)) ->
  answered E (length (sent w1))
    (map (fun id => detail_request rt id tok (env_value (tm_base_url E)))
         (firstn 5 ids)) = true ->
  exists ds w2,
    check_ip_australia_trademark E rt name w
    = (w2,
       inr match parse_details rt ds with
           | inl e => request_failed e
           | inr parsed =>
               match classify (normalize_query name) count ids
                       (firstn 5 ids) parsed with
               | inl e => request_failed e
               | inr r => r
               end
           end)
    /\ sent w2
       = (sent w1
          ++ map (fun id =>
                    detail_request rt id tok (env_value (tm_base_url E)))
                 (firstn 5 ids))%list
    /\ (length ds <= 5)%nat
    /\ map detail_id ds = firstn 5 ids
    /\ Forall2 (fun id d =>
                  exists n response,
                    network E n
                      (detail_request rt id tok (env_value (tm_base_url E)))
                    = inr response
                    /\ d = detail_of_response id response)
               (firstn 5 ids) ds
    /\ (forall parsed,
          parse_details rt ds = inr parsed ->
          map tm_id parsed = firstn 5 ids).
Proof.
  intros Hu Hq Ha.
  destruct (gather_answered E rt tok _ (firstn 5 ids) w1 Ha)
    as (ds & w2 & Hg & _ & Hs & Hi).
  exists ds, w2. split.
  { rewrite (check_guarded _ _ _ _ Hu). unfold checked_steps.
    rewrite (bind_inr _ _ _ _ _ Hq). cbv zeta.
    unfold fetch_and_parse at 1. unfold bind at 1. unfold bind at 1.
    rewrite Hg, lift_run.
    destruct (parse_details rt ds) as [e|parsed]; [reflexivity|].
    rewrite lift_run. now destruct (classify _ _ _ _ _). }
  split; [exact Hs|]. split.
  { rewrite <- (length_map detail_id), Hi. apply firstn_le_length. }
  split; [exact Hi|]. split.
  { exact (gather_answered_values _ _ _ _ _ _ _ _ Hg). }
  intros parsed Hp. now rewrite (parsed_ids _ _ _ Hp).
Qed.

Lemma detail_fan_out_witness :
  unset (tm_base_url sample_env) = false
  /\ quick_search sample_env sample_runtime
       (env_value (tm_base_url sample_env)) (normalize_query "Acme Brew")
       primed_world
     = (searched "Acme Brew",
        inr (Candidates (JStr "T0") 2 [JStr "101"; JStr "102"]))
  /\ answered sample_env (length (sent (searched "Acme Brew")))
       (map (fun id => detail_request sample_runtime id (JStr "T0")
                         (env_value (tm_base_url sample_env)))
            (firstn 5 [JStr "101"; JStr "102"])) = true
  /\ exists ds w2,
       fst (check_ip_australia_trademark sample_env sample_runtime
              "Acme Brew" primed_world) = w2
       /\ map detail_id ds = firstn 5 [JStr "101"; JStr "102"].
Proof.
  split; [reflexivity|]. split; [reflexivity|]. split; [reflexivity|].
  destruct (detail_fan_out sample_env sample_runtime "Acme Brew"
              primed_world (searched "Acme Brew") (JStr "T0") 2
              [JStr "101"; JStr "102"] eq_refl eq_refl eq_refl)
    as (ds & w2 & Hc & _ & _ & Hi & _).
  exists ds, w2. split; [now rewrite Hc|exact Hi].
Defined.

(** ** Words are compared as they are *)

Lemma parse_detail_words rt id f p s :
  parse_detail rt (DetailData id (JObj f)) = inr p ->
  record_words f = JStr s ->
  tm_words p = Some s.
Proof.
  unfold parse_detail. intros H Hw.
  destruct (match Py.dict_get "goodsAndServices" f with
            | JArr l => goods_classes rt l
            | _ => inr []
            end) as [e|added]; [discriminate|].
  destruct (sorted_classes rt added) as [e|classes]; [discriminate|].
  injection H as <-. cbn [new_match tm_words]. now rewrite Hw.
Qed.

(** C10: the words of a record (the first non-empty of its name fields)
    are kept as the registry gives them and compared with the normalized
    query after lower-casing only.  A record whose words have the normal
    form of the query without being it (they differ from it in leading, trailing or repeated whitespace
    only) gives a match that fails the test of the exact matches and
    passes the test of the similar ones; in the result built from any
    list of parsed matches that holds it, it is among the similar
    matches and not among the exact ones. *)
Theorem whitespace_variant_is_similar rt name id f s p count ids top parsed :
  parse_detail rt (DetailData id (JObj f)) = inr p ->
  record_words f = JStr s ->
  normalize_query s = normalize_query name ->
  s <> normalize_query name ->
  In p parsed ->
  tm_words p = Some s
  /\ is_exact (PyStr.lower (normalize_query name)) p = false
  /\ is_similar (PyStr.lower (normalize_query name)) p = true
  /\ exists r,
       classify (normalize_query name) count ids top parsed = inr r
       /\ In p (cr_similar_matches r)
       /\ ~ In p (cr_exact_matches r).
Proof.
  intros Hp Hw Hn Hs Hin.
  assert (Hne : s <> EmptyString).
  { intros ->. apply Hs. now rewrite <- Hn. }
  pose proof (parse_detail_words _ _ _ _ _ Hp Hw) as Hwords.
  assert (Hneq : PyStr.lower s <> PyStr.lower (normalize_query name)).
  { intros Heq. apply lower_eq_normalized in Heq. congruence. }
  assert (Hsim : is_similar (PyStr.lower (normalize_query name)) p = true).
  { apply is_similar_spec. now exists s. }
  assert (Hex : is_exact (PyStr.lower (normalize_query name)) p = false).
  { destruct (is_exact _ p) eqn:He; [|reflexivity].
    apply is_exact_spec in He. destruct He as (s' & Hs' & _ & Heq).
    congruence. }
  split; [exact Hwords|]. split; [exact Hex|]. split; [exact Hsim|].
  assert (Hany : existsb has_words parsed = true).
  { apply existsb_exists. exists p. split; [exact Hin|].
    rewrite (has_words_split (PyStr.lower (normalize_query name))).
    now rewrite Hsim, orb_true_r. }
  destruct (classify_with_words (normalize_query name) count ids top parsed
              Hany) as (r & Hr & Hre & Hrs & _).
  exists r. split; [exact Hr|]. rewrite Hre, Hrs, !filter_In. split.
  - now split.
  - intros [_ He]. congruence.
Qed.

Lemma whitespace_variant_is_similar_witness :
  parse_detail sample_runtime (DetailData (JStr "102") detail_102)
  = inr (new_match (JStr "102") (Some "Acme  Brew") (Some "REGISTERED")
           (Some []) (Some []))
  /\ normalize_query "Acme  Brew" = normalize_query " Acme Brew "
  /\ "Acme  Brew" <> normalize_query " Acme Brew "
  /\ is_similar (PyStr.lower (normalize_query " Acme Brew "))
       (new_match (JStr "102") (Some "Acme  Brew") (Some "REGISTERED")
          (Some []) (Some [])) = true.
Proof.
  assert (Hn : normalize_query "Acme  Brew" = normalize_query " Acme Brew ")
    by reflexivity.
  assert (Hd : "Acme  Brew" <> normalize_query " Acme Brew ")
    by discriminate.
  split; [reflexivity|]. split; [exact Hn|]. split; [exact Hd|].
  apply (whitespace_variant_is_similar sample_runtime " Acme Brew "
           (JStr "102")
           [("words", JStr "Acme  Brew"); ("status", JStr "REGISTERED")]
           "Acme  Brew"
           (new_match (JStr "102") (Some "Acme  Brew") (Some "REGISTERED")
              (Some []) (Some []))
           2 [JStr "101"; JStr "102"] [JStr "101"; JStr "102"]
           [new_match (JStr "102") (Some "Acme  Brew") (Some "REGISTERED")
              (Some []) (Some [])]
           eq_refl eq_refl Hn Hd (or_introl eq_refl)).
Defined.

(** ** Runs on the sample registry *)

Lemma exact_similar_partition_witness :
  unset (tm_base_url sample_env) = false
  /\ quick_search sample_env sample_runtime sample_base
       (normalize_query " acme   brew") primed_world
     = (searched " acme   brew",
        inr (Candidates (JStr "T0") 2 [JStr "101"; JStr "102"]))
  /\ fetch_and_parse sample_env sample_runtime (JStr "T0") sample_base
       (firstn 5 [JStr "101"; JStr "102"]) (searched " acme   brew")
     = (fetched " acme   brew", inr [match_101; match_102])
  /\ exists r,
       check_ip_australia_trademark sample_env sample_runtime " acme   brew"
         primed_world = (fetched " acme   brew", inr r)
       /\ cr_status r = taken
       /\ cr_exact_matches r = [match_101]
       /\ cr_similar_matches r = [match_102].
Proof.
  split; [reflexivity|]. split; [reflexivity|]. split; [reflexivity|].
  destruct (exact_similar_partition sample_env sample_runtime " acme   brew"
              primed_world (searched " acme   brew")
              (fetched " acme   brew") (JStr "T0") 2
              [JStr "101"; JStr "102"] [match_101; match_102]
              eq_refl eq_refl eq_refl) as (r & Hr & _ & Hw).
  destruct (Hw eq_refl) as (Hex & Hsim & Hst).
  exists r. split; [exact Hr|]. rewrite Hst, Hex, Hsim. repeat split.
Defined.

Lemma unparsed_details_fall_back_witness :
  unset (tm_base_url wordless_env) = false
  /\ quick_search wordless_env sample_runtime sample_base
       (normalize_query "Acme Brew") primed_world
     = (searched "Acme Brew",
        inr (Candidates (JStr "T0") 2 [JStr "101"; JStr "102"]))
  /\ fetch_and_parse wordless_env sample_runtime (JStr "T0") sample_base
       (firstn 5 [JStr "101"; JStr "102"]) (searched "Acme Brew")
     = (fetched "Acme Brew",
        inr [undescribed (JStr "101"); undescribed (JStr "102")])
  /\ existsb has_words [undescribed (JStr "101"); undescribed (JStr "102")]
     = false
  /\ forallb is_str (firstn 5 [JStr "101"; JStr "102"]) = true
  /\ exists r,
       check_ip_australia_trademark wordless_env sample_runtime "Acme Brew"
         primed_world = (fetched "Acme Brew", inr r)
       /\ cr_status r = similar
       /\ cr_similar_matches r
          = [bare_match (JStr "101"); bare_match (JStr "102")]
       /\ map tm_id (cr_similar_matches r) = [JStr "101"; JStr "102"]
       /\ cr_details r
          = Some "Found 2 registered match(es). IDs: 101, 102".
Proof.
  split; [reflexivity|]. split; [reflexivity|]. split; [reflexivity|].
  split; [reflexivity|]. split; [reflexivity|].
  destruct (unparsed_details_fall_back wordless_env sample_runtime "Acme Brew"
              primed_world (searched "Acme Brew") (fetched "Acme Brew")
              (JStr "T0") 2 [JStr "101"; JStr "102"]
              [undescribed (JStr "101"); undescribed (JStr "102")]
              eq_refl eq_refl eq_refl eq_refl eq_refl)
    as (r & Hr & _ & _ & Hst & _ & Hsim & Hids & _ & _ & Hd).
  exists r. split; [exact Hr|]. split; [exact Hst|].
  split; [exact Hsim|]. split; [exact Hids|exact Hd].
Defined.


(** Words that are not in whitespace-normal form are never an exact
    match, whatever the query. *)
Lemma unnormalized_words_never_exact name p s :
  tm_words p = Some s ->
  normalize_query s <> s ->
  is_exact (PyStr.lower (normalize_query name)) p = false.
Proof.
  intros Hw Hn. destruct (is_exact _ p) eqn:He; [|reflexivity].
  apply is_exact_spec in He. destruct He as (s' & Hs' & _ & Heq).
  rewrite Hw in Hs'. injection Hs' as <-.
  now apply lower_eq_normalized in Heq.
Qed.

(** The read path of the token cache, on the sample registry: the token
    cached in [primed_world] is returned and nothing is sent. *)
Example cached_token_read :
  get_ipau_access_token sample_env sample_runtime primed_world
  = (primed_world, inr (JStr "T0")).
Proof. reflexivity. Qed.

(** The registry of the samples would grant the token: the request the
    refresh would send, had it the three names, is answered with T1. *)
Example token_would_be_granted :
  request_new_token sample_env sample_runtime
    (fun name => Some name) fresh_world
  = (log fresh_world (TokenPost "token_url" "client_id" "client_secret"),
     inr (JStr "T1")).
Proof. reflexivity. Qed.

(** * Further properties of the code *)

(** ** [normalize_query] *)

Lemma strip_fixed s :
  ends_ok false s = true ->
  match s with
  | EmptyString => True
  | String c _ => PyStr.is_space c = false
  end ->
  PyStr.strip s = s.
Proof.
  intros He Hh. unfold PyStr.strip, PyStr.strip_with.
  rewrite (ends_ok_rstrip_id s He).
  destruct s as [|c r]; [reflexivity|]. cbn. now rewrite Hh.
Qed.

Lemma strip_head s :
  match PyStr.strip s with
  | EmptyString => True
  | String c _ => PyStr.is_space c = false
  end.
Proof. apply lstrip_head. Qed.

Lemma strip_idempotent s : PyStr.strip (PyStr.strip s) = PyStr.strip s.
Proof. apply strip_fixed; [apply ends_ok_strip|apply strip_head]. Qed.

Lemma normalized_strip s : normalized s = true -> PyStr.strip s = s.
Proof.
  destruct s as [|c r]; [reflexivity|]. unfold normalized. intros H.
  apply strip_fixed.
  - apply (ends_ok_any true). now apply norm_from_ends_ok.
  - cbn in H. destruct (PyStr.is_space c); [discriminate|reflexivity].
Qed.

Lemma norm_from_only_blanks s prev :
  norm_from prev s = true ->
  PyStr.all_chars
    (fun c => negb (PyStr.is_space c) || (PyStr.code c =? 32)) s = true.
Proof.
  revert prev. induction s as [|c r IH]; intros prev; [reflexivity|]. cbn.
  destruct (PyStr.is_space c); cbn; intros H.
  - apply andb_true_iff in H. destruct H as [H Hr].
    apply andb_true_iff in H. destruct H as [_ Hc].
    now rewrite Hc, (IH _ Hr).
  - now apply (IH false).
Qed.

Lemma norm_from_no_double_blank s prev :
  norm_from prev s = true -> PyStr2.contains "  " s = false.
Proof.
  revert prev. induction s as [|c r IH]; intros prev; [reflexivity|].
  cbn [norm_from PyStr2.contains PyStr2.starts_with].
  destruct (PyStr.is_space c) eqn:Hc; intros H.
  - apply andb_true_iff in H. destruct H as [_ Hr].
    rewrite (IH _ Hr), orb_false_r.
    destruct r as [|d r']; [now rewrite andb_false_r|].
    cbn in Hr. destruct (PyStr.is_space d) eqn:Hd; [discriminate|].
    destruct (Ascii.eqb " " d) eqn:Hbd.
    + apply Ascii.eqb_eq in Hbd. subst d. discriminate.
    + cbn. now rewrite andb_false_r.
  - rewrite (IH _ H), orb_false_r.
    destruct (Ascii.eqb " " c) eqn:Hbc; [|reflexivity].
    apply Ascii.eqb_eq in Hbc. subst c. discriminate.
Qed.

(** X1: the normal form of a name is a fixed point of [normalize_query];
    it has no whitespace at either end, its only whitespace characters
    are blanks, and no two blanks are adjacent; and the fixed points of
    [normalize_query] are exactly the strings of that shape. *)
Theorem normalize_query_normal_form name :
  normalize_query (normalize_query name) = normalize_query name
  /\ PyStr.strip (normalize_query name) = normalize_query name
  /\ PyStr.all_chars
       (fun c => negb (PyStr.is_space c) || (PyStr.code c =? 32))
       (normalize_query name) = true
  /\ PyStr2.contains "  " (normalize_query name) = false
  /\ forall s, normalize_query s = s <-> normalized s = true.
Proof.
  pose proof (normalize_query_normalized name) as Hn.
  split; [now apply normalized_fixed|].
  split; [now apply normalized_strip|].
  assert (Hfrom : forall s, normalized s = true ->
            s = EmptyString \/ norm_from true s = true).
  { intros [|c r] H; [now left|now right]. }
  split; [|split].
  - destruct (Hfrom _ Hn) as [->|H]; [reflexivity|].
    now apply (norm_from_only_blanks _ true).
  - destruct (Hfrom _ Hn) as [->|H]; [reflexivity|].
    now apply (norm_from_no_double_blank _ true).
  - intros s. split.
    + intros <-. apply normalize_query_normalized.
    + apply normalized_fixed.
Qed.

Lemma lstrip_with_length p s :
  (String.length (PyStr.lstrip_with p s) <= String.length s)%nat.
Proof.
  induction s as [|c r IH]; [constructor|]. cbn.
  destruct (p c); cbn; lia.
Qed.

Lemma rstrip_with_length p s :
  (String.length (PyStr.rstrip_with p s) <= String.length s)%nat.
Proof.
  induction s as [|c r IH]; [constructor|]. cbn.
  destruct (p c && _); cbn; lia.
Qed.

Lemma sub_ws_length b s :
  (String.length (PyStr.sub_ws b s) <= String.length s)%nat.
Proof.
  revert b. induction s as [|c r IH]; intros b; [constructor|]. cbn.
  pose proof (IH true). pose proof (IH false).
  destruct (PyStr.is_space c); [destruct b|]; cbn; lia.
Qed.

(** X2: normalizing never lengthens a name, and a name that is only
    whitespace (or empty) becomes the empty query. *)
Theorem normalize_query_shrinks name :
  (String.length (normalize_query name) <= String.length name)%nat
  /\ (PyStr.all_chars PyStr.is_space name = true ->
      normalize_query name = EmptyString).
Proof.
  split.
  - unfold normalize_query, PyStr.strip, PyStr.strip_with.
    pose proof (sub_ws_length false
                  (PyStr.lstrip_with PyStr.is_space
                     (PyStr.rstrip_with PyStr.is_space name))).
    pose proof (lstrip_with_length PyStr.is_space
                  (PyStr.rstrip_with PyStr.is_space name)).
    pose proof (rstrip_with_length PyStr.is_space name). lia.
  - intros H. unfold normalize_query, PyStr.strip, PyStr.strip_with.
    assert (Hr : PyStr.rstrip_with PyStr.is_space name = EmptyString).
    { induction name as [|c r IH]; [reflexivity|]. cbn in *.
      apply andb_true_iff in H. destruct H as [Hc Hr].
      now rewrite (IH Hr), Hc. }
    now rewrite Hr.
Qed.

(** X3: the checker reads a name through its normal form: a name and
    its normal form, and so any two names that differ in surrounding or
    repeated whitespace only, get the same result and cause the same
    requests. *)
Theorem check_ignores_spacing E rt name w :
  check_ip_australia_trademark E rt (normalize_query name) w
  = check_ip_australia_trademark E rt name w
  /\ forall name',
       normalize_query name' = normalize_query name ->
       check_ip_australia_trademark E rt name' w
       = check_ip_australia_trademark E rt name w.
Proof.
  split.
  - unfold check_ip_australia_trademark. cbv zeta.
    now rewrite (normalized_fixed _ (normalize_query_normalized name)).
  - intros name' H. unfold check_ip_australia_trademark. cbv zeta.
    now rewrite H.
Qed.

Lemma is_empty_lower s : PyStr.is_empty (PyStr.lower s) = PyStr.is_empty s.
Proof. now destruct s. Qed.

Lemma lstrip_lower s :
  PyStr.lstrip_with PyStr.is_space (PyStr.lower s)
  = PyStr.lower (PyStr.lstrip_with PyStr.is_space s).
Proof.
  induction s as [|c r IH]; [reflexivity|]. cbn.
  rewrite lower_char_space. now destruct (PyStr.is_space c).
Qed.

Lemma rstrip_lower s :
  PyStr.rstrip_with PyStr.is_space (PyStr.lower s)
  = PyStr.lower (PyStr.rstrip_with PyStr.is_space s).
Proof.
  induction s as [|c r IH]; [reflexivity|]. cbn.
  rewrite lower_char_space, IH, is_empty_lower.
  now destruct (PyStr.is_space c && _).
Qed.

Lemma strip_lower s : PyStr.strip (PyStr.lower s) = PyStr.lower (PyStr.strip s).
Proof.
  unfold PyStr.strip, PyStr.strip_with. now rewrite rstrip_lower, lstrip_lower.
Qed.

Lemma sub_ws_lower b s :
  PyStr.sub_ws b (PyStr.lower s) = PyStr.lower (PyStr.sub_ws b s).
Proof.
  revert b. induction s as [|c r IH]; intros b; [reflexivity|]. cbn.
  rewrite lower_char_space.
  destruct (PyStr.is_space c); [destruct b|]; cbn; now rewrite IH.
Qed.

(** X4: normalizing and lower-casing commute, so that the lower-cased
    query the matches are compared with is the normal form of the
    lower-cased name. *)
Theorem normalize_query_lower name :
  PyStr.lower (normalize_query name) = normalize_query (PyStr.lower name).
Proof.
  unfold normalize_query. now rewrite strip_lower, sub_ws_lower.
Qed.

(** ** [label_nice_class] *)

Lemma append_length (s t : string) :
  String.length (s ++ t) = (String.length s + String.length t)%nat.
Proof. induction s as [|c r IH]; cbn; [reflexivity|now rewrite IH]. Qed.

Lemma append_longer (s t : string) : t <> EmptyString -> s ++ t <> s.
Proof.
  intros Ht H. apply (f_equal String.length) in H.
  rewrite append_length in H. destruct t; [now elim Ht|]. cbn in H. lia.
Qed.

Lemma table_find_key k t :
  (exists v, table_find k t = Some v) <-> In k (map fst t).
Proof.
  induction t as [|[k' v'] r IH]; cbn.
  - split; [intros [v H]; discriminate|contradiction].
  - destruct (String.eqb k k') eqn:Hk.
    + apply String.eqb_eq in Hk. subst k'. split; [now left|].
      intros _. now exists v'.
    + apply String.eqb_neq in Hk. rewrite IH. split; [now right|].
      intros [H|H]; [congruence|exact H].
Qed.

Lemma NICE_CLASS_MAP_codes :
  map fst NICE_CLASS_MAP
  = map (fun k => PyStr.of_Z (Z.of_nat k)) (seq 1 45).
Proof. reflexivity. Qed.

(** X5: a code gets a description exactly when, trimmed, it is the
    decimal writing of an integer from 1 to 45 (so 0, 46 or 07 are
    returned as they are, trimmed); the label then is the trimmed code,
    a blank and the description of that code in parentheses. *)
Theorem label_nice_class_mapped_codes n :
  (label_nice_class n <> PyStr.strip n <->
   exists k, 1 <= k <= 45 /\ PyStr.strip n = PyStr.of_Z k)
  /\ (label_nice_class n = PyStr.strip n
      \/ exists description,
           In (PyStr.strip n, description) NICE_CLASS_MAP
           /\ label_nice_class n
              = PyStr.strip n ++ " (" ++ description ++ ")").
Proof.
  unfold label_nice_class. cbv zeta.
  pose proof (table_find_key (PyStr.strip n) NICE_CLASS_MAP) as Hkey.
  rewrite NICE_CLASS_MAP_codes, in_map_iff in Hkey.
  assert (Hrange :
    (exists x, PyStr.of_Z (Z.of_nat x) = PyStr.strip n /\ In x (seq 1 45))
    <-> exists k, 1 <= k <= 45 /\ PyStr.strip n = PyStr.of_Z k).
  { split.
    - intros (x & Hx & Hin). apply in_seq in Hin.
      exists (Z.of_nat x). split; [lia|easy].
    - intros (k & Hk & Hs). exists (Z.to_nat k).
      rewrite Z2Nat.id by lia. split; [easy|]. apply in_seq. lia. }
  rewrite Hrange in Hkey. clear Hrange.
  destruct (table_find (PyStr.strip n) NICE_CLASS_MAP) as [d|] eqn:Hf.
  - split.
    + split; [intros _; apply Hkey; now exists d|].
      intros _. apply append_longer. discriminate.
    + right. exists d. split; [|reflexivity].
      clear Hkey. revert Hf. generalize (PyStr.strip n) as k.
      intros k. induction NICE_CLASS_MAP as [|[k' v'] r IH]; [discriminate|].
      cbn. destruct (String.eqb k k') eqn:Hk.
      * apply String.eqb_eq in Hk. intros [= ->]. left. now subst.
      * intros H. right. now apply IH.
  - split; [|now left]. split; [intros H; now elim H|].
    intros H. apply Hkey in H. destruct H as [v Hv]. discriminate.
Qed.

(** X6: whitespace around a code does not change its label, and every
    label begins with the trimmed code. *)
Theorem label_nice_class_trims n :
  label_nice_class (PyStr.strip n) = label_nice_class n
  /\ PyStr2.starts_with (PyStr.strip n) (label_nice_class n) = true.
Proof.
  assert (Hpre : forall s t, PyStr2.starts_with s (s ++ t) = true).
  { induction s as [|c r IH]; intros t; [reflexivity|]. cbn.
    now rewrite Ascii.eqb_refl, IH. }
  split.
  - unfold label_nice_class. cbv zeta. now rewrite strip_idempotent.
  - unfold label_nice_class. cbv zeta.
    destruct (table_find _ _).
    + apply Hpre.
    + induction (PyStr.strip n) as [|c r IH]; [reflexivity|]. cbn.
      now rewrite Ascii.eqb_refl.
Qed.

(** ** When [extract_nice_classes] raises *)

Lemma digit_not_int_space c :
  PyStr.is_digit c = true -> PyStr.is_int_space c = false.
Proof. destruct c as [[] [] [] [] [] [] [] []]; (reflexivity || discriminate). Qed.

Lemma digit_not_sign c :
  PyStr.is_digit c = true ->
  (PyStr.code c =? 45) = false /\ (PyStr.code c =? 43) = false
  /\ (PyStr.code c =? 95) = false.
Proof.
  destruct c as [[] [] [] [] [] [] [] []];
    (discriminate || (intros _; repeat split)).
Qed.

(** In a string of digits that are not all decimal, the run that [int]
    scans stops at a digit that is not decimal. *)
Lemma scan_digits_superscript s :
  PyStr.all_chars PyStr.is_digit s = true ->
  PyStr.all_chars PyStr.is_decimal s = false ->
  exists digits c rest,
    PyStr.scan_digits false s = Some (digits, String c rest)
    /\ PyStr.is_digit c = true.
Proof.
  induction s as [|c r IH]; [discriminate|]. cbn.
  intros Hd Hn. apply andb_true_iff in Hd. destruct Hd as [Hc Hr].
  destruct (PyStr.is_decimal c) eqn:Hdec.
  - cbn in Hn. destruct (IH Hr Hn) as (digits & c' & rest & -> & Hc').
    now exists (String c digits), c', rest.
  - destruct (digit_not_sign c Hc) as (_ & _ & ->).
    now exists EmptyString, c, r.
Qed.

(** [int] raises on a string that [isdigit] accepts and that holds a
    digit other than 0-9. *)
Lemma parse_int_superscript limit s :
  PyStr.isdigit s = true ->
  PyStr.all_chars PyStr.is_decimal s = false ->
  exists err, PyStr.parse_int limit s = inl err.
Proof.
  unfold PyStr.isdigit. intros Hd Hn.
  apply andb_true_iff in Hd. destruct Hd as [_ Hd].
  unfold PyStr.parse_int.
  assert (Hs : PyStr.all_chars (fun c => negb (PyStr.is_int_space c)) s = true).
  { revert Hd. apply all_chars_impl. intros c Hc.
    now rewrite (digit_not_int_space c Hc). }
  rewrite (lstrip_with_id _ _ Hs).
  destruct (scan_digits_superscript s Hd Hn) as (digits & c' & rest & Hscan & Hc').
  destruct s as [|c r]; [discriminate|].
  pose proof Hd as Hd'. cbn in Hd'. apply andb_true_iff in Hd'.
  destruct Hd' as [Hc _].
  destruct (digit_not_sign c Hc) as (-> & -> & ->).
  rewrite Hscan.
  destruct (PyStr.over_limit limit (String.length digits)); [now eexists|].
  destruct (PyStr.is_empty digits); [now eexists|].
  cbn [PyStr.lstrip_with]. rewrite (digit_not_int_space c' Hc').
  now eexists.
Qed.

(** The key function raises on the values that [key_defined] leaves
    out, and on no other. *)
Lemma class_key_undefined rt x :
  key_defined rt x = false -> exists e, Py.class_key rt x = inl e.
Proof.
  unfold key_defined, Py.class_key.
  destruct (PyStr.isdigit x) eqn:Hd; [|discriminate]. cbn [implb Py.int].
  intros Hn. apply andb_false_iff in Hn.
  destruct (PyStr.all_chars PyStr.is_decimal x) eqn:Hdec.
  - destruct Hn as [Hn|Hn]; [discriminate|]. apply negb_false_iff in Hn.
    unfold PyStr.isdigit in Hd. apply andb_true_iff in Hd.
    destruct Hd as [Hne _]. apply negb_true_iff in Hne.
    rewrite (parse_int_digits _ x Hne Hdec), Hn. now eexists.
  - destruct (parse_int_superscript (int_max_str_digits rt) x Hd Hdec)
      as [err ->].
    now eexists.
Qed.

Lemma class_key_returns rt x k :
  Py.class_key rt x = inr k -> key_defined rt x = true /\ k = sort_key x.
Proof.
  intros H. destruct (key_defined rt x) eqn:Hk.
  - rewrite (class_key_defined rt x Hk) in H. now injection H as <-.
  - destruct (class_key_undefined rt x Hk) as [e He]. congruence.
Qed.

Lemma class_key_raises rt x e :
  Py.class_key rt x = inl e <->
  PyStr.isdigit x = true /\ Py.int rt (JStr x) = inl e.
Proof.
  unfold Py.class_key. destruct (PyStr.isdigit x).
  - split; [now split|now intros [_ H]].
  - split; [discriminate|now intros [H _]].
Qed.

Lemma decorate_raises rt l e :
  decorate rt l = inl e -> exists x, In x l /\ Py.class_key rt x = inl e.
Proof.
  induction l as [|y r IH]; [discriminate|]. cbn [decorate].
  destruct (Py.class_key rt y) as [e'|k] eqn:Hy.
  - intros [= <-]. exists y. split; [now left|exact Hy].
  - destruct (decorate rt r) as [e'|kr]; [|discriminate].
    intros [= <-]. destruct (IH eq_refl) as (x & Hin & Hx).
    exists x. split; [now right|exact Hx].
Qed.

Lemma decorate_returns rt l kl :
  decorate rt l = inr kl ->
  forall x, In x l -> exists k, Py.class_key rt x = inr k.
Proof.
  revert kl. induction l as [|y r IH]; intros kl; [contradiction|].
  cbn [decorate].
  destruct (Py.class_key rt y) as [e|k] eqn:Hy; [discriminate|].
  destruct (decorate rt r) as [e|kr]; [discriminate|].
  intros _ x [<-|Hx]; [now exists k|exact (IH kr eq_refl x Hx)].
Qed.

(** X7: [extract_nice_classes] raises exactly when [int] raises on one
    of the collected values that [isdigit] accepts, and what it raises
    is the exception of [int] on such a value: collecting, stringifying,
    trimming and sorting the values raise nothing of their own. *)
Theorem extract_nice_classes_raises_iff rt tm :
  ((exists e, extract_nice_classes rt tm = inl e) <->
   exists x e, In x (class_numbers rt (class_candidates tm))
               /\ PyStr.isdigit x = true
               /\ Py.int rt (JStr x) = inl e)
  /\ forall e,
       extract_nice_classes rt tm = inl e ->
       exists x, In x (class_numbers rt (class_candidates tm))
                 /\ PyStr.isdigit x = true
                 /\ Py.int rt (JStr x) = inl e.
Proof.
  unfold extract_nice_classes.
  set (numbers := class_numbers rt (class_candidates tm)).
  assert (Hraised : forall e,
            sorted_classes rt numbers = inl e ->
            exists x, In x numbers /\ PyStr.isdigit x = true
                      /\ Py.int rt (JStr x) = inl e).
  { intros e. unfold sorted_classes.
    destruct (decorate rt (set_iter rt numbers)) as [e'|kl] eqn:Hd;
      [|discriminate].
    intros [= <-]. destruct (decorate_raises _ _ _ Hd) as (x & Hin & Hx).
    apply set_iter_In in Hin. apply class_key_raises in Hx.
    exists x. split; [exact Hin|exact Hx]. }
  split; [|exact Hraised]. split.
  - intros [e He]. destruct (Hraised e He) as (x & Hx). now exists x, e.
  - intros (x & e & Hin & Hd & He). unfold sorted_classes.
    destruct (decorate rt (set_iter rt numbers)) as [e'|kl] eqn:Hdec;
      [now exists e'|].
    destruct (decorate_returns _ _ _ Hdec x) as [k Hk].
    { now apply set_iter_In. }
    assert (Hx : Py.class_key rt x = inl e)
      by (apply class_key_raises; now split).
    congruence.
Qed.

(** In the model, the values on which the key function raises are those
    that [isdigit] accepts and that hold a digit other than 0-9 (one of
    the superscript digits of Latin-1) or more digits than [int]
    converts. *)
Lemma class_key_raises_iff rt x :
  (exists e, Py.class_key rt x = inl e) <->
  PyStr.isdigit x = true
  /\ (PyStr.all_chars PyStr.is_decimal x = false
      \/ PyStr.over_limit (int_max_str_digits rt) (String.length x) = true).
Proof.
  assert (Hk : key_defined rt x = false <->
               PyStr.isdigit x = true
               /\ (PyStr.all_chars PyStr.is_decimal x = false
                   \/ PyStr.over_limit (int_max_str_digits rt)
                        (String.length x) = true)).
  { unfold key_defined.
    destruct (PyStr.isdigit x), (PyStr.all_chars PyStr.is_decimal x),
      (PyStr.over_limit _ _); cbn; intuition discriminate. }
  rewrite <- Hk. split.
  - intros [e He]. destruct (key_defined rt x) eqn:Hd; [|reflexivity].
    rewrite (class_key_defined rt x Hd) in He. discriminate.
  - apply class_key_undefined.
Qed.

(** ** The token cache, as it behaves *)

Lemma get_ipau_access_token_settings E rt w :
  get_ipau_access_token E rt w
  = if unset (token_url_setting E)
    then (w, inl (ValueError "Missing IPAU_TOKEN_URL_TEST/PROD in environment"))
    else if unset (getenv E "IPAU_CLIENT_ID")
    then (w, inl (ValueError "Missing IPAU_CLIENT_ID in environment"))
    else if unset (getenv E "IPAU_CLIENT_SECRET")
    then (w, inl (ValueError "Missing IPAU_CLIENT_SECRET in environment"))
    else match cached_token w with
         | Some c =>
             if clock_ms E (length (sent w)) <? expiresAt c
             then (w, inr (token c))
             else (w, inl (NameError "name 'token_url' is not defined"))
         | None => (w, inl (NameError "name 'token_url' is not defined"))
         end.
Proof.
  unfold get_ipau_access_token, token_url_setting. cbv zeta.
  repeat match goal with |- context [if unset ?b then _ else _] =>
    destruct (unset b); [reflexivity|] end.
  unfold bind, read_cache, now_ms, ret.
  destruct (cached_token w) as [c|]; [|reflexivity].
  destruct (_ <? _); reflexivity.
Qed.

Lemma check_token_failure E rt name w e :
  unset (tm_base_url E) = false ->
  get_ipau_access_token E rt w = (w, inl e) ->
  check_ip_australia_trademark E rt name w = (w, inr (request_failed e)).
Proof.
  intros Hu Ht. rewrite (check_guarded _ _ _ _ Hu).
  unfold checked_steps, quick_search.
  now rewrite (bind_inl _ _ _ _ _ (bind_inl _ _ _ _ _ Ht)).
Qed.

Lemma missing_base_url_unset_run E rt name w :
  unset (tm_base_url E) = true ->
  check_ip_australia_trademark E rt name w = (w, inr missing_base_url).
Proof.
  intros H. unfold check_ip_australia_trademark. cbv zeta. now rewrite H.
Qed.

(** X8: when one of the three settings of the token request is missing,
    token acquisition raises a [ValueError] that names the first missing
    one, in the order token URL, client id, client secret (the client id
    is named only when the token URL is there, the client secret only
    when both are), without sending anything, even if a valid token is
    cached; the checker, its base URL being set, turns it into a result
    of status [unknown] whose details name that setting. *)
Theorem missing_token_settings E rt name w :
  settings_present E = false ->
  exists setting,
    ((unset (token_url_setting E) = true
      /\ setting = "IPAU_TOKEN_URL_TEST/PROD")
     \/ (unset (token_url_setting E) = false
         /\ unset (getenv E "IPAU_CLIENT_ID") = true
         /\ setting = "IPAU_CLIENT_ID")
     \/ (unset (token_url_setting E) = false
         /\ unset (getenv E "IPAU_CLIENT_ID") = false
         /\ unset (getenv E "IPAU_CLIENT_SECRET") = true
         /\ setting = "IPAU_CLIENT_SECRET"))
    /\ get_ipau_access_token E rt w
       = (w, inl (ValueError ("Missing " ++ setting ++ " in environment")))
    /\ (unset (tm_base_url E) = false ->
        check_ip_australia_trademark E rt name w
        = (w, inr (request_failed
                     (ValueError ("Missing " ++ setting ++ " in environment"))))
        /\ cr_status (request_failed
                        (ValueError ("Missing " ++ setting
                                     ++ " in environment"))) = unknown
        /\ cr_details (request_failed
                         (ValueError ("Missing " ++ setting
                                      ++ " in environment")))
           = Some ("Request failed: Missing " ++ setting
                   ++ " in environment")).
Proof.
  unfold settings_present. intros H.
  pose proof (get_ipau_access_token_settings E rt w) as Ht.
  destruct (unset (token_url_setting E)).
  { exists "IPAU_TOKEN_URL_TEST/PROD". split; [now left|].
    split; [exact Ht|]. intros Hu.
    split; [now apply check_token_failure|split; reflexivity]. }
  destruct (unset (getenv E "IPAU_CLIENT_ID")).
  { exists "IPAU_CLIENT_ID". split; [right; left; now repeat split|].
    split; [exact Ht|]. intros Hu.
    split; [now apply check_token_failure|split; reflexivity]. }
  destruct (unset (getenv E "IPAU_CLIENT_SECRET")); [|discriminate].
  exists "IPAU_CLIENT_SECRET". split; [right; right; now repeat split|].
  split; [exact Ht|]. intros Hu.
  split; [now apply check_token_failure|split; reflexivity].
Qed.

Lemma missing_token_settings_witness :
  settings_present no_secret_env = false
  /\ get_ipau_access_token no_secret_env sample_runtime primed_world
     = (primed_world,
        inl (ValueError "Missing IPAU_CLIENT_SECRET in environment")).
Proof.
  split; [reflexivity|].
  destruct (missing_token_settings no_secret_env sample_runtime "Acme"
              primed_world eq_refl)
    as (setting & [(H1 & _)|[(_ & H2 & _)|(_ & _ & _ & Hs)]] & H & _).
  - discriminate H1.
  - discriminate H2.
  - rewrite Hs in H. exact H.
Defined.

(** X9: token acquisition never sends a request and never changes the
    cache, and it returns a token exactly when the three settings are
    there and the cache holds a token whose expiry time lies strictly
    after the current time: that token.  At the expiry time itself, and
    after it, it raises. *)
Theorem token_only_from_cache E rt w :
  fst (get_ipau_access_token E rt w) = w
  /\ forall tok,
       snd (get_ipau_access_token E rt w) = inr tok <->
       settings_present E = true
       /\ exists c, cached_token w = Some c /\ token c = tok
                    /\ clock_ms E (length (sent w)) < expiresAt c.
Proof.
  split; [apply get_ipau_access_token_inert|].
  intros tok. rewrite get_ipau_access_token_settings.
  unfold settings_present.
  destruct (unset (token_url_setting E)); cbn [negb andb];
    [split; [discriminate|intros [H _]; discriminate]|].
  destruct (unset (getenv E "IPAU_CLIENT_ID")); cbn [negb andb];
    [split; [discriminate|intros [H _]; discriminate]|].
  destruct (unset (getenv E "IPAU_CLIENT_SECRET")); cbn [negb andb];
    [split; [discriminate|intros [H _]; discriminate]|].
  destruct (cached_token w) as [c|].
  - destruct (Z.ltb_spec (clock_ms E (length (sent w))) (expiresAt c)).
    + cbn. split.
      * intros [= <-]. split; [reflexivity|]. now exists c.
      * intros (_ & c' & [= <-] & <- & _). reflexivity.
    + cbn. split; [discriminate|].
      intros (_ & c' & [= <-] & _ & Hlt). lia.
  - cbn. split; [discriminate|]. intros (_ & c' & Hc & _). discriminate.
Qed.

(** X10: without a valid token in the cache (a process that has just
    started, or a token that has expired), the checker answers [unknown]
    without matches, sends no request and leaves the cache as it is:
    nothing in the code refreshes the token. *)
Theorem check_without_valid_token_is_unknown E rt name w :
  valid_cache E w = false ->
  exists r,
    check_ip_australia_trademark E rt name w = (w, inr r)
    /\ cr_status r = unknown
    /\ cr_exact_matches r = []
    /\ cr_similar_matches r = [].
Proof.
  unfold valid_cache. intros Hv.
  destruct (unset (tm_base_url E)) eqn:Hu.
  - exists missing_base_url.
    rewrite (missing_base_url_unset_run E rt name w Hu). repeat split.
  - assert (He : exists e, get_ipau_access_token E rt w = (w, inl e)).
    { rewrite get_ipau_access_token_settings.
      repeat match goal with |- context [if unset ?b then _ else _] =>
        destruct (unset b); [eexists; reflexivity|] end.
      destruct (cached_token w) as [c|]; [|eexists; reflexivity].
      rewrite Hv. eexists; reflexivity. }
    destruct He as [e He]. exists (request_failed e).
    split; [now apply check_token_failure|repeat split].
Qed.

Lemma check_without_valid_token_is_unknown_witness :
  valid_cache sample_env stale_world = false
  /\ exists r,
       check_ip_australia_trademark sample_env sample_runtime "Acme Brew"
         stale_world = (stale_world, inr r)
       /\ cr_status r = unknown.
Proof.
  split; [reflexivity|].
  destruct (check_without_valid_token_is_unknown sample_env sample_runtime
              "Acme Brew" stale_world eq_refl) as (r & Hr & Hs & _).
  now exists r.
Defined.

(** X11: whatever names the module namespace binds, a run of
    [request_new_token] leaves the module global [_cached_token] as it
    was, and sends at most one request, the token request. *)
Theorem refresh_leaves_cache E rt globals w :
  cached_token (fst (request_new_token E rt globals w)) = cached_token w
  /\ (sent (fst (request_new_token E rt globals w)) = sent w
      \/ exists url id secret,
           sent (fst (request_new_token E rt globals w))
           = (sent w ++ [TokenPost url id secret])%list).
Proof.
  unfold request_new_token, load_global, bind, send, lift, now_ms, raise, ret.
  destruct (globals "token_url") as [url|]; [|split; [reflexivity|now left]].
  destruct (globals "client_id") as [id|]; [|split; [reflexivity|now left]].
  destruct (globals "client_secret") as [secret|];
    [|split; [reflexivity|now left]].
  assert (Hgoal : forall (r : exn + json),
            cached_token (fst (log w (TokenPost url id secret), r))
            = cached_token w
            /\ (sent (fst (log w (TokenPost url id secret), r)) = sent w
                \/ exists url0 id0 secret0,
                     sent (fst (log w (TokenPost url id secret), r))
                     = (sent w ++ [TokenPost url0 id0 secret0])%list)).
  { intros r. split; [reflexivity|]. right. now exists url, id, secret. }
  destruct (network E _ _) as [e|response]; [apply Hgoal|].
  destruct (negb (is_success response)); [apply Hgoal|].
  destruct (decoded response) as [e|data]; [apply Hgoal|].
  destruct (Py.get data "access_token") as [e|tok]; [apply Hgoal|].
  destruct (Py.get_default data "expires_in" (JNum 3600)) as [e|raw];
    [apply Hgoal|].
  destruct (Py.int rt raw) as [e|n]; [apply Hgoal|].
  destruct (negb (Py.truthy tok)); apply Hgoal.
Qed.

(** ** The paths of the checker *)

Lemma prefix_length n s : (String.length (PyStr.prefix n s) <= n)%nat.
Proof.
  revert s. induction n as [|k IH]; intros s; [constructor|].
  destruct s as [|c r]; cbn; [lia|]. specialize (IH r). lia.
Qed.

Lemma prefix_starts n s : PyStr2.starts_with (PyStr.prefix n s) s = true.
Proof.
  revert s. induction n as [|k IH]; intros s; [reflexivity|].
  destruct s as [|c r]; [reflexivity|]. cbn.
  now rewrite Ascii.eqb_refl, IH.
Qed.

Lemma quick_search_sent E rt base q w tok :
  get_ipau_access_token E rt w = (w, inr tok) ->
  quick_search E rt base q w
  = match network E (length (sent w)) (search_request rt tok base q) with
    | inl e => (log w (search_request rt tok base q), inl e)
    | inr response =>
        if negb (is_success response)
        then (log w (search_request rt tok base q),
              inr (Finished (search_failed response)))
        else
          match decoded response with
          | inl e => (log w (search_request rt tok base q), inl e)
          | inr data =>
              match Py.get_default data "count" (JNum 0) with
              | inl e => (log w (search_request rt tok base q), inl e)
              | inr count_raw =>
                  match Py.int rt count_raw with
                  | inl e => (log w (search_request rt tok base q), inl e)
                  | inr count =>
                      match Py.get_default data "trademarkIds" (JArr []) with
                      | inl e => (log w (search_request rt tok base q), inl e)
                      | inr ids_raw =>
                          (log w (search_request rt tok base q),
                           inr (if (count =? 0)
                                   || (length (id_list ids_raw) =? 0)%nat
                                then Finished no_results
                                else Candidates tok count (id_list ids_raw)))
                      end
                  end
              end
          end
    end.
Proof.
  intros Ht. unfold quick_search. rewrite (bind_inr _ _ _ _ _ Ht).
  unfold bind at 1. rewrite send_run.
  destruct (network E _ _) as [e|response]; [reflexivity|].
  destruct (negb (is_success response)); [reflexivity|].
  unfold bind, lift.
  destruct (decoded response) as [e|data]; [reflexivity|].
  destruct (Py.get_default data "count" (JNum 0)) as [e|craw]; [reflexivity|].
  destruct (Py.int rt craw) as [e|c]; [reflexivity|].
  destruct (Py.get_default data "trademarkIds" (JArr [])) as [e|iraw];
    [reflexivity|].
  cbv zeta. now destruct (_ || _).
Qed.

(** X12: when the registry answers the quick search with a status that
    is not a success, the checker returns a result of status [unknown]
    whose details give the status code and the first 250 characters at
    most of the body; the quick search is the only request sent. *)
Theorem search_refused_is_unknown E rt name w tok response :
  unset (tm_base_url E) = false ->
  get_ipau_access_token E rt w = (w, inr tok) ->
  network E (length (sent w))
    (search_request rt tok (env_value (tm_base_url E)) (normalize_query name))
  = inr response ->
  is_success response = false ->
  exists excerpt,
    check_ip_australia_trademark E rt name w
    = (log w (search_request rt tok (env_value (tm_base_url E))
                (normalize_query name)),
       inr (search_failed response))
    /\ cr_status (search_failed response) = unknown
    /\ cr_details (search_failed response)
       = Some ("IP Australia error " ++ PyStr.of_Z (status_code response)
               ++ ": " ++ excerpt)
    /\ (String.length excerpt <= 250)%nat
    /\ PyStr2.starts_with excerpt (text response) = true
    /\ (String.length (text response) <= 250 -> excerpt = text response)%nat.
Proof.
  intros Hu Ht Hn Hs. exists (PyStr.prefix 250 (text response)).
  split.
  { rewrite (check_guarded _ _ _ _ Hu). unfold checked_steps.
    unfold bind at 1. rewrite (quick_search_sent _ _ _ _ _ _ Ht), Hn, Hs.
    reflexivity. }
  split; [reflexivity|]. split; [reflexivity|].
  split; [apply prefix_length|]. split; [apply prefix_starts|].
  generalize (text response) as s. generalize 250%nat as n.
  induction n as [|k IH]; intros s Hl.
  - destruct s; [reflexivity|cbn in Hl; lia].
  - destruct s as [|c r]; [reflexivity|]. cbn in *. rewrite IH by lia.
    reflexivity.
Qed.

Lemma search_refused_is_unknown_witness :
  unset (tm_base_url refusing_env) = false
  /\ is_success {| status_code := 503; text := "Service Unavailable";
                   decoded := inl (DecodeError "Expecting value") |} = false
  /\ exists r,
       check_ip_australia_trademark refusing_env sample_runtime "Acme Brew"
         primed_world = (searched "Acme Brew", inr r)
       /\ cr_details r
          = Some "IP Australia error 503: Service Unavailable".
Proof.
  split; [reflexivity|]. split; [reflexivity|].
  destruct (search_refused_is_unknown refusing_env sample_runtime "Acme Brew"
              primed_world (JStr "T0")
              {| status_code := 503; text := "Service Unavailable";
                 decoded := inl (DecodeError "Expecting value") |}
              eq_refl eq_refl eq_refl eq_refl)
    as (excerpt & Hr & _ & _ & _ & _ & _).
  eexists. split; [exact Hr|reflexivity].
Defined.

(** X13: when the HTTP client fails during the quick search, or the
    body of a successful answer does not decode, the checker returns the
    result of status [unknown] built from that exception, having sent
    the quick search only. *)
Theorem search_broken_is_unknown E rt name w tok e :
  unset (tm_base_url E) = false ->
  get_ipau_access_token E rt w = (w, inr tok) ->
  network E (length (sent w))
    (search_request rt tok (env_value (tm_base_url E)) (normalize_query name))
  = inl e
  \/ (exists response,
        network E (length (sent w))
          (search_request rt tok (env_value (tm_base_url E))
             (normalize_query name)) = inr response
        /\ is_success response = true
        /\ decoded response = inl e) ->
  check_ip_australia_trademark E rt name w
  = (log w (search_request rt tok (env_value (tm_base_url E))
              (normalize_query name)),
     inr (request_failed e))
  /\ cr_status (request_failed e) = unknown
  /\ cr_details (request_failed e) = Some ("Request failed: " ++ exn_str e).
Proof.
  intros Hu Ht Hn. split; [|split; reflexivity].
  rewrite (check_guarded _ _ _ _ Hu). unfold checked_steps.
  unfold bind at 1. rewrite (quick_search_sent _ _ _ _ _ _ Ht).
  destruct Hn as [->|(response & -> & Hs & Hd)]; [reflexivity|].
  now rewrite Hs, Hd.
Qed.

Lemma search_broken_is_unknown_witness :
  unset (tm_base_url offline_env) = false
  /\ get_ipau_access_token offline_env sample_runtime primed_world
     = (primed_world, inr (JStr "T0"))
  /\ check_ip_australia_trademark offline_env sample_runtime "Acme Brew"
       primed_world
     = (searched "Acme Brew",
        inr (request_failed (TransportError "connection refused"))).
Proof.
  split; [reflexivity|]. split; [reflexivity|].
  apply (search_broken_is_unknown offline_env sample_runtime "Acme Brew"
           primed_world (JStr "T0") (TransportError "connection refused")
           eq_refl eq_refl (or_introl eq_refl)).
Defined.

(** ** Invariants of every run of the checker *)

Lemma fetch_effects E rt id tok base w :
  fst (fetch_trademark_details E rt id tok base w)
  = log w (detail_request rt id tok base).
Proof.
  unfold fetch_trademark_details, bind. rewrite send_run.
  destruct (network E _ _) as [e|response]; [reflexivity|].
  destruct (negb (is_success response)); [reflexivity|].
  destruct (decoded response); reflexivity.
Qed.

Lemma gather_effects E rt tok base ids w :
  cached_token
    (fst (gather (fun id => fetch_trademark_details E rt id tok base) ids w))
  = cached_token w
  /\ sent
       (fst (gather (fun id => fetch_trademark_details E rt id tok base)
               ids w))
     = (sent w ++ map (fun id => detail_request rt id tok base) ids)%list.
Proof.
  revert w. induction ids as [|id r IH]; intros w.
  - cbn. now rewrite app_nil_r.
  - cbn [gather map].
    pose proof (fetch_effects E rt id tok base w) as Hf.
    destruct (fetch_trademark_details E rt id tok base w) as [w1 [e|d]];
      cbn [fst] in Hf; subst w1;
      destruct (IH (log w (detail_request rt id tok base))) as [Hc Hs].
    + cbn [fst]. rewrite Hc, Hs. cbn [log cached_token sent].
      now rewrite <- app_assoc.
    + destruct (gather _ r _) as [w2 [e|ds]]; cbn [fst] in *;
        rewrite Hc, Hs; cbn [log cached_token sent];
        now rewrite <- app_assoc.
Qed.

Lemma gather_length {A B} (f : A -> M B) l w w' bs :
  gather f l w = (w', inr bs) -> length bs = length l.
Proof.
  revert w w' bs. induction l as [|x r IH]; intros w w' bs; cbn.
  - unfold ret. now intros [= _ <-].
  - destruct (f x w) as [w1 [e|b]]; [discriminate|].
    destruct (gather f r w1) as [w2 [e|bs']] eqn:Hg; [discriminate|].
    intros [= _ <-]. cbn. now rewrite (IH _ _ _ Hg).
Qed.

Lemma parse_details_length rt ds parsed :
  parse_details rt ds = inr parsed -> length parsed = length ds.
Proof.
  intros H. apply parse_details_well_parsed in H.
  induction H; cbn; congruence.
Qed.

Lemma filter_split_length {A} (f g : A -> bool) l :
  (forall x, f x && g x = false) ->
  (length (filter f l) + length (filter g l) <= length l)%nat.
Proof.
  intros H. induction l as [|x r IH]; [constructor|]. cbn.
  specialize (H x). destruct (f x), (g x); cbn in *; try discriminate; lia.
Qed.

Lemma exact_similar_exclusive q_lower p :
  is_exact q_lower p && is_similar q_lower p = false.
Proof.
  unfold is_exact, is_similar.
  destruct (has_words p), (words_equal q_lower p); reflexivity.
Qed.

Ltac settle_consistent :=
  unfold consistent, new_result;
  cbn [cr_label cr_status cr_summary cr_why_this_matters cr_details
       cr_exact_matches cr_similar_matches];
  repeat split; intros;
  try discriminate; try (cbn [length] in *; lia);
  try match goal with
      | H : _ \/ _ |- _ => destruct H; discriminate
      | H : ?x <> ?x |- _ => now elim H
      | |- _ <> [] =>
          let Hn := fresh in
          intro Hn; rewrite Hn in *; cbn in *; first [lia|discriminate]
      end.

Lemma classify_consistent q count ids top parsed r :
  ids <> [] ->
  (length parsed <= 5)%nat ->
  classify q count ids top parsed = inr r ->
  consistent r.
Proof.
  intros Hids Hlen.
  pose proof (any_parsed_iff (PyStr.lower q) parsed) as Hany.
  pose proof (filter_split_length _ _ parsed
                (exact_similar_exclusive (PyStr.lower q))) as Hsplit.
  unfold classify. cbv zeta. rewrite any_parsed_iff.
  rewrite !length_map in Hany. rewrite !map_copy_match.
  destruct (existsb has_words parsed) eqn:Hw; cbn [negb].
  - apply Nat.ltb_lt in Hany. intros [= <-].
    destruct (filter (is_exact (PyStr.lower q)) parsed) as [|x ex];
      cbn [length Nat.ltb Nat.leb] in *; settle_consistent.
  - pose proof (firstn_le_length 5 ids) as Hfive.
    assert (Hne : firstn 5 ids <> [])
      by (destruct ids; [now elim Hids|discriminate]).
    clear Hany Hsplit. revert Hfive Hne.
    generalize (firstn 5 ids) as l. intros l Hfive Hne.
    destruct (join_ids l) as [e|joined]; [discriminate|].
    intros [= <-]. destruct l as [|a l]; [now elim Hne|].
    cbn [map]. settle_consistent.
    all: cbn [length] in *; rewrite ?length_map; lia.
Qed.

Lemma empty_result_consistent status summary why details :
  status = unknown \/ status = available ->
  consistent (new_result status summary why details None None).
Proof. intros [-> | ->]; settle_consistent. Qed.

Lemma quick_search_finished_consistent E rt base q w w1 r :
  quick_search E rt base q w = (w1, inr (Finished r)) -> consistent r.
Proof.
  unfold quick_search. unfold bind at 1.
  destruct (get_ipau_access_token E rt w) as [w0 [e|tok0]]; [discriminate|].
  unfold bind at 1. rewrite send_run.
  destruct (network E _ _) as [e|response]; [discriminate|].
  destruct (negb (is_success response)).
  { unfold ret. intros [= _ <-]. apply empty_result_consistent. now left. }
  unfold bind, lift.
  destruct (decoded response) as [e|data]; [discriminate|].
  destruct (Py.get_default data "count" (JNum 0)) as [e|craw]; [discriminate|].
  destruct (Py.int rt craw) as [e|c]; [discriminate|].
  destruct (Py.get_default data "trademarkIds" (JArr [])) as [e|iraw];
    [discriminate|].
  cbv zeta. destruct (_ || _); [|discriminate].
  unfold ret. intros [= _ <-]. apply empty_result_consistent. now right.
Qed.

Lemma checked_steps_consistent E rt q base w w' r :
  checked_steps E rt q base w = (w', inr r) -> consistent r.
Proof.
  unfold checked_steps. unfold bind at 1.
  destruct (quick_search E rt base q w) as [w1 [e|[res|tok count ids]]] eqn:Hq;
    [discriminate| |].
  - unfold ret. intros [= _ <-].
    now apply (quick_search_finished_consistent _ _ _ _ _ _ _ Hq).
  - cbv zeta. unfold bind.
    destruct (fetch_and_parse E rt tok base (firstn 5 ids) w1)
      as [w2 [e|parsed]] eqn:Hf; [discriminate|].
    rewrite lift_run. intros [= _ Hc].
    apply quick_search_candidates in Hq. destruct Hq as (_ & _ & _ & Hids).
    apply fetch_and_parse_inv in Hf. destruct Hf as (ds & Hg & Hp).
    apply gather_length in Hg. apply parse_details_length in Hp.
    pose proof (firstn_le_length 5 ids).
    apply (classify_consistent _ _ _ _ _ _ Hids) in Hc; [exact Hc|lia].
Qed.

(** X14: every result of the checker keeps the conventions between
    status and matches: the label, the summary, the explanation and the
    details are there; the status is [taken] exactly when there is an
    exact match; a result of status [similar] has a similar match; a
    result of status [available] or [unknown] has no match; and no
    result holds more than five matches. *)
Theorem check_result_consistent E rt name w :
  exists r,
    snd (check_ip_australia_trademark E rt name w) = inr r
    /\ cr_label r = "Trademark (IP Australia)"
    /\ cr_summary r <> None
    /\ cr_why_this_matters r <> None
    /\ cr_details r <> None
    /\ (cr_status r = taken <-> cr_exact_matches r <> [])
    /\ (cr_status r = similar -> cr_similar_matches r <> [])
    /\ (cr_status r = available \/ cr_status r = unknown ->
        cr_exact_matches r = [] /\ cr_similar_matches r = [])
    /\ (length (cr_exact_matches r) + length (cr_similar_matches r) <= 5)%nat.
Proof.
  assert (H : exists r,
            snd (check_ip_australia_trademark E rt name w) = inr r
            /\ consistent r).
  { unfold check_ip_australia_trademark. cbv zeta.
    destruct (unset (tm_base_url E)).
    - exists missing_base_url. split; [reflexivity|].
      apply empty_result_consistent. now left.
    - unfold try_except.
      destruct (checked_steps E rt _ _ w) as [w' [e|r]] eqn:Hs.
      + exists (request_failed e). split; [reflexivity|].
        apply empty_result_consistent. now left.
      + exists r. split; [reflexivity|].
        now apply (checked_steps_consistent _ _ _ _ _ _ _ Hs). }
  destruct H as (r & Hr & Hc). exists r. split; [exact Hr|exact Hc].
Qed.

(** ** What a check does to the world *)

Lemma quick_search_effects E rt base q w :
  fst (quick_search E rt base q w) = w
  \/ exists tok,
       get_ipau_access_token E rt w = (w, inr tok)
       /\ fst (quick_search E rt base q w)
          = log w (search_request rt tok base q).
Proof.
  destruct (get_ipau_access_token E rt w) as [w0 [e|tok]] eqn:Ht.
  - left. unfold quick_search. rewrite (bind_inl _ _ _ _ _ Ht).
    cbn. rewrite <- (get_ipau_access_token_inert E rt w). now rewrite Ht.
  - right. exists tok.
    assert (w0 = w) as ->.
    { rewrite <- (get_ipau_access_token_inert E rt w). now rewrite Ht. }
    split; [reflexivity|]. rewrite (quick_search_sent _ _ _ _ _ _ Ht).
    destruct (network E _ _) as [e|response]; [reflexivity|].
    destruct (negb (is_success response)); [reflexivity|].
    destruct (decoded response) as [e|data]; [reflexivity|].
    destruct (Py.get_default data "count" (JNum 0)) as [e|craw];
      [reflexivity|].
    destruct (Py.int rt craw) as [e|c]; [reflexivity|].
    destruct (Py.get_default data "trademarkIds" (JArr [])) as [e|iraw];
      reflexivity.
Qed.

Lemma world_eq (a b : World) :
  cached_token a = cached_token b -> sent a = sent b -> a = b.
Proof. destruct a, b. cbn. now intros -> ->. Qed.

Lemma fetch_and_parse_effects E rt tok base ids w :
  fst (fetch_and_parse E rt tok base ids w)
  = fst (gather (fun id => fetch_trademark_details E rt id tok base) ids w).
Proof.
  unfold fetch_and_parse, bind.
  destruct (gather _ ids w) as [w1 [e|ds]]; [reflexivity|].
  now rewrite lift_run.
Qed.

(** The state after the quick search with [tok] and the detail requests
    for [ids]. *)
Lemma checked_steps_effects E rt q base w :
  fst (checked_steps E rt q base w) = w
  \/ exists tok ids,
       (length ids <= 5)%nat
       /\ fst (checked_steps E rt q base w)
          = {| cached_token := cached_token w;
               sent := sent w
                       ++ search_request rt tok base q
                          :: map (fun id => detail_request rt id tok base)
                                 ids |}.
Proof.
  destruct (get_ipau_access_token E rt w) as [w0 [e|tok]] eqn:Ht.
  { left. unfold checked_steps, quick_search.
    rewrite (bind_inl _ _ _ _ _ (bind_inl _ _ _ _ _ Ht)). cbn.
    rewrite <- (get_ipau_access_token_inert E rt w). now rewrite Ht. }
  assert (w0 = w) as ->.
  { rewrite <- (get_ipau_access_token_inert E rt w). now rewrite Ht. }
  right. exists tok. unfold checked_steps. unfold bind at 1.
  rewrite (quick_search_sent _ _ _ _ _ _ Ht).
  assert (Hsearch : exists ids : list json,
            (length ids <= 5)%nat
            /\ log w (search_request rt tok base q)
               = {| cached_token := cached_token w;
                    sent := sent w
                            ++ search_request rt tok base q
                               :: map (fun id =>
                                         detail_request rt id tok base)
                                      ids |}).
  { exists []. split; [cbn; lia|reflexivity]. }
  destruct (network E _ _) as [e|response]; [exact Hsearch|].
  destruct (negb (is_success response)); [exact Hsearch|].
  destruct (decoded response) as [e|data]; [exact Hsearch|].
  destruct (Py.get_default data "count" (JNum 0)) as [e|craw];
    [exact Hsearch|].
  destruct (Py.int rt craw) as [e|c]; [exact Hsearch|].
  destruct (Py.get_default data "trademarkIds" (JArr [])) as [e|iraw];
    [exact Hsearch|].
  destruct (_ || _); [exact Hsearch|]. cbv zeta.
  exists (firstn 5 (id_list iraw)). split; [apply firstn_le_length|].
  assert (Hfst : forall (c : M (list TrademarkMatch))
                   (k : list TrademarkMatch -> exn + CheckResult) w1,
            fst (bind c (fun p => lift (k p)) w1) = fst (c w1)).
  { intros c0 k w1. unfold bind.
    destruct (c0 w1) as [w2 [e|p]]; reflexivity. }
  rewrite Hfst, fetch_and_parse_effects.
  destruct (gather_effects E rt tok base (firstn 5 (id_list iraw))
              (log w (search_request rt tok base q))) as [Hc Hs].
  apply world_eq; cbn [cached_token sent].
  - exact Hc.
  - rewrite Hs. cbn [log sent]. now rewrite <- app_assoc.
Qed.

(** X15: a check leaves the token cache as it is and sends either
    nothing, or the quick search followed by at most five detail
    requests, all with the same token: six requests at most, none of
    them to the token endpoint. *)
Theorem check_effects E rt name w :
  cached_token (fst (check_ip_australia_trademark E rt name w))
  = cached_token w
  /\ exists reqs,
       sent (fst (check_ip_australia_trademark E rt name w))
       = (sent w ++ reqs)%list
       /\ (length reqs <= 6)%nat
       /\ existsb is_token_post reqs = false
       /\ (reqs = []
           \/ exists tok ids,
                (length ids <= 5)%nat
                /\ reqs
                   = search_request rt tok (env_value (tm_base_url E))
                       (normalize_query name)
                     :: map (fun id =>
                               detail_request rt id tok
                                 (env_value (tm_base_url E))) ids).
Proof.
  assert (Hfst : fst (check_ip_australia_trademark E rt name w) = w
                 \/ fst (check_ip_australia_trademark E rt name w)
                    = fst (checked_steps E rt (normalize_query name)
                             (env_value (tm_base_url E)) w)).
  { unfold check_ip_australia_trademark. cbv zeta.
    destruct (unset (tm_base_url E)); [now left|]. right.
    unfold try_except.
    destruct (checked_steps E rt _ _ w) as [w' [e|r]]; reflexivity. }
  assert (Hnone : fst (check_ip_australia_trademark E rt name w) = w ->
            cached_token (fst (check_ip_australia_trademark E rt name w))
            = cached_token w
            /\ exists reqs,
                 sent (fst (check_ip_australia_trademark E rt name w))
                 = (sent w ++ reqs)%list
                 /\ (length reqs <= 6)%nat
                 /\ existsb is_token_post reqs = false
                 /\ (reqs = []
                     \/ exists tok ids,
                          (length ids <= 5)%nat
                          /\ reqs
                             = search_request rt tok
                                 (env_value (tm_base_url E))
                                 (normalize_query name)
                               :: map (fun id =>
                                         detail_request rt id tok
                                           (env_value (tm_base_url E))) ids)).
  { intros ->. split; [reflexivity|]. exists []. rewrite app_nil_r.
    repeat split; [cbn; lia|now left]. }
  destruct Hfst as [Hw|Hsteps]; [now apply Hnone|].
  destruct (checked_steps_effects E rt (normalize_query name)
              (env_value (tm_base_url E)) w) as [Hw|(tok & ids & Hlen & Hw)].
  - apply Hnone. now rewrite Hsteps.
  - rewrite Hsteps, Hw. cbn [cached_token sent]. split; [reflexivity|].
    eexists. split; [reflexivity|]. split; [|split].
    + cbn [length]. rewrite length_map. lia.
    + cbn [existsb search_request is_token_post orb].
      clear. induction ids as [|id r IH]; [reflexivity|exact IH].
    + right. now exists tok, ids.
Qed.

Lemma rstrip_with_append p s c :
  p c = true ->
  PyStr.rstrip_with p (s ++ String c EmptyString) = PyStr.rstrip_with p s.
Proof.
  intros Hc. induction s as [|a r IH]; cbn.
  - now rewrite Hc.
  - now rewrite IH.
Qed.

Lemma rstrip_with_idempotent p s :
  PyStr.rstrip_with p (PyStr.rstrip_with p s) = PyStr.rstrip_with p s.
Proof.
  induction s as [|a r IH]; [reflexivity|]. cbn.
  destruct (p a && PyStr.is_empty (PyStr.rstrip_with p r)) eqn:Hc;
    [reflexivity|].
  cbn. now rewrite IH, Hc.
Qed.

(** X16: slashes at the end of the base URL do not matter: the base URL
    with one more slash gives the same quick-search and detail
    requests, and the URL requested always is the base URL without its
    trailing slashes, followed by one slash and the path. *)
Theorem base_url_trailing_slashes rt id tok base q :
  search_request rt tok (base ++ "/") q = search_request rt tok base q
  /\ detail_request rt id tok (base ++ "/") = detail_request rt id tok base
  /\ PyStr.rstrip_slash (PyStr.rstrip_slash base) = PyStr.rstrip_slash base
  /\ search_request rt tok base q
     = SearchPost (PyStr.rstrip_slash base ++ "/search/quick")
                  ("Bearer " ++ Py.str rt tok) (search_payload q).
Proof.
  unfold search_request, detail_request, PyStr.rstrip_slash. cbv zeta.
  rewrite (rstrip_with_append _ base "/"%char eq_refl).
  repeat split. apply rstrip_with_idempotent.
Qed.

(** ** Serialization *)

Lemma map_injective {A B} (f : A -> B) :
  (forall x y, f x = f y -> x = y) ->
  forall l l', map f l = map f l' -> l = l'.
Proof.
  intros Hf. induction l as [|x r IH]; intros [|y r']; cbn;
    try discriminate; [reflexivity|].
  intros [= Hxy Hr]. now rewrite (Hf _ _ Hxy), (IH _ Hr).
Qed.

Lemma optional_str_injective a b : optional_str a = optional_str b -> a = b.
Proof. destruct a, b; cbn; congruence. Qed.

Lemma status_name_injective a b : status_name a = status_name b -> a = b.
Proof. destruct a, b; cbn; (reflexivity || discriminate). Qed.

Lemma match_to_dict_injective a b : match_to_dict a = match_to_dict b -> a = b.
Proof.
  destruct a, b. unfold match_to_dict. cbn.
  intros [= -> Hw Hs Hc Hl].
  apply optional_str_injective in Hw, Hs.
  apply (map_injective JStr) in Hc, Hl; try (intros x y; congruence).
  congruence.
Qed.

Lemma result_to_dict_injective a b :
  result_to_dict a = result_to_dict b -> a = b.
Proof.
  destruct a, b. unfold result_to_dict. cbn.
  intros [= -> Hst Hsu Hw Hd He Hs].
  apply status_name_injective in Hst.
  apply optional_str_injective in Hsu, Hw, Hd.
  apply (map_injective _ match_to_dict_injective) in He, Hs.
  congruence.
Qed.

(** X17: serialization loses nothing: two aggregates with the same
    [to_dict] are the same aggregate, and so for the results and the
    matches in them. *)
Theorem to_dict_injective a b :
  aggregated_to_dict a = aggregated_to_dict b -> a = b.
Proof.
  intros H.
  assert (Hfield : forall k,
            Py.get (aggregated_to_dict a) k = Py.get (aggregated_to_dict b) k)
    by (intros k; now rewrite H).
  pose proof (Hfield "businessName") as Hb.
  pose proof (Hfield "trademark") as Ht.
  pose proof (Hfield "domains") as Hd.
  pose proof (Hfield "socials") as Hs.
  clear H Hfield. destruct a, b. unfold aggregated_to_dict in *.
  cbn [Py.get Py.dict_get String.eqb Ascii.eqb Bool.eqb
       business_name trademark domains socials] in *.
  assert (Hb' : result_to_dict business_name0 = result_to_dict business_name1)
    by congruence.
  assert (Ht' : result_to_dict trademark0 = result_to_dict trademark1)
    by congruence.
  apply result_to_dict_injective in Hb', Ht'.
  assert (Hd' : map result_to_dict domains0 = map result_to_dict domains1)
    by congruence.
  assert (Hs' : map result_to_dict socials0 = map result_to_dict socials1)
    by congruence.
  apply (map_injective _ result_to_dict_injective) in Hd', Hs'.
  congruence.
Qed.

Lemma to_dict_injective_witness :
  aggregated_to_dict sample_aggregate = aggregated_to_dict sample_aggregate
  /\ sample_aggregate = sample_aggregate.
Proof.
  split; [reflexivity|].
  apply (to_dict_injective sample_aggregate sample_aggregate). reflexivity.
Defined.

(** ** The aggregator *)

Lemma check_returns E rt name w :
  exists r, check_ip_australia_trademark E rt name w
            = (fst (check_ip_australia_trademark E rt name w), inr r).
Proof.
  unfold check_ip_australia_trademark. cbv zeta.
  destruct (unset (tm_base_url E)); [now eexists|].
  unfold try_except.
  destruct (checked_steps E rt _ _ w) as [w' [e|r]]; now eexists.
Qed.

Lemma demo_results_total E rt name w :
  exists a,
    get_demo_results E rt name w
    = (fst (check_ip_australia_trademark E rt name w), inr a).
Proof.
  destruct (check_returns E rt name w) as [r Hr].
  unfold get_demo_results. cbv zeta. rewrite (bind_inr _ _ _ _ _ Hr).
  eexists. rewrite Hr. reflexivity.
Qed.

(** X18: [get_demo_results] never raises; the trademark part of what it
    returns is the result of the checker on the name as given, and its
    effects are those of that check; there are two domain checks and two
    social checks, none of which carries matches or a summary. *)
Theorem demo_results_wrap_the_check E rt name w :
  exists a,
    get_demo_results E rt name w
    = (fst (check_ip_australia_trademark E rt name w), inr a)
    /\ snd (check_ip_australia_trademark E rt name w) = inr (trademark a)
    /\ length (domains a) = 2%nat
    /\ length (socials a) = 2%nat
    /\ Forall (fun r => cr_exact_matches r = [] /\ cr_similar_matches r = []
                        /\ cr_summary r = None /\ cr_details r <> None)
              (business_name a :: domains a ++ socials a).
Proof.
  destruct (check_returns E rt name w) as [r Hr].
  unfold get_demo_results. cbv zeta. rewrite (bind_inr _ _ _ _ _ Hr).
  eexists. split; [reflexivity|]. rewrite Hr. cbn.
  repeat split; repeat constructor; discriminate.
Qed.

Lemma starts_with_rstrip needle s :
  PyStr.all_chars (fun c => negb (PyStr.is_space c)) needle = true ->
  PyStr2.starts_with needle (PyStr.rstrip_with PyStr.is_space s)
  = PyStr2.starts_with needle s.
Proof.
  revert s. induction needle as [|n0 n' IH]; intros s Hn.
  - now destruct (PyStr.rstrip_with PyStr.is_space s), s.
  - cbn in Hn. apply andb_true_iff in Hn. destruct Hn as [Hn0 Hn'].
    apply negb_true_iff in Hn0.
    destruct s as [|c r]; [reflexivity|]. cbn [PyStr.rstrip_with]. cbv zeta.
    destruct (PyStr.is_space c && _) eqn:Hc.
    + apply andb_true_iff in Hc. destruct Hc as [Hc _]. cbn.
      destruct (Ascii.eqb n0 c) eqn:He; [|reflexivity].
      apply Ascii.eqb_eq in He. congruence.
    + cbn. now rewrite (IH r Hn').
Qed.

Lemma contains_rstrip needle s :
  needle <> EmptyString ->
  PyStr.all_chars (fun c => negb (PyStr.is_space c)) needle = true ->
  PyStr2.contains needle (PyStr.rstrip_with PyStr.is_space s)
  = PyStr2.contains needle s.
Proof.
  intros Hne Hn. induction s as [|c r IH]; [reflexivity|].
  cbn [PyStr2.contains]. rewrite <- (starts_with_rstrip needle (String c r) Hn).
  cbn [PyStr.rstrip_with]. cbv zeta.
  destruct (PyStr.is_space c && _) eqn:Hc.
  - apply andb_true_iff in Hc. destruct Hc as [_ He].
    rewrite <- IH.
    destruct (PyStr.rstrip_with PyStr.is_space r); [|discriminate].
    destruct needle; [now elim Hne|reflexivity].
  - cbn [PyStr2.contains]. now rewrite IH.
Qed.

Lemma contains_lstrip needle s :
  needle <> EmptyString ->
  PyStr.all_chars (fun c => negb (PyStr.is_space c)) needle = true ->
  PyStr2.contains needle (PyStr.lstrip_with PyStr.is_space s)
  = PyStr2.contains needle s.
Proof.
  intros Hne Hn. induction s as [|c r IH]; [reflexivity|].
  cbn [PyStr.lstrip_with].
  destruct (PyStr.is_space c) eqn:Hc; [|reflexivity].
  rewrite IH. cbn [PyStr2.contains].
  destruct needle as [|n0 n']; [now elim Hne|].
  cbn in Hn. apply andb_true_iff in Hn. destruct Hn as [Hn0 _].
  apply negb_true_iff in Hn0. cbn [PyStr2.starts_with].
  destruct (Ascii.eqb n0 c) eqn:He; [|reflexivity].
  apply Ascii.eqb_eq in He. congruence.
Qed.

Lemma contains_strip needle s :
  needle <> EmptyString ->
  PyStr.all_chars (fun c => negb (PyStr.is_space c)) needle = true ->
  PyStr2.contains needle (PyStr.strip s) = PyStr2.contains needle s.
Proof.
  intros Hne Hn. unfold PyStr.strip, PyStr.strip_with.
  now rewrite contains_lstrip, contains_rstrip.
Qed.

(** X19: the placeholder checks read the lower-cased name.  The business
    name, the .com domain and the Instagram handle are [taken] exactly
    when the lower-cased name contains koala or australia, and
    [available] otherwise; the .com.au domain is [similar] exactly when
    it contains brew or coffee, and [available] otherwise; the TikTok
    handle is always [available]. *)
Theorem demo_statuses E rt name w :
  exists a com com_au instagram tiktok,
    snd (get_demo_results E rt name w) = inr a
    /\ domains a = [com; com_au]
    /\ socials a = [instagram; tiktok]
    /\ cr_status (business_name a)
       = (if PyStr2.contains "koala" (PyStr.lower name)
             || PyStr2.contains "australia" (PyStr.lower name)
          then taken else available)
    /\ cr_status com = cr_status (business_name a)
    /\ cr_status instagram = cr_status (business_name a)
    /\ cr_status com_au
       = (if PyStr2.contains "brew" (PyStr.lower name)
             || PyStr2.contains "coffee" (PyStr.lower name)
          then similar else available)
    /\ cr_status tiktok = available.
Proof.
  destruct (check_returns E rt name w) as [r Hr].
  unfold get_demo_results. cbv zeta. rewrite (bind_inr _ _ _ _ _ Hr).
  do 5 eexists. split; [reflexivity|]. cbn [domains socials business_name].
  split; [reflexivity|]. split; [reflexivity|].
  unfold is_probably_taken, has_similar, demo_normalized.
  rewrite !contains_strip by (discriminate || reflexivity).
  cbn [demo_result cr_status]. repeat split.
Qed.

Lemma lower_char_idempotent c :
  PyStr.lower_char (PyStr.lower_char c) = PyStr.lower_char c.
Proof. destruct c as [[] [] [] [] [] [] [] []]; reflexivity. Qed.

Lemma lower_idempotent s : PyStr.lower (PyStr.lower s) = PyStr.lower s.
Proof.
  induction s as [|c r IH]; [reflexivity|]. cbn.
  now rewrite lower_char_idempotent, IH.
Qed.

(** X20: the placeholder checks do not see the case of the name nor the
    whitespace around it: two names that are equal once trimmed and
    lower-cased get the same business-name, domain and social checks. *)
Theorem demo_ignores_case_and_padding E rt name1 name2 w1 w2 :
  PyStr.lower (PyStr.strip name1) = PyStr.lower (PyStr.strip name2) ->
  exists a1 a2,
    snd (get_demo_results E rt name1 w1) = inr a1
    /\ snd (get_demo_results E rt name2 w2) = inr a2
    /\ business_name a1 = business_name a2
    /\ domains a1 = domains a2
    /\ socials a1 = socials a2.
Proof.
  intros H.
  assert (Hn : demo_normalized name1 = demo_normalized name2).
  { unfold demo_normalized. now rewrite !strip_lower, H. }
  destruct (check_returns E rt name1 w1) as [r1 Hr1].
  destruct (check_returns E rt name2 w2) as [r2 Hr2].
  unfold get_demo_results. cbv zeta.
  rewrite (bind_inr _ _ _ _ _ Hr1), (bind_inr _ _ _ _ _ Hr2).
  do 2 eexists. split; [reflexivity|]. split; [reflexivity|].
  cbn [business_name domains socials].
  unfold demo_compact, is_probably_taken, has_similar. rewrite Hn.
  repeat split.
Qed.

Lemma demo_ignores_case_and_padding_witness :
  PyStr.lower (PyStr.strip "  Koala BREW ")
  = PyStr.lower (PyStr.strip "koala brew")
  /\ exists a1 a2,
       snd (get_demo_results sample_env sample_runtime "  Koala BREW "
              fresh_world) = inr a1
       /\ snd (get_demo_results sample_env sample_runtime "koala brew"
                 fresh_world) = inr a2
       /\ domains a1 = domains a2.
Proof.
  split; [reflexivity|].
  destruct (demo_ignores_case_and_padding sample_env sample_runtime
              "  Koala BREW " "koala brew" fresh_world fresh_world eq_refl)
    as (a1 & a2 & H1 & H2 & _ & Hd & _).
  now exists a1, a2.
Defined.

Lemma contains_blank_removed s t :
  PyStr2.contains " " (PyStr2.remove_blanks s ++ t) = PyStr2.contains " " t.
Proof.
  induction s as [|c r IH]; [reflexivity|]. cbn [PyStr2.remove_blanks].
  destruct (PyStr.code c =? 32) eqn:Hc; [exact IH|].
  cbn [String.append PyStr2.contains PyStr2.starts_with]. rewrite IH.
  destruct (Ascii.eqb " " c) eqn:He; [|reflexivity].
  apply Ascii.eqb_eq in He. subst c. discriminate.
Qed.

(** X21: the labels of the two domain checks never hold a blank,
    whatever the name; they are the compact name followed by .com and by
    .com.au. *)
Theorem demo_domain_labels E rt name w :
  exists a,
    snd (get_demo_results E rt name w) = inr a
    /\ map cr_label (domains a)
       = [demo_compact name ++ ".com"; demo_compact name ++ ".com.au"]
    /\ Forall (fun label => PyStr2.contains " " label = false)
              (map cr_label (domains a)).
Proof.
  destruct (check_returns E rt name w) as [r Hr].
  unfold get_demo_results. cbv zeta. rewrite (bind_inr _ _ _ _ _ Hr).
  eexists. split; [reflexivity|]. cbn [domains map demo_result cr_label].
  split; [reflexivity|].
  unfold demo_compact. repeat constructor; now rewrite contains_blank_removed.
Qed.

(** ** The endpoint *)

Lemma is_empty_lstrip s :
  PyStr.is_empty (PyStr.lstrip_with PyStr.is_space s)
  = PyStr.all_chars PyStr.is_space s.
Proof.
  induction s as [|c r IH]; [reflexivity|]. cbn.
  destruct (PyStr.is_space c); [exact IH|reflexivity].
Qed.

Lemma all_space_rstrip s :
  PyStr.all_chars PyStr.is_space (PyStr.rstrip_with PyStr.is_space s)
  = PyStr.all_chars PyStr.is_space s.
Proof.
  induction s as [|c r IH]; [reflexivity|]. cbn [PyStr.rstrip_with]. cbv zeta.
  destruct (PyStr.is_space c && _) eqn:Hc.
  - apply andb_true_iff in Hc. destruct Hc as [Hc He]. cbn.
    rewrite Hc, <- IH.
    now destruct (PyStr.rstrip_with PyStr.is_space r).
  - cbn. now rewrite IH.
Qed.

(** A name is blank, for [strip], when all its characters are
    whitespace. *)
Lemma is_empty_strip s :
  PyStr.is_empty (PyStr.strip s) = PyStr.all_chars PyStr.is_space s.
Proof.
  unfold PyStr.strip, PyStr.strip_with.
  now rewrite is_empty_lstrip, all_space_rstrip.
Qed.

(** X22: a request is refused with status 400 and the detail [No name
    provided.] exactly when its name is empty or whitespace only; the
    refusal sends no request, prints nothing and leaves the state as it
    is. *)
Theorem blank_name_is_rejected E rt fw request_name w :
  (PyStr.all_chars PyStr.is_space request_name = true ->
   check_brand E rt fw request_name w
   = (w, ([], HttpError 400 "No name provided.")))
  /\ (forall detail,
        snd (snd (check_brand E rt fw request_name w)) = HttpError 400 detail ->
        PyStr.all_chars PyStr.is_space request_name = true).
Proof.
  unfold check_brand. cbv zeta. rewrite is_empty_strip.
  destruct (PyStr.all_chars PyStr.is_space request_name).
  - split; [reflexivity|]. reflexivity.
  - split; [discriminate|]. intros detail.
    destruct (run_check E rt fw _ w) as [w' [e|body]]; cbn; discriminate.
Qed.

(** X23: how a request with a name that is not blank ends.  Either the
    validation of the serialized results passes and the response is
    [success: true] with the validated results and no error; or it
    raises, and the request fails with status 500 and the fixed detail
    [Internal server error], the text of the exception going to the
    printed line only.  The checks themselves never make the request
    fail, and their effects are those of the trademark check on the
    trimmed name. *)
Theorem check_brand_outcomes E rt fw request_name w :
  PyStr.all_chars PyStr.is_space request_name = false ->
  exists a,
    get_demo_results E rt (PyStr.strip request_name) w
    = (fst (check_ip_australia_trademark E rt (PyStr.strip request_name) w),
       inr a)
    /\ check_brand E rt fw request_name w
       = (fst (check_ip_australia_trademark E rt (PyStr.strip request_name) w),
          match validate_results fw (aggregated_to_dict a) with
          | inr validated =>
              ([], Responded (JObj [("success", JBool true);
                                    ("results", validated);
                                    ("error", JNull)]))
          | inl e =>
              (["Error in /api/check: " ++ exn_str e],
               HttpError 500 "Internal server error")
          end).
Proof.
  intros Hb.
  destruct (demo_results_total E rt (PyStr.strip request_name) w) as [a Ha].
  exists a. split; [exact Ha|].
  unfold check_brand. cbv zeta. rewrite is_empty_strip, Hb.
  unfold run_check. rewrite (bind_inr _ _ _ _ _ Ha). cbv zeta.
  unfold bind, lift, ret.
  destruct (validate_results fw (aggregated_to_dict a)); reflexivity.
Qed.

Lemma check_brand_outcomes_witness :
  PyStr.all_chars PyStr.is_space " Acme Brew " = false
  /\ snd (snd (check_brand sample_env sample_runtime strict_framework
                 " Acme Brew " primed_world))
     = HttpError 500 "Internal server error".
Proof.
  split; [reflexivity|].
  destruct (check_brand_outcomes sample_env sample_runtime strict_framework
              " Acme Brew " primed_world eq_refl) as (a & _ & ->).
  reflexivity.
Defined.

(** X24: the endpoint reads the name trimmed: a request name and the
    same name without the whitespace around it, and so any two request
    names that are equal once trimmed, end the same way, with the same
    effects. *)
Theorem check_brand_trims E rt fw name w :
  check_brand E rt fw (PyStr.strip name) w = check_brand E rt fw name w
  /\ forall name',
       PyStr.strip name' = PyStr.strip name ->
       check_brand E rt fw name' w = check_brand E rt fw name w.
Proof.
  split.
  - unfold check_brand. cbv zeta. now rewrite strip_idempotent.
  - intros name' H. unfold check_brand. cbv zeta. now rewrite H.
Qed.

(** ** More on the classes and the matches *)

Lemma NoDup_map_injective {A B} (f : A -> B) l x y :
  NoDup (map f l) -> In x l -> In y l -> f x = f y -> x = y.
Proof.
  induction l as [|a r IH]; [contradiction|]. cbn.
  intros Hnd Hx Hy Hf. inversion Hnd as [|? ? Hnotin Hnd']; subst.
  destruct Hx as [->|Hx], Hy as [->|Hy]; try reflexivity.
  - elim Hnotin. rewrite Hf. now apply in_map.
  - elim Hnotin. rewrite <- Hf. now apply in_map.
  - now apply IH.
Qed.

(** Two sorted lists with the same elements, whose keys are distinct,
    are equal. *)
Lemma sorted_unique {A} (key : A -> Z) l1 l2 :
  StronglySorted (fun a b => key a <= key b) l1 ->
  StronglySorted (fun a b => key a <= key b) l2 ->
  Permutation l1 l2 ->
  NoDup (map key l1) ->
  l1 = l2.
Proof.
  intros H1. revert l2. induction H1 as [|x r1 Hs1 IH Hall1]; intros l2 H2 Hp Hnd.
  - now apply Permutation_nil in Hp.
  - destruct l2 as [|y r2].
    { apply Permutation_sym, Permutation_nil in Hp. discriminate. }
    inversion H2 as [|? ? Hs2 Hall2]; subst.
    assert (Hxy : x = y).
    { assert (Hx : In x (y :: r2))
        by (apply (Permutation_in _ Hp); now left).
      assert (Hy : In y (x :: r1))
        by (apply (Permutation_in _ (Permutation_sym Hp)); now left).
      destruct Hx as [->|Hx]; [reflexivity|].
      destruct Hy as [->|Hy]; [reflexivity|].
      rewrite Forall_forall in Hall1, Hall2.
      pose proof (Hall1 _ Hy). pose proof (Hall2 _ Hx).
      apply (NoDup_map_injective key (x :: r1)); try assumption;
        [now left|now right|lia]. }
    subst y. f_equal. apply IH; [exact Hs2| |].
    + now apply Permutation_cons_inv in Hp.
    + now inversion Hnd.
Qed.

(** X25: take two records, each read by an interpreter of its own,
    that have the same set of collected values, none of which makes the
    key function raise (each value that [isdigit] accepts holds the
    digits 0-9 only, and no more of them than [int] converts), the sort
    keys of the distinct values being pairwise different: the function
    returns on both, and returns the same list.  Neither the order and
    repetition of the candidates in the record nor the order in which
    the interpreter iterates the set changes the result. *)
Theorem extract_order_independent rt1 rt2 tm1 tm2 :
  (forall x, In x (class_numbers rt1 (class_candidates tm1))
             <-> In x (class_numbers rt2 (class_candidates tm2))) ->
  forallb (key_defined rt1) (class_numbers rt1 (class_candidates tm1))
  = true ->
  forallb (key_defined rt2) (class_numbers rt2 (class_candidates tm2))
  = true ->
  NoDup (map sort_key
           (nodup string_dec (class_numbers rt1 (class_candidates tm1)))) ->
  exists l,
    extract_nice_classes rt1 tm1 = inr l
    /\ extract_nice_classes rt2 tm2 = inr l.
Proof.
  unfold extract_nice_classes.
  set (n1 := class_numbers rt1 (class_candidates tm1)).
  set (n2 := class_numbers rt2 (class_candidates tm2)).
  intros Hsame Hdef Hdef2 Hkeys.
  rewrite (sorted_classes_defined rt1 n1 Hdef),
          (sorted_classes_defined rt2 n2 Hdef2).
  exists (stable_sort sort_key (set_iter rt1 n1)).
  split; [reflexivity|]. f_equal. symmetry.
  assert (Hp1 : Permutation (stable_sort sort_key (set_iter rt1 n1))
                  (nodup string_dec n1)).
  { rewrite stable_sort_perm. apply set_iter_perm. }
  assert (Hp2 : Permutation (stable_sort sort_key (set_iter rt2 n2))
                  (nodup string_dec n2)).
  { rewrite stable_sort_perm. apply set_iter_perm. }
  assert (Hp : Permutation (nodup string_dec n1) (nodup string_dec n2)).
  { apply NoDup_Permutation; try apply NoDup_nodup.
    intros x. rewrite !nodup_In. apply Hsame. }
  apply (sorted_unique sort_key).
  - apply (stable_sort_sorted sort_key).
  - apply (stable_sort_sorted sort_key).
  - rewrite Hp1, Hp. now apply Permutation_sym.
  - apply (Permutation_NoDup
             (Permutation_map sort_key (Permutation_sym Hp1)) Hkeys).
Qed.

Lemma extract_order_independent_witness :
  forallb (key_defined sample_runtime)
    (class_numbers sample_runtime
       (class_candidates [("classes", JArr [JStr "35"; JStr "9"; JStr "abc"])]))
  = true
  /\ forallb (key_defined other_runtime)
       (class_numbers other_runtime
          (class_candidates
             [("niceClasses",
               JArr [JStr "abc"; JNum 9; JStr " 35"; JStr "9"])]))
     = true
  /\ extract_nice_classes sample_runtime
       [("classes", JArr [JStr "35"; JStr "9"; JStr "abc"])]
     = inr ["9"; "35"; "abc"]
  /\ extract_nice_classes other_runtime
       [("niceClasses", JArr [JStr "abc"; JNum 9; JStr " 35"; JStr "9"])]
     = inr ["9"; "35"; "abc"].
Proof.
  split; [reflexivity|]. split; [reflexivity|].
  destruct (extract_order_independent sample_runtime other_runtime
              [("classes", JArr [JStr "35"; JStr "9"; JStr "abc"])]
              [("niceClasses",
                JArr [JStr "abc"; JNum 9; JStr " 35"; JStr "9"])])
    as (l & H1 & H2).
  - intros x. cbn. tauto.
  - reflexivity.
  - reflexivity.
  - cbn. repeat constructor; cbn; intuition discriminate.
  - vm_compute in H1. injection H1 as <-. split; [reflexivity|exact H2].
Defined.

Lemma has_words_undescribed id : has_words (undescribed id) = false.
Proof. reflexivity. Qed.

(** X26: a detail fetch that came back with an error gives a match
    without words, and such a match is invisible: as long as another
    parsed match has words, the result is the same with and without
    it. *)
Theorem failed_detail_is_invisible rt q count ids top id error before after :
  existsb has_words (before ++ after) = true ->
  parse_detail rt (DetailError id error) = inr (undescribed id)
  /\ classify q count ids top (before ++ undescribed id :: after)
     = classify q count ids top (before ++ after).
Proof.
  intros Hw. split; [reflexivity|].
  assert (Hfilter : forall f,
            f (undescribed id) = false ->
            filter f (before ++ undescribed id :: after)
            = filter f (before ++ after)).
  { intros f Hf. rewrite !filter_app. cbn [filter]. now rewrite Hf. }
  assert (He : is_exact (PyStr.lower q) (undescribed id) = false)
    by reflexivity.
  assert (Hs : is_similar (PyStr.lower q) (undescribed id) = false)
    by reflexivity.
  unfold classify. cbv zeta.
  now rewrite (Hfilter _ He), (Hfilter _ Hs).
Qed.

Lemma failed_detail_is_invisible_witness :
  existsb has_words ([] ++ [match_101]) = true
  /\ classify "acme brew" 2 [JStr "100"; JStr "101"] [JStr "100"; JStr "101"]
       ([] ++ undescribed (JStr "100") :: [match_101])
     = classify "acme brew" 2 [JStr "100"; JStr "101"]
         [JStr "100"; JStr "101"] ([] ++ [match_101]).
Proof.
  split; [reflexivity|].
  apply (failed_detail_is_invisible sample_runtime "acme brew" 2
           [JStr "100"; JStr "101"] [JStr "100"; JStr "101"] (JStr "100")
           "Detail fetch failed 404: Not Found" [] [match_101]).
  reflexivity.
Defined.

Lemma str_items_first_other i ids :
  forallb is_str ids = false ->
  exists k v,
    nth_error ids k = Some v
    /\ is_str v = false
    /\ forallb is_str (firstn k ids) = true
    /\ str_items i ids
       = inl (TypeError ("sequence item " ++ PyStr.of_Z (Z.of_nat (i + k))
                         ++ ": expected str instance, " ++ Py.type_name v
                         ++ " found")).
Proof.
  revert i. induction ids as [|v r IH]; intros i; [discriminate|].
  cbn [forallb]. destruct (is_str v) eqn:Hv.
  - cbn. intros Hr. destruct (IH (S i) Hr) as (k & u & Hn & Hu & Hf & Hs).
    exists (S k), u. cbn [nth_error firstn forallb]. rewrite Hv.
    split; [exact Hn|]. split; [exact Hu|]. split; [exact Hf|].
    destruct v; try discriminate. cbn [str_items]. rewrite Hs.
    now rewrite Nat.add_succ_r.
  - intros _. exists 0%nat, v. rewrite Nat.add_0_r.
    split; [reflexivity|]. split; [exact Hv|]. split; [reflexivity|].
    destruct v; try discriminate; reflexivity.
Qed.

(** X27: the fallback joins the ids as strings.  On a run in which no
    parsed match has words and one of the first five ids is not a string
    (a number, say), the checker answers [unknown], with the message of
    the [TypeError] that [join] raises on the first such id, and not
    [similar]. *)
Theorem fallback_needs_string_ids E rt name w w1 w2 tok count ids parsed :
  unset (tm_base_url E) = false ->
  quick_search E rt (env_value (tm_base_url E)) (normalize_query name) w
  = (w1, inr (Candidates tok count ids)) ->
  fetch_and_parse E rt tok (env_value (tm_base_url E)) (firstn 5 ids) w1
  = (w2, inr parsed) ->
  existsb has_words parsed = false ->
  forallb is_str (firstn 5 ids) = false ->
  exists k v,
    nth_error (firstn 5 ids) k = Some v
    /\ is_str v = false
    /\ forallb is_str (firstn k (firstn 5 ids)) = true
    /\ check_ip_australia_trademark E rt name w
       = (w2,
          inr (request_failed
                 (TypeError ("sequence item " ++ PyStr.of_Z (Z.of_nat k)
                             ++ ": expected str instance, "
                             ++ Py.type_name v ++ " found")))).
Proof.
  intros Hu Hq Hf Hw Hstr.
  destruct (str_items_first_other 0 _ Hstr) as (k & v & Hn & Hv & Hpre & Hs).
  exists k, v. split; [exact Hn|]. split; [exact Hv|]. split; [exact Hpre|].
  rewrite (check_classifies _ _ _ _ _ _ _ _ _ _ Hu Hq Hf).
  rewrite (classify_without_words _ count ids _ parsed Hw).
  unfold join_ids. now rewrite Hs.
Qed.

Lemma fallback_needs_string_ids_witness :
  unset (tm_base_url numeric_env) = false
  /\ existsb has_words [undescribed (JNum 101); undescribed (JNum 102)] = false
  /\ forallb is_str (firstn 5 [JNum 101; JNum 102]) = false
  /\ exists r,
       snd (check_ip_australia_trademark numeric_env sample_runtime
              "Acme Brew" primed_world) = inr r
       /\ cr_status r = unknown.
Proof.
  split; [reflexivity|]. split; [reflexivity|]. split; [reflexivity|].
  destruct (fallback_needs_string_ids numeric_env sample_runtime "Acme Brew"
              primed_world (searched "Acme Brew")
              (fst (check_ip_australia_trademark numeric_env sample_runtime
                      "Acme Brew" primed_world))
              (JStr "T0") 2 [JNum 101; JNum 102]
              [undescribed (JNum 101); undescribed (JNum 102)]
              eq_refl eq_refl eq_refl eq_refl eq_refl)
    as (k & v & _ & _ & _ & Hr).
  eexists. rewrite Hr. split; reflexivity.
Defined.

Lemma sorted_classes_returns rt l classes :
  sorted_classes rt l = inr classes -> forallb (key_defined rt) l = true.
Proof.
  unfold sorted_classes.
  destruct (decorate rt (set_iter rt l)) as [e|kl] eqn:Hd; [discriminate|].
  intros _. apply forallb_forall. intros x Hx.
  destruct (decorate_returns _ _ _ Hd x) as [k Hk].
  { now apply set_iter_In. }
  now apply class_key_returns in Hk.
Qed.

Lemma sorted_classes_inr rt l classes :
  sorted_classes rt l = inr classes ->
  NoDup classes
  /\ StronglySorted (fun a b => sort_key a <= sort_key b) classes
  /\ forall x, In x classes <-> In x l.
Proof.
  intros H. pose proof (sorted_classes_returns _ _ _ H) as Hd.
  rewrite (sorted_classes_defined rt l Hd) in H. injection H as <-.
  split; [|split].
  - apply (Permutation_NoDup (Permutation_sym (stable_sort_perm _ _))).
    apply set_iter_NoDup.
  - apply (stable_sort_sorted sort_key).
  - intros x. rewrite <- (set_iter_In rt l x).
    split; apply Permutation_in;
      [apply stable_sort_perm|apply Permutation_sym, stable_sort_perm].
Qed.

(** The values the loop over the goods and services adds: [str(cls)]
    for each entry whose [class] is truthy. *)
Lemma goods_classes_spec rt goods added :
  goods_classes rt goods = inr added ->
  forall x,
    In x added <->
    exists gs cls, In gs goods /\ Py.get gs "class" = inr cls
                   /\ Py.truthy cls = true /\ x = Py.str rt cls.
Proof.
  revert added. induction goods as [|g r IH]; intros added; cbn [goods_classes].
  - intros [= <-] x. split; [contradiction|]. now intros (gs & cls & [] & _).
  - destruct (Py.get g "class") as [e|cls] eqn:Hg; [discriminate|].
    destruct (goods_classes rt r) as [e|rest]; [discriminate|].
    intros [= <-] x. specialize (IH rest eq_refl x).
    destruct (Py.truthy cls) eqn:Ht.
    + split.
      * intros [<-|Hx]; [now exists g, cls; repeat split; try left|].
        apply IH in Hx. destruct Hx as (gs & c & Hin & Hrest).
        exists gs, c. split; [now right|exact Hrest].
      * intros (gs & c & [<-|Hin] & Hc & Htc & ->).
        -- left. congruence.
        -- right. apply IH. now exists gs, c.
    + rewrite IH. split.
      * intros (gs & c & Hin & Hrest). exists gs, c.
        split; [now right|exact Hrest].
      * intros (gs & c & [<-|Hin] & Hc & Htc & ->).
        -- congruence.
        -- now exists gs, c.
Qed.

Lemma parse_detail_ordered rt d p :
  parse_detail rt d = inr p -> ordered_classes p.
Proof.
  unfold parse_detail. destruct d as [id tm|id msg].
  - destruct tm; try discriminate.
    destruct (match Py.dict_get "goodsAndServices" fields with
              | JArr l => goods_classes rt l
              | _ => inr []
              end) as [e|added]; [discriminate|].
    destruct (sorted_classes rt added) as [e|classes] eqn:Hs; [discriminate|].
    intros [= <-]. apply sorted_classes_inr in Hs.
    split; [apply Hs|apply Hs].
  - intros [= <-]. split; constructor.
Qed.

Lemma parsed_ordered rt ds parsed :
  parse_details rt ds = inr parsed -> Forall ordered_classes parsed.
Proof.
  revert parsed. induction ds as [|d r IH]; intros parsed; cbn.
  - intros [= <-]. constructor.
  - destruct (parse_detail rt d) as [e|p] eqn:Hp; [discriminate|].
    destruct (parse_details rt r) as [e|ps]; [discriminate|].
    intros [= <-]. constructor.
    + now apply (parse_detail_ordered rt d).
    + now apply IH.
Qed.

Lemma classify_ordered q count ids top parsed r :
  Forall ordered_classes parsed ->
  classify q count ids top parsed = inr r ->
  Forall ordered_classes (cr_exact_matches r ++ cr_similar_matches r).
Proof.
  intros Hl. destruct (existsb has_words parsed) eqn:Hw.
  - destruct (classify_with_words q count ids top parsed Hw)
      as (r' & -> & Hex & Hsim & _).
    intros [= <-]. rewrite Hex, Hsim.
    apply Forall_app. split; now apply Forall_filter.
  - rewrite (classify_without_words q count ids top parsed Hw).
    destruct (join_ids (firstn 5 ids)); [discriminate|].
    intros [= <-]. unfold new_result.
    cbn [cr_exact_matches cr_similar_matches app].
    apply Forall_forall. intros m Hm. apply in_map_iff in Hm.
    destruct Hm as (id & <- & _). split; constructor.
Qed.

(** X28: in every match of every result of the checker, the classes
    are without duplicates and in ascending order of their sort key (the
    number for a class number, 999 otherwise).  The classes of a match
    parsed from a record are the values [str(cls)] of the truthy [class]
    entries of the elements of its [goodsAndServices] list, and there
    are none when [goodsAndServices] is not a list. *)
Theorem result_classes_ordered E rt name w :
  (exists r,
     snd (check_ip_australia_trademark E rt name w) = inr r
     /\ Forall (fun m =>
                  NoDup (tm_classes m)
                  /\ StronglySorted (fun a b => sort_key a <= sort_key b)
                       (tm_classes m))
               (cr_exact_matches r ++ cr_similar_matches r))
  /\ forall id f p,
       parse_detail rt (DetailData id (JObj f)) = inr p ->
       (forall goods,
          Py.dict_get "goodsAndServices" f = JArr goods ->
          forall x,
            In x (tm_classes p) <->
            exists gs cls,
              In gs goods /\ Py.get gs "class" = inr cls
              /\ Py.truthy cls = true /\ x = Py.str rt cls)
       /\ ((forall goods, Py.dict_get "goodsAndServices" f <> JArr goods) ->
           tm_classes p = []).
Proof.
  split.
  - unfold check_ip_australia_trademark. cbv zeta.
    destruct (unset (tm_base_url E)).
    { exists missing_base_url. split; [reflexivity|constructor]. }
    unfold try_except.
    destruct (checked_steps E rt _ _ w) as [w' [e|r]] eqn:Hs.
    { exists (request_failed e). split; [reflexivity|constructor]. }
    exists r. split; [reflexivity|].
    revert Hs. unfold checked_steps. unfold bind at 1.
    destruct (quick_search E rt _ _ w) as [w1 [e|[res|tok count ids]]] eqn:Hq;
      [discriminate| |].
    + unfold ret. intros [= _ <-]. apply quick_search_finished in Hq.
      destruct Hq as [-> ->]. constructor.
    + cbv zeta. unfold bind.
      destruct (fetch_and_parse E rt tok _ (firstn 5 ids) w1)
        as [w2 [e|parsed]] eqn:Hf; [discriminate|].
      rewrite lift_run. intros [= _ Hc].
      apply fetch_and_parse_inv in Hf. destruct Hf as (ds & _ & Hp).
      apply (classify_ordered _ _ _ _ _ _ (parsed_ordered _ _ _ Hp) Hc).
  - intros id f p. unfold parse_detail. cbv zeta.
    destruct (Py.dict_get "goodsAndServices" f) as [| | | |goods|] eqn:Hg.
    all: try (destruct (sorted_classes rt []) as [e|classes] eqn:Hs;
              [discriminate|];
              intros [= <-]; split; [discriminate|]; intros _;
              cbn [new_match tm_classes];
              destruct classes as [|c cs]; [reflexivity|];
              destruct (sorted_classes_inr _ _ _ Hs) as (_ & _ & Hin);
              now destruct (proj1 (Hin c) (or_introl eq_refl))).
    destruct (goods_classes rt goods) as [e|added] eqn:Ha; [discriminate|].
    destruct (sorted_classes rt added) as [e|classes] eqn:Hs; [discriminate|].
    intros [= <-]. cbn [new_match tm_classes]. split.
    + intros goods' [= <-] x.
      rewrite <- (goods_classes_spec _ _ _ Ha x).
      apply (sorted_classes_inr _ _ _ Hs).
    + intros Hno. now elim (Hno goods).
Qed.
